(** * Hustle backend: conversational intake, product lifecycle and audit trail

    A shallow embedding of the Python sources
      - [app/services/logging.py]   (the audit recorder [log_action]),
      - [app/services/whatsapp.py]  (phone formatting, deep links, outbound messages),
      - [app/models.py]             ([Product.can_undo], the ORM event listeners),
      - [app/routers/webhook.py]    (image intake, confirm/cancel buttons, auto-registration),
      - [app/routers/products.py]   (intake over HTTP, confirm, remove, restore),
      - [app/routers/sellers.py]    (registration and catalog-slug generation),
    followed by the properties claimed of them.

    Conventions.  A Python [str] is a list of Unicode code points.  Instants
    ([datetime]) are integers counting microseconds.  A [float] is kept as
    the decimal text it was read from; its binary rounding is not modelled.
    Rows of a table with a primary key are a finite map from the key.

    The store is the one the session is bound to.  [models.py] takes its
    [UUID] type from the PostgreSQL dialect, so PostgreSQL is the store the
    code is written for; SQLite is the other store the models can be bound
    to.  The two differ where the code can see it, and the store is
    therefore part of the environment ([dialect]): PostgreSQL gives back a
    [DateTime(timezone=True)] column with a time zone, which the naive
    [datetime.utcnow()] cannot be compared with; it enforces the width of a
    [String(n)] column; and it refuses a [Numeric(12, 2)] that overflows.
    SQLite does none of the three.

    Everything else the code obtains from outside (the clock, random
    choices, UUIDs, the HTTP peers, the fate of a database write in the
    audit session, what a [Numeric(12, 2)] column makes of a float) is read
    from the environment [Env], through a cursor kept in the [World] where
    the answer changes from call to call.  A write of the audit session
    that is asked for from inside a flush of the request session (the
    [after_insert] listener) is refused by either store.  Handlers run one
    at a time: concurrency is not modelled, and neither are a store that
    cannot be reached, a text the driver cannot send, or a disk that fails
    while the webhook writes an image it has downloaded. *)

From Stdlib Require Import Ascii String DecimalString.
From stdpp Require Import gmap list strings.

Set Default Proof Using "Type".
Local Open Scope N_scope.

(** ** Python strings *)

Abbreviation pystr := (list N).

Definition py (s : string) : pystr :=
  N_of_ascii <$> list_ascii_of_string s.

Definition py_eqb (a b : pystr) : bool := bool_decide (a = b).

(** [str.isspace], the characters removed by [str.strip()]. *)
Definition is_space (c : N) : bool :=
  ((0x09 <=? c) && (c <=? 0x0D)) || ((0x1C <=? c) && (c <=? 0x20))
  || (c =? 0x85) || (c =? 0xA0) || (c =? 0x1680)
  || ((0x2000 <=? c) && (c <=? 0x200A))
  || (c =? 0x2028) || (c =? 0x2029) || (c =? 0x202F) || (c =? 0x205F)
  || (c =? 0x3000).

(** The decimal digits of Unicode (general category Nd, Unicode 14), which is
    what [\d] matches in a [str] pattern: blocks of ten consecutive code
    points, and the fifty mathematical digits from U+1D7CE. *)
Definition Nd_blocks : list N :=
  [0x30; 0x660; 0x6F0; 0x7C0; 0x966; 0x9E6; 0xA66; 0xAE6; 0xB66; 0xBE6;
   0xC66; 0xCE6; 0xD66; 0xDE6; 0xE50; 0xED0; 0xF20; 0x1040; 0x1090; 0x17E0;
   0x1810; 0x1946; 0x19D0; 0x1A80; 0x1A90; 0x1B50; 0x1BB0; 0x1C40; 0x1C50;
   0xA620; 0xA8D0; 0xA900; 0xA9D0; 0xA9F0; 0xAA50; 0xABF0; 0xFF10; 0x104A0;
   0x10D30; 0x11066; 0x110F0; 0x11136; 0x111D0; 0x112F0; 0x11450; 0x114D0;
   0x11650; 0x116C0; 0x11730; 0x118E0; 0x11950; 0x11C50; 0x11D50; 0x11DA0;
   0x16A60; 0x16AC0; 0x16B50; 0x1E140; 0x1E2F0; 0x1E950; 0x1FBF0].

Definition is_decimal (c : N) : bool :=
  existsb (fun b => (b <=? c) && (c <? b + 10)) Nd_blocks
  || ((0x1D7CE <=? c) && (c <=? 0x1D7FF)).

Fixpoint drop_while {A} (p : A -> bool) (l : list A) : list A :=
  match l with
  | x :: t => if p x then drop_while p t else l
  | [] => []
  end.

Fixpoint take_while {A} (p : A -> bool) (l : list A) : list A :=
  match l with
  | x :: t => if p x then x :: take_while p t else []
  | [] => []
  end.

Definition lstrip (s : pystr) : pystr := drop_while is_space s.
Definition rstrip (s : pystr) : pystr := rev (drop_while is_space (rev s)).
Definition strip (s : pystr) : pystr := rstrip (lstrip s).

(** ** A backtracking matcher for the fragment of [re] the code uses

    Character classes, concatenation, the greedy [?] and [+] (the latter on
    a class), one capturing group and [$].  Matching is by continuation:
    [k] receives the rest of the input and the capture made so far, and a
    [None] from [k] makes the matcher try its next alternative, as [re]
    does. *)

Inductive regex : Type :=
  | Cls (p : N -> bool)
  | Cat (r1 r2 : regex)
  | Opt (r : regex)
  | Plus (p : N -> bool)
  | Grp (r : regex)
  | Eol.

(** The capture of group 1: the input at its start and at its end. *)
Definition capture : Type := option (pystr * pystr).

Section Matcher.
Context {R : Type}.

Fixpoint match_star (p : N -> bool) (inp : pystr) (g : capture)
    (k : pystr -> capture -> option R) : option R :=
  match inp with
  | c :: t =>
      if p c then
        match match_star p t g k with
        | Some r => Some r
        | None => k inp g
        end
      else k inp g
  | [] => k inp g
  end.

(** [$] matches at the end of the string and just before a final newline. *)
Definition at_eol (inp : pystr) : bool :=
  match inp with
  | [] => true
  | [c] => c =? 0x0A
  | _ => false
  end.

Fixpoint match_re (r : regex) (inp : pystr) (g : capture)
    (k : pystr -> capture -> option R) : option R :=
  match r with
  | Cls p =>
      match inp with
      | c :: t => if p c then k t g else None
      | [] => None
      end
  | Cat r1 r2 => match_re r1 inp g (fun inp' g' => match_re r2 inp' g' k)
  | Opt r1 =>
      match match_re r1 inp g k with
      | Some x => Some x
      | None => k inp g
      end
  | Plus p =>
      match inp with
      | c :: t => if p c then match_star p t g k else None
      | [] => None
      end
  | Grp r1 => match_re r1 inp g (fun inp' _ => k inp' (Some (inp, inp')))
  | Eol => if at_eol inp then k inp g else None
  end.
End Matcher.

(** A match object: [start()], [end()] and [group(1)]. *)
Record Match : Type := {
  m_start : nat;
  m_end : nat;
  m_group1 : option pystr
}.

Definition span (from to : pystr) : pystr :=
  take (length from - length to)%nat from.

Definition match_at (r : regex) (pos : nat) (inp : pystr) : option Match :=
  match_re r inp None (fun rest g =>
    Some {| m_start := pos;
            m_end := (pos + (length inp - length rest))%nat;
            m_group1 := (fun '(a, b) => span a b) <$> g |}).

(** [re.search]: the leftmost position at which the pattern matches. *)
Fixpoint search_from (r : regex) (pos : nat) (inp : pystr) : option Match :=
  match match_at r pos inp with
  | Some m => Some m
  | None =>
      match inp with
      | [] => None
      | _ :: t => search_from r (S pos) t
      end
  end.

Definition re_search (r : regex) (s : pystr) : option Match :=
  search_from r 0 s.

(** [re.sub(r, '', s)] for a pattern that matches no empty string: the
    non-overlapping matches are deleted from left to right.  [skip] counts
    the characters of the current match still to be dropped. *)
Fixpoint sub_from (r : regex) (skip : nat) (inp : pystr) : pystr :=
  match inp with
  | [] => []
  | c :: t =>
      match skip with
      | S n => sub_from r n t
      | O =>
          match match_at r 0 inp with
          | Some m =>
              match m_end m with
              | S n => sub_from r n t
              | O => c :: sub_from r 0 t
              end
          | None => c :: sub_from r 0 t
          end
      end
  end.

Definition re_sub_empty (r : regex) (s : pystr) : pystr := sub_from r 0 s.

(** ** Caption parsing ([handle_image_message], [upload_product_via_whatsapp]) *)

Definition is_currency (c : N) : bool :=
  (c =? 0x24) || (c =? 0xA3) || (c =? 0x20AC).

Definition is_separator (c : N) : bool :=
  (c =? 0x2D) || (c =? 0x2013) || (c =? 0x2014) || (c =? 0x3A).

Definition is_dot (c : N) : bool := c =? 0x2E.

(** [r'[\$£€]?(\d+(?:\.\d{2})?)'] *)
Definition price_re : regex :=
  Cat (Opt (Cls is_currency))
      (Grp (Cat (Plus is_decimal)
                (Opt (Cat (Cls is_dot) (Cat (Cls is_decimal) (Cls is_decimal)))))).

(** [r'[-–—:]$'] *)
Definition separator_re : regex := Cat (Cls is_separator) Eol.

Definition Untitled_Product : pystr := py "Untitled Product".

(** [x or d] on strings: the empty string is falsy. *)
Definition str_or (x d : pystr) : pystr :=
  match x with [] => d | _ => x end.

(** The price is kept as the text of group 1; the code applies [float] to
    it, which is not modelled. *)
Definition parse_caption (caption : option pystr) : pystr * option pystr :=
  match caption with
  | None | Some [] => (Untitled_Product, None)
  | Some caption =>
      match re_search price_re caption with
      | Some price_match =>
          let price := m_group1 price_match in
          let name := str_or (strip (take (m_start price_match) caption))
                             Untitled_Product in
          let name := strip (re_sub_empty separator_re name) in
          (name, price)
      | None => (take 50 caption, None)
      end
  end.

(** ** Exceptions *)

Inductive Exn : Type :=
  | HTTPException (status_code : nat) (detail : pystr)
  | UnicodeEncodeError
  | IntegrityError
  | DatabaseError
  | AttributeError
  | HTTPError
  | TypeError
  | DataError.

(** The outcome of a computation without side effects. *)
Inductive outcome (A : Type) : Type :=
  | Return (a : A)
  | Raise (e : Exn).
Arguments Return {A} a.
Arguments Raise {A} e.

(** ** Phone numbers and deep links ([WhatsAppService]) *)

Definition is_not_decimal (c : N) : bool := negb (is_decimal c).

(** [_format_phone_number]: [re.sub(r'\D', '', phone)], then the country
    code for a ten-digit number. *)
Definition _format_phone_number (phone : pystr) : pystr :=
  let digits := re_sub_empty (Cls is_not_decimal) phone in
  if (length digits =? 10)%nat then py "1" ++ digits else digits.

(** [str.encode('utf-8', 'strict')]: a lone surrogate cannot be encoded. *)
Definition utf8_char (c : N) : option (list N) :=
  if c <? 0x80 then Some [c]
  else if c <? 0x800 then
    Some [0xC0 + c / 0x40; 0x80 + c mod 0x40]
  else if c <? 0x10000 then
    if (0xD800 <=? c) && (c <=? 0xDFFF) then None
    else Some [0xE0 + c / 0x1000; 0x80 + (c / 0x40) mod 0x40; 0x80 + c mod 0x40]
  else if c <? 0x110000 then
    Some [0xF0 + c / 0x40000; 0x80 + (c / 0x1000) mod 0x40;
          0x80 + (c / 0x40) mod 0x40; 0x80 + c mod 0x40]
  else None.

Fixpoint utf8_encode (s : pystr) : option (list N) :=
  match s with
  | [] => Some []
  | c :: t =>
      match utf8_char c, utf8_encode t with
      | Some b, Some bs => Some (b ++ bs)
      | _, _ => None
      end
  end.

(** The bytes [urllib.parse.quote] leaves alone: letters, digits,
    [_.-~], and the default [safe='/']. *)
Definition quote_safe (b : N) : bool :=
  ((0x41 <=? b) && (b <=? 0x5A)) || ((0x61 <=? b) && (b <=? 0x7A))
  || ((0x30 <=? b) && (b <=? 0x39))
  || (b =? 0x5F) || (b =? 0x2E) || (b =? 0x2D) || (b =? 0x7E) || (b =? 0x2F).

Definition hex_digit (d : N) : N :=
  if d <? 10 then 0x30 + d else 0x41 + (d - 10).

Definition quote_byte (b : N) : pystr :=
  if quote_safe b then [b] else [0x25; hex_digit (b / 16); hex_digit (b mod 16)].

Definition quote_from_bytes (bs : list N) : pystr :=
  concat (quote_byte <$> bs).

Definition quote (s : pystr) : outcome pystr :=
  match s with
  | [] => Return []
  | _ =>
      match utf8_encode s with
      | Some bs => Return (quote_from_bytes bs)
      | None => Raise UnicodeEncodeError
      end
  end.

Definition generate_whatsapp_deep_link (phone_number : pystr)
    (message : option pystr) : outcome pystr :=
  let formatted_phone := _format_phone_number phone_number in
  match message with
  | Some ((_ :: _) as message) =>
      match quote message with
      | Return encoded_message =>
          Return (py "https://wa.me/" ++ formatted_phone ++ py "?text=" ++ encoded_message)
      | Raise e => Raise e
      end
  | _ => Return (py "https://wa.me/" ++ formatted_phone)
  end.

(** ** The tables ([app/models.py]) *)

Module Seller.
Record t : Type := mk {
  id : N;
  phone_number : pystr;
  name : option pystr;
  whatsapp_chat_id : option pystr;
  catalog_slug : pystr;
  is_active : bool
}.
End Seller.

Module Product.
Record t : Type := mk {
  id : N;
  seller_id : N;
  name : pystr;
  description : option pystr;
  price : option pystr;
  currency : pystr;
  image_url : pystr;
  image_path : pystr;
  is_active : bool;
  removed_at : option Z;
  can_undo_until : option Z
}.
End Product.

Module Interest.
Record t : Type := mk {
  id : N;
  product_id : N;
  buyer_phone : option pystr;
  buyer_name : option pystr;
  message_sent : bool
}.
End Interest.

(** What a message to the seller says; the wording is not modelled. *)
Inductive Notice : Type :=
  | ImageUnreadable
  | ImageNotDownloaded
  | ImageFailed
  | InvalidProductId
  | ProductNotFound
  | ProductAdded (product_name catalog_url : pystr)
  | ProductNotAdded (product_name : pystr)
  | Welcome (seller_name : option pystr) (catalog_url : option pystr)
  | ConfirmPrompt (product_name : pystr)
  | UploadCaption (product_name : pystr) (price : option pystr).

(** A value of an [action_data] dictionary.  A float is kept as the text it
    was read from: [VFloat t] is [float(t)] and [VFloatStr t] is
    [str(float(t))]. *)
Inductive pyval : Type :=
  | VNone
  | VStr (s : pystr)
  | VNat (n : nat)
  | VFloat (t : pystr)
  | VFloatStr (t : pystr)
  | VInstant (t : Z)
  | VNotice (n : Notice).

Module ActionLog.
Inductive action : Type :=
  | SELLER_REGISTERED
  | PRODUCT_UPLOADED
  | PRODUCT_CONFIRMED
  | PRODUCT_CANCELLED
  | PRODUCT_REMOVED
  | PRODUCT_RESTORED
  | BUYER_INTEREST
  | CATALOG_VIEWED
  | WHATSAPP_MESSAGE_SENT
  | WHATSAPP_MESSAGE_RECEIVED
  | ERROR_OCCURRED.

#[global] Instance action_eq_dec : EqDecision action.
Proof. solve_decision. Defined.

Record t : Type := mk {
  action_type : action;
  seller_id : option N;
  product_id : option N;
  interest_id : option N;
  action_data : list (string * pyval);
  whatsapp_message_id : option pystr
}.
End ActionLog.

(** ** The world outside the handler *)

Inductive Payload : Type :=
  | TextPayload (body : Notice)
  | ImagePayload (link : pystr) (caption : option Notice)
  | ButtonsPayload (body : Notice) (buttons : list (pystr * string)).

Record Outbound : Type := mkOutbound {
  out_to : pystr;
  out_payload : Payload
}.

Record World : Type := mkWorld {
  sellers : list Seller.t;
  products : gmap N Product.t;
  interests : gmap N Interest.t;
  action_logs : list ActionLog.t;     (* oldest first *)
  uploads : gset (list N);            (* the image files on disk *)
  outbox : list Outbound;             (* messages the WhatsApp API accepted *)
  stdout : list Exn;                  (* "Failed to log action: e" lines *)
  ticks : nat;                        (* clock readings taken *)
  log_writes : nat;                   (* commits attempted by the audit session *)
  http_posts : nat;                   (* requests sent to the WhatsApp API *)
  draws : nat;                        (* random choices taken *)
  uuids : nat                         (* UUIDs generated *)
}.

(** The store the sessions are bound to. *)
Inductive Dialect : Type := PostgreSQL | SQLite.

#[global] Instance Dialect_eq_dec : EqDecision Dialect.
Proof. solve_decision. Defined.

Record Env : Type := mkEnv {
  dialect : Dialect;
  numeric_12_2 : pystr -> option pystr;         (* what a [Numeric(12, 2)] column gives
                                                   back for [float(t)]: the stored number,
                                                   or [None] when the store refuses it *)
  utcnow_at : nat -> Z;                         (* [datetime.utcnow()] *)
  audit_commit_ok : nat -> bool;                (* does the audit session's commit succeed *)
  http_post_at : nat -> outcome (option pystr); (* the message id, or what the call raises *)
  randbelow_at : nat -> nat;                    (* [secrets] *)
  uuid4_at : nat -> N;                          (* [uuid.uuid4()] *)
  media_url_of : pystr -> pystr;                (* [get_media_url]; empty on failure *)
  http_get : pystr -> option pystr;             (* the content type, or an exception *)
  unlink_ok : pystr -> bool;                    (* does [os.remove] succeed *)
  UUID : pystr -> option N;                     (* [uuid.UUID(s)]; [None] for [ValueError] *)
  uuid_str : N -> pystr;                        (* [str(uuid)] *)
  UPLOAD_DIR : pystr;
  CATALOG_BASE_URL : pystr;
  autoflush : bool                              (* of the request session *)
}.

(** What a [String(n)] column takes.  PostgreSQL refuses a longer text,
    unless all that exceeds the width is spaces, which it cuts off; SQLite
    takes any text as it is. *)
Definition varchar (d : Dialect) (n : nat) (s : pystr) : option pystr :=
  match d with
  | SQLite => Some s
  | PostgreSQL =>
      if (length s <=? n)%nat then Some s
      else if forallb (fun c => c =? 0x20) (drop n s) then Some (take n s)
      else None
  end.

(** The same for a column that may be [NULL]. *)
Definition varchar_null (d : Dialect) (n : nat) (s : option pystr)
    : option (option pystr) :=
  match s with
  | Some s => Some <$> varchar d n s
  | None => Some None
  end.

Definition with_sellers (v : list Seller.t) (w : World) : World :=
  mkWorld v (products w) (interests w) (action_logs w) (uploads w) (outbox w)
    (stdout w) (ticks w) (log_writes w) (http_posts w) (draws w) (uuids w).
Definition with_products (v : gmap N Product.t) (w : World) : World :=
  mkWorld (sellers w) v (interests w) (action_logs w) (uploads w) (outbox w)
    (stdout w) (ticks w) (log_writes w) (http_posts w) (draws w) (uuids w).
Definition with_interests (v : gmap N Interest.t) (w : World) : World :=
  mkWorld (sellers w) (products w) v (action_logs w) (uploads w) (outbox w)
    (stdout w) (ticks w) (log_writes w) (http_posts w) (draws w) (uuids w).
Definition with_action_logs (v : list ActionLog.t) (w : World) : World :=
  mkWorld (sellers w) (products w) (interests w) v (uploads w) (outbox w)
    (stdout w) (ticks w) (log_writes w) (http_posts w) (draws w) (uuids w).
Definition with_uploads (v : gset (list N)) (w : World) : World :=
  mkWorld (sellers w) (products w) (interests w) (action_logs w) v (outbox w)
    (stdout w) (ticks w) (log_writes w) (http_posts w) (draws w) (uuids w).
Definition with_outbox (v : list Outbound) (w : World) : World :=
  mkWorld (sellers w) (products w) (interests w) (action_logs w) (uploads w) v
    (stdout w) (ticks w) (log_writes w) (http_posts w) (draws w) (uuids w).
Definition with_stdout (v : list Exn) (w : World) : World :=
  mkWorld (sellers w) (products w) (interests w) (action_logs w) (uploads w)
    (outbox w) v (ticks w) (log_writes w) (http_posts w) (draws w) (uuids w).
Definition with_ticks (v : nat) (w : World) : World :=
  mkWorld (sellers w) (products w) (interests w) (action_logs w) (uploads w)
    (outbox w) (stdout w) v (log_writes w) (http_posts w) (draws w) (uuids w).
Definition with_log_writes (v : nat) (w : World) : World :=
  mkWorld (sellers w) (products w) (interests w) (action_logs w) (uploads w)
    (outbox w) (stdout w) (ticks w) v (http_posts w) (draws w) (uuids w).
Definition with_http_posts (v : nat) (w : World) : World :=
  mkWorld (sellers w) (products w) (interests w) (action_logs w) (uploads w)
    (outbox w) (stdout w) (ticks w) (log_writes w) v (draws w) (uuids w).
Definition with_draws (v : nat) (w : World) : World :=
  mkWorld (sellers w) (products w) (interests w) (action_logs w) (uploads w)
    (outbox w) (stdout w) (ticks w) (log_writes w) (http_posts w) v (uuids w).
Definition with_uuids (v : nat) (w : World) : World :=
  mkWorld (sellers w) (products w) (interests w) (action_logs w) (uploads w)
    (outbox w) (stdout w) (ticks w) (log_writes w) (http_posts w) (draws w) v.

(** ** The monad of handlers: state, exceptions, and a loop that may not end *)

Inductive Res (A : Type) : Type :=
  | Returns (a : A) (w : World)
  | Raises (e : Exn) (w : World)
  | Spins.
Arguments Returns {A} a w.
Arguments Raises {A} e w.
Arguments Spins {A}.

Definition M (A : Type) : Type := World -> Res A.

#[global] Instance M_ret : MRet M := fun A a w => Returns a w.
#[global] Instance M_bind : MBind M := fun A B f m w =>
  match m w with
  | Returns a w' => f a w'
  | Raises e w' => Raises e w'
  | Spins => Spins
  end.

Definition raise {A} (e : Exn) : M A := fun w => Raises e w.
Definition spin {A} : M A := fun _ => Spins.
Definition gets {A} (f : World -> A) : M A := fun w => Returns (f w) w.
Definition modify (f : World -> World) : M unit := fun w => Returns tt (f w).

(** [try: m  except Exception as e: h e] *)
Definition try_except {A} (m : M A) (h : Exn -> M A) : M A := fun w =>
  match m w with
  | Raises e w' => h e w'
  | r => r
  end.

(** [try: m  except httpx.HTTPError: h] *)
Definition try_except_http {A} (m : M A) (h : M A) : M A := fun w =>
  match m w with
  | Raises HTTPError w' => h w'
  | r => r
  end.

(** ** Small helpers on strings and prices *)

Fixpoint starts_with (prefix s : pystr) : bool :=
  match prefix, s with
  | [], _ => true
  | a :: p', b :: s' => (a =? b) && starts_with p' s'
  | _ :: _, [] => false
  end.

(** [needle in hay] *)
Fixpoint contains (needle hay : pystr) : bool :=
  starts_with needle hay ||
  match hay with
  | [] => false
  | _ :: t => contains needle t
  end.

(** [os.path.join(a, b)] for a relative [b]. *)
Definition path_join (a b : pystr) : pystr :=
  match a with
  | [] => b
  | _ => if bool_decide (last a = Some 0x2F) then a ++ b else a ++ py "/" ++ b
  end.

(** The digit zero of each script: a price made of these (and a dot) is the
    float [0.0], which Python treats as false. *)
Definition is_zero_digit (c : N) : bool :=
  existsb (fun b => c =? b) Nd_blocks
  || ((0x1D7CE <=? c) && (c <=? 0x1D7FF) && ((c - 0x1D7CE) mod 10 =? 0)).

Definition price_truthy (price : option pystr) : bool :=
  match price with
  | None => false
  | Some tok => negb (forallb (fun c => is_dot c || is_zero_digit c) tok)
  end.

Definition opt_str (o : option pystr) : pyval :=
  match o with
  | Some s => VStr s
  | None => VNone
  end.

Definition opt_float (o : option pystr) : pyval :=
  match o with
  | Some t => VFloat t
  | None => VNone
  end.

(** [str(price) if price else None] *)
Definition str_if_truthy (price : option pystr) : pyval :=
  match price with
  | Some t => if price_truthy price then VFloatStr t else VNone
  | None => VNone
  end.

(** The value of a decimal digit, of whatever script. *)
Definition digit_value (c : N) : N :=
  match List.find (fun b => (b <=? c) && (c <? b + 10)) Nd_blocks with
  | Some b => c - b
  | None => (c - 0x1D7CE) mod 10
  end.

Definition digits_value (ds : pystr) : N :=
  fold_left (fun n c => 10 * n + digit_value c) ds 0.

(** The hundredths in a decimal text ([digits] or [digits.digits]), rounded
    half away from zero, which is how PostgreSQL rounds to a [numeric] of
    scale 2. *)
Definition hundredths (t : pystr) : N :=
  let whole := take_while is_decimal t in
  let frac :=
    match drop_while is_decimal t with
    | d :: f => if is_dot d then take_while is_decimal f else []
    | [] => []
    end in
  100 * digits_value whole
  + digits_value (take 2 (frac ++ py "00"))
  + match drop 2 frac with
    | d :: _ => if 5 <=? digit_value d then 1 else 0
    | [] => 0
    end.

(** A number of hundredths printed as a [Decimal] of scale 2. *)
Definition numeric_text (h : N) : pystr :=
  py (NilZero.string_of_uint (N.to_uint (h / 100))) ++ py "."
  ++ [0x30 + (h mod 100) / 10; 0x30 + h mod 10].

(** [numeric(12, 2)] holds less than ten thousand million. *)
Definition numeric_12_2_bound : N := 1000000000000.

(** [string.ascii_lowercase + string.digits] *)
Definition slug_alphabet : pystr := py "abcdefghijklmnopqrstuvwxyz0123456789".

(** The undo window, thirty seconds, in microseconds. *)
Definition undo_seconds : Z := 30000000.

Section Handlers.
Variable E : Env.

(** *** Reading the environment *)

Definition utcnow : M Z := fun w =>
  Returns (utcnow_at E (ticks w)) (with_ticks (S (ticks w)) w).

Definition uuid4 : M N := fun w =>
  Returns (uuid4_at E (uuids w)) (with_uuids (S (uuids w)) w).

(** [secrets.choice(seq)] *)
Definition secrets_choice (seq : pystr) : M N := fun w =>
  Returns (nth (randbelow_at E (draws w) mod length seq)%nat seq 0)
          (with_draws (S (draws w)) w).

(** *** [app/services/logging.py] *)

(** [db.add(log_entry); db.commit(); db.refresh(log_entry)] in a session
    of its own. *)
Definition audit_commit (log_entry : ActionLog.t) : M ActionLog.t := fun w =>
  let w1 := with_log_writes (S (log_writes w)) w in
  if audit_commit_ok E (log_writes w)
  then Returns log_entry (with_action_logs (action_logs w ++ [log_entry]) w1)
  else Raises DatabaseError w1.

(** The same commit when [log_action] is called from a mapper listener,
    that is in the middle of a flush of the request session.  The row that
    fired the listener is written but not committed, and the audit session
    is another connection: on PostgreSQL it does not see the row its record
    refers to (a foreign-key violation), on SQLite it finds the database
    locked.  The commit fails whatever the store would otherwise do. *)
Definition audit_commit_in_flush (log_entry : ActionLog.t) : M ActionLog.t := fun w =>
  Raises DatabaseError (with_log_writes (S (log_writes w)) w).

Definition print_failed_to_log (e : Exn) : M unit :=
  modify (fun w => with_stdout (stdout w ++ [e]) w).

(** [log_action], given what the commit of its session comes to. *)
Definition log_action_with (commit : ActionLog.t -> M ActionLog.t)
    (action_type : ActionLog.action)
    (seller_id product_id interest_id : option N)
    (action_data : list (string * pyval))
    (whatsapp_message_id : option pystr) : M (option ActionLog.t) :=
  try_except
    (log_entry ← commit
       (ActionLog.mk action_type seller_id product_id interest_id
                     action_data whatsapp_message_id);
     mret (Some log_entry))
    (fun e =>
       (* db.rollback() *)
       print_failed_to_log e;;
       mret None).

Definition log_action : ActionLog.action -> option N -> option N -> option N ->
    list (string * pyval) -> option pystr -> M (option ActionLog.t) :=
  log_action_with audit_commit.

(** *** [app/services/whatsapp.py] *)

(** [client.post(...); response.raise_for_status(); response.json()] *)
Definition http_post (to : pystr) (payload : Payload) : M (option pystr) := fun w =>
  let w1 := with_http_posts (S (http_posts w)) w in
  match http_post_at E (http_posts w) with
  | Return message_id =>
      Returns message_id (with_outbox (outbox w ++ [mkOutbound to payload]) w1)
  | Raise e => Raises e w1
  end.

Definition send_text_message (to : pystr) (message : Notice) : M bool :=
  let formatted_phone := _format_phone_number to in
  try_except_http
    (result ← http_post formatted_phone (TextPayload message);
     log_action ActionLog.WHATSAPP_MESSAGE_SENT None None None
       [("to", VStr formatted_phone); ("message_type", VStr (py "text"));
        ("message_preview", VNotice message)]
       result;;
     mret true)
    (log_action ActionLog.ERROR_OCCURRED None None None
       [("error", VStr (py "Failed to send WhatsApp message"));
        ("phone", VStr formatted_phone)]
       None;;
     mret false).

Definition send_image_message (to image_url : pystr) (caption : option Notice)
    : M bool :=
  let formatted_phone := _format_phone_number to in
  try_except_http
    (result ← http_post formatted_phone (ImagePayload image_url caption);
     log_action ActionLog.WHATSAPP_MESSAGE_SENT None None None
       [("to", VStr formatted_phone); ("message_type", VStr (py "image"));
        ("image_url", VStr image_url)]
       result;;
     mret true)
    (mret false).

Definition send_interactive_buttons (to : pystr) (message : Notice)
    (buttons : list (pystr * string)) : M bool :=
  let formatted_phone := _format_phone_number to in
  let formatted_buttons :=
    (fun b => (b.1, String.substring 0 20 b.2)) <$> take 3 buttons in
  try_except_http
    (result ← http_post formatted_phone (ButtonsPayload message formatted_buttons);
     log_action ActionLog.WHATSAPP_MESSAGE_SENT None None None
       [("to", VStr formatted_phone);
        ("message_type", VStr (py "interactive_buttons"));
        ("button_count", VNat (length buttons))]
       result;;
     mret true)
    (mret false).

Definition send_upload_confirmation (to product_name : pystr) (product_id : N)
    (image_url : pystr) (price : option pystr) : M bool :=
  let caption := UploadCaption product_name price in
  image_result ← send_image_message to image_url (Some caption);
  if negb image_result then mret image_result
  else
    let message := ConfirmPrompt product_name in
    let buttons :=
      [(py "confirm_add_" ++ uuid_str E product_id, "Add"%string);
       (py "cancel_add_" ++ uuid_str E product_id, "Cancel"%string)] in
    send_interactive_buttons to message buttons.

Definition send_welcome_message (to : pystr) (seller_name : option pystr)
    (catalog_url : option pystr) : M bool :=
  send_text_message to
    (Welcome seller_name
       (match catalog_url with Some [] => None | u => u end)).

Definition send_product_added_confirmation (to product_name catalog_url : pystr)
    : M bool :=
  send_text_message to (ProductAdded product_name catalog_url).

(** *** [app/models.py] *)

(** [Product.can_undo]; the clock is read only when a deadline is set.
    [datetime.utcnow()] is naive, and [self.can_undo_until] is what the
    store gave back for a [DateTime(timezone=True)] column: [<] between a
    naive and an aware [datetime] raises [TypeError]. *)
Definition can_undo (self : Product.t) : M bool :=
  match Product.is_active self, Product.can_undo_until self with
  | false, Some can_undo_until =>
      now ← utcnow;
      match dialect E with
      | PostgreSQL => raise TypeError
      | SQLite => mret (bool_decide (now < can_undo_until)%Z)
      end
  | _, _ => mret false
  end.

(** The listener on [after_insert]; it runs inside the flush. *)
Definition log_product_insert (target : Product.t) : M unit :=
  log_action_with audit_commit_in_flush ActionLog.PRODUCT_UPLOADED
    (Some (Product.seller_id target)) (Some (Product.id target)) None
    [("product_name", VStr (Product.name target));
     ("price", str_if_truthy (Product.price target))]
    None;;
  mret tt.

(** The listener on [after_update] looks for the attributes [_was_removed]
    and [_was_restored], which nothing ever sets: it records nothing. *)
Definition log_product_update (target : Product.t) : M unit :=
  mret tt.

(** *** The request session *)

Definition query_seller_by_phone (phone_number : pystr) : M (option Seller.t) :=
  gets (fun w =>
    List.find (fun s => py_eqb (Seller.phone_number s) phone_number) (sellers w)).

Definition query_seller_by_id (seller_id : N) : M (option Seller.t) :=
  gets (fun w => List.find (fun s => Seller.id s =? seller_id) (sellers w)).

Definition query_seller_by_slug (slug : pystr) : M (option Seller.t) :=
  gets (fun w =>
    List.find (fun s => py_eqb (Seller.catalog_slug s) slug) (sellers w)).

Definition query_product (product_id : N) : M (option Product.t) :=
  gets (fun w => products w !! product_id).

(** The primary key and the three unique columns of [sellers]. *)
Definition seller_conflicts (new old : Seller.t) : bool :=
  (Seller.id old =? Seller.id new)
  || py_eqb (Seller.phone_number old) (Seller.phone_number new)
  || py_eqb (Seller.catalog_slug old) (Seller.catalog_slug new)
  || match Seller.whatsapp_chat_id old, Seller.whatsapp_chat_id new with
     | Some a, Some b => py_eqb a b
     | _, _ => false
     end.

(** The row the columns of [sellers] hold for [seller]: [String(20)],
    [String(100)], [String(100)] and [String(50)]. *)
Definition stored_seller (seller : Seller.t) : option Seller.t :=
  phone_number ← varchar (dialect E) 20 (Seller.phone_number seller);
  name ← varchar_null (dialect E) 100 (Seller.name seller);
  whatsapp_chat_id ← varchar_null (dialect E) 100 (Seller.whatsapp_chat_id seller);
  catalog_slug ← varchar (dialect E) 50 (Seller.catalog_slug seller);
  Some (Seller.mk (Seller.id seller) phone_number name whatsapp_chat_id
          catalog_slug (Seller.is_active seller)).

(** [db.add(seller); db.commit(); db.refresh(seller)]: a value that does
    not fit its column raises [DataError], a clash on the key or on a unique
    column [IntegrityError]; after the refresh [seller] is the row stored. *)
Definition add_seller (seller : Seller.t) : M Seller.t := fun w =>
  match stored_seller seller with
  | None => Raises DataError w
  | Some row =>
      if existsb (seller_conflicts row) (sellers w)
      then Raises IntegrityError w
      else Returns row (with_sellers (sellers w ++ [row]) w)
  end.

(** The row the columns of [products] hold for [product]: [String(200)],
    [Text], [Numeric(12, 2)], [String(3)], [String(500)] and [String(500)]. *)
Definition stored_product (product : Product.t) : option Product.t :=
  name ← varchar (dialect E) 200 (Product.name product);
  price ← match Product.price product with
          | Some price => Some <$> numeric_12_2 E price
          | None => Some None
          end;
  currency ← varchar (dialect E) 3 (Product.currency product);
  image_url ← varchar (dialect E) 500 (Product.image_url product);
  image_path ← varchar (dialect E) 500 (Product.image_path product);
  Some (Product.mk (Product.id product) (Product.seller_id product) name
          (Product.description product) price currency image_url image_path
          (Product.is_active product) (Product.removed_at product)
          (Product.can_undo_until product)).

(** [db.add(product); db.commit(); db.refresh(product)]: [DataError] and
    [IntegrityError] as for a seller; the flush fires [after_insert] with
    the object as the handler made it; after the refresh [product] is the
    row stored. *)
Definition add_product (product : Product.t) : M Product.t :=
  match stored_product product with
  | None => raise DataError
  | Some row =>
      existing ← query_product (Product.id product);
      match existing with
      | Some _ => raise IntegrityError
      | None =>
          modify (fun w =>
            with_products (<[Product.id row := row]> (products w)) w);;
          log_product_insert product;;
          mret row
      end
  end.

(** [db.commit()] with [product] modified; the flush fires [after_update].
    The handlers that call it have changed the flag and the two undo
    timestamps only, which either store takes as they are, save
    [update_product], which has put the price through its column first
    ([apply_product_update]). *)
Definition commit_product (product : Product.t) : M unit :=
  modify (fun w =>
    with_products (<[Product.id product := product]> (products w)) w);;
  log_product_update product.

(** [db.delete(product); db.commit()].  The relationships [interests] and
    [action_logs] cascade ["all, delete-orphan"]: the interests of the
    product, and the audit rows that refer to it or to them, go with it. *)
Definition log_refers_to (product_id : N) (its : gmap N Interest.t)
    (l : ActionLog.t) : bool :=
  bool_decide (ActionLog.product_id l = Some product_id)
  || match ActionLog.interest_id l with
     | Some i =>
         match its !! i with
         | Some it => Interest.product_id it =? product_id
         | None => false
         end
     | None => false
     end.

Definition delete_product (product : Product.t) : M unit :=
  modify (fun w =>
    let pid := Product.id product in
    with_products (delete pid (products w))
      (with_interests
         (filter (fun kv => Interest.product_id kv.2 ≠ pid) (interests w))
         (with_action_logs
            (List.filter (fun l => negb (log_refers_to pid (interests w) l))
                         (action_logs w))
            w))).

(** [if os.path.exists(path): os.remove(path)], errors ignored. *)
Definition remove_image (path : pystr) : M unit :=
  modify (fun w =>
    if unlink_ok E path then with_uploads (uploads w ∖ {[path]}) w else w).

(** [open(path, "wb")] with something written: the file is there
    afterwards. *)
Definition write_image (path : pystr) : M unit :=
  modify (fun w => with_uploads ({[path]} ∪ uploads w) w).
End Handlers.

(** What an HTTP endpoint answers. *)
Inductive Response : Type :=
  | ProductDict (product : Product.t)
  | ProductAddedOK (product_id : N) (catalog_url : pystr)
  | UploadCancelledOK
  | RemovedOK (removed_count : nat) (undo_until : Z).

Definition activate (p : Product.t) : Product.t :=
  Product.mk (Product.id p) (Product.seller_id p) (Product.name p)
    (Product.description p) (Product.price p) (Product.currency p)
    (Product.image_url p) (Product.image_path p)
    true (Product.removed_at p) (Product.can_undo_until p).

Definition soft_remove (now undo_window : Z) (p : Product.t) : Product.t :=
  Product.mk (Product.id p) (Product.seller_id p) (Product.name p)
    (Product.description p) (Product.price p) (Product.currency p)
    (Product.image_url p) (Product.image_path p)
    false (Some now) (Some undo_window).

Definition reinstate (p : Product.t) : Product.t :=
  Product.mk (Product.id p) (Product.seller_id p) (Product.name p)
    (Product.description p) (Product.price p) (Product.currency p)
    (Product.image_url p) (Product.image_path p)
    true None None.

Definition file_ext_of (content_type : pystr) : pystr :=
  if contains (py "png") content_type then py ".png"
  else if contains (py "webp") content_type then py ".webp"
  else py ".jpg".

Fixpoint foldM {A B} (f : B -> A -> M B) (b : B) (l : list A) : M B :=
  match l with
  | [] => mret b
  | a :: t => b' ← f b a; foldM f b' t
  end.

Section Routers.
Variable E : Env.

(** *** Catalog slugs ([sellers.py], [webhook.py]) *)

Fixpoint choices (n : nat) : M pystr :=
  match n with
  | O => mret []
  | S k => c ← secrets_choice E slug_alphabet; rest ← choices k; mret (c :: rest)
  end.

Definition generate_catalog_slug : M pystr := choices 8.

(** [while db.query(Seller).filter(Seller.catalog_slug == slug).first():
       slug = generate_slug()];
    [fuel] bounds the number of times the condition is evaluated. *)
Fixpoint retry_slug (fuel : nat) (slug : pystr) : M pystr :=
  match fuel with
  | O => spin
  | S n =>
      clash ← query_seller_by_slug slug;
      match clash with
      | Some _ => slug' ← generate_catalog_slug; retry_slug n slug'
      | None => mret slug
      end
  end.

Definition unique_slug (fuel : nat) : M pystr :=
  slug ← generate_catalog_slug;
  retry_slug fuel slug.

Definition catalog_url_of (slug : pystr) : pystr :=
  CATALOG_BASE_URL E ++ py "/" ++ slug.

(** *** [app/routers/sellers.py] *)

Definition register_seller (fuel : nat) (phone_number : pystr)
    (name whatsapp_chat_id : option pystr) : M Seller.t :=
  existing ← query_seller_by_phone phone_number;
  match existing with
  | Some _ =>
      raise (HTTPException 409
               (py "Seller already registered with this phone number"))
  | None =>
      slug ← unique_slug fuel;
      seller_id ← uuid4 E;
      let seller :=
        Seller.mk seller_id phone_number name whatsapp_chat_id slug true in
      seller ← add_seller E seller;
      log_action E ActionLog.SELLER_REGISTERED (Some (Seller.id seller)) None None
        [("phone_number", VStr (Seller.phone_number seller));
         ("name", opt_str (Seller.name seller));
         ("catalog_slug", VStr slug)]
        None;;
      mret seller
  end.

(** *** [app/routers/webhook.py] *)

Definition auto_register_seller (fuel : nat) (phone_number : pystr) : M Seller.t :=
  slug ← unique_slug fuel;
  seller_id ← uuid4 E;
  let seller :=
    Seller.mk seller_id phone_number None (Some phone_number) slug true in
  seller ← add_seller E seller;
  log_action E ActionLog.SELLER_REGISTERED (Some (Seller.id seller)) None None
    [("phone_number", VStr phone_number); ("catalog_slug", VStr slug)]
    None;;
  send_welcome_message E phone_number (Seller.name seller)
    (Some (catalog_url_of (Seller.catalog_slug seller)));;
  mret seller.

Definition handle_image_message (fuel : nat) (phone_number : pystr)
    (image_id : option pystr) (caption : pystr) : M unit :=
  seller ← query_seller_by_phone phone_number;
  seller ← match seller with
           | Some s => mret s
           | None => auto_register_seller fuel phone_number
           end;
  match image_id with
  | None | Some [] =>
      send_text_message E phone_number ImageUnreadable;; mret tt
  | Some image_id =>
      match media_url_of E image_id with
      | [] => send_text_message E phone_number ImageNotDownloaded;; mret tt
      | image_url =>
          let '(name, price) := parse_caption (Some caption) in
          match http_get E image_url with
          | None => send_text_message E phone_number ImageFailed;; mret tt
          | Some content_type =>
              let file_ext := file_ext_of content_type in
              u ← uuid4 E;
              let unique_filename := uuid_str E u ++ file_ext in
              let file_path := path_join (UPLOAD_DIR E) unique_filename in
              write_image file_path;;
              let local_image_url := py "/uploads/" ++ unique_filename in
              product_id ← uuid4 E;
              let product :=
                Product.mk product_id (Seller.id seller) name (Some caption)
                  price (py "USD") local_image_url file_path false None None in
              product ← add_product E product;
              log_action E ActionLog.PRODUCT_UPLOADED
                (Some (Seller.id seller)) (Some (Product.id product)) None
                [("product_name", VStr name); ("price", opt_float price)]
                None;;
              let price_str := if price_truthy price then price else None in
              send_upload_confirmation E phone_number name (Product.id product)
                local_image_url price_str;;
              mret tt
          end
      end
  end.

Definition confirm_product (product_id phone_number : pystr) (confirmed : bool)
    : M unit :=
  match UUID E product_id with
  | None => send_text_message E phone_number InvalidProductId;; mret tt
  | Some product_uuid =>
      product ← query_product product_uuid;
      match product with
      | None => send_text_message E phone_number ProductNotFound;; mret tt
      | Some product =>
          seller ← query_seller_by_id (Product.seller_id product);
          if confirmed then
            let product := activate product in
            commit_product product;;
            log_action E ActionLog.PRODUCT_CONFIRMED
              (Some (Product.seller_id product)) (Some (Product.id product)) None
              [("product_name", VStr (Product.name product))]
              None;;
            match seller with
            | None => raise AttributeError
            | Some seller =>
                send_product_added_confirmation E phone_number
                  (Product.name product)
                  (catalog_url_of (Seller.catalog_slug seller));;
                mret tt
            end
          else
            remove_image E (Product.image_path product);;
            delete_product product;;
            log_action E ActionLog.PRODUCT_CANCELLED
              (Seller.id <$> seller) None None
              [("product_name", VStr (Product.name product))]
              None;;
            send_text_message E phone_number
              (ProductNotAdded (Product.name product));;
            mret tt
      end
  end.

(** *** [app/routers/products.py] *)

Definition upload_product_via_whatsapp (phone_number image_url : pystr)
    (caption : option pystr) : M Response :=
  seller ← query_seller_by_phone phone_number;
  match seller with
  | None =>
      raise (HTTPException 404
               (py "Seller not registered. Please register first."))
  | Some seller =>
      let '(name, price) := parse_caption caption in
      let description := caption in
      match http_get E image_url with
      | None => raise (HTTPException 500 (py "Failed to download image"))
      | Some content_type =>
          let file_ext := file_ext_of content_type in
          u ← uuid4 E;
          let unique_filename := uuid_str E u ++ file_ext in
          let file_path := path_join (UPLOAD_DIR E) unique_filename in
          write_image file_path;;
          let local_image_url := py "/uploads/" ++ unique_filename in
          product_id ← uuid4 E;
          let product :=
            Product.mk product_id (Seller.id seller) name description price
              (py "USD") local_image_url file_path false None None in
          product ← add_product E product;
          let price_str := if price_truthy price then price else None in
          send_upload_confirmation E phone_number name (Product.id product)
            local_image_url price_str;;
          mret (ProductDict product)
      end
  end.

Definition confirm_product_upload (product_id : N) (confirmed : bool)
    : M Response :=
  product ← query_product product_id;
  match product with
  | None => raise (HTTPException 404 (py "Product not found"))
  | Some product =>
      seller ← query_seller_by_id (Product.seller_id product);
      if confirmed then
        let product := activate product in
        commit_product product;;
        log_action E ActionLog.PRODUCT_CONFIRMED
          (Some (Product.seller_id product)) (Some (Product.id product)) None
          [("product_name", VStr (Product.name product))]
          None;;
        match seller with
        | None => raise AttributeError
        | Some seller =>
            let catalog_url := catalog_url_of (Seller.catalog_slug seller) in
            send_product_added_confirmation E (Seller.phone_number seller)
              (Product.name product) catalog_url;;
            mret (ProductAddedOK (Product.id product) catalog_url)
        end
      else
        remove_image E (Product.image_path product);;
        delete_product product;;
        log_action E ActionLog.PRODUCT_CANCELLED
          (Seller.id <$> seller) None None
          [("product_name", VStr (Product.name product))]
          None;;
        mret UploadCancelledOK
  end.

(** One turn of the loop of [remove_products].  [pending] holds the
    objects the session has modified and not yet committed: the query
    sees them only if the session flushes before querying, and returns
    the session's object for the row in either case. *)
Definition remove_one (undo_window : Z) (st : gmap N Product.t * nat)
    (product_id : N) : M (gmap N Product.t * nat) :=
  rows ← gets products;
  let visible := if autoflush E then st.1 ∪ rows else rows in
  match visible !! product_id with
  | Some row =>
      if Product.is_active row then
        let product := default row (st.1 !! product_id) in
        now ← utcnow E;
        let product := soft_remove now undo_window product in
        log_action E ActionLog.PRODUCT_REMOVED
          (Some (Product.seller_id product)) (Some (Product.id product)) None
          [("product_name", VStr (Product.name product));
           ("undo_until", VInstant undo_window)]
          None;;
        mret (<[product_id := product]> st.1, S st.2)
      else mret st
  | None => mret st
  end.

Definition remove_products (product_ids : list N) : M Response :=
  now ← utcnow E;
  let undo_window := (now + undo_seconds)%Z in
  st ← foldM (remove_one undo_window) (∅, O) product_ids;
  modify (fun w => with_products (st.1 ∪ products w) w);;
  mret (RemovedOK st.2 undo_window).

Definition restore_product (product_id : N) : M Response :=
  product ← query_product product_id;
  match product with
  | Some product =>
      if Product.is_active product then
        raise (HTTPException 404 (py "Product not found or already active"))
      else
        undoable ← can_undo E product;
        if negb undoable then
          raise (HTTPException 410
                   (py "Undo window has expired (30 seconds passed)"))
        else
          let product := reinstate product in
          commit_product product;;
          log_action E ActionLog.PRODUCT_RESTORED
            (Some (Product.seller_id product)) (Some (Product.id product)) None
            [("product_name", VStr (Product.name product))]
            None;;
          mret (ProductDict product)
  | None =>
      raise (HTTPException 404 (py "Product not found or already active"))
  end.
End Routers.

(** ** The other endpoints

    What follows embeds the rest of the routers and services that can be
    written over the same tables: the read endpoints, updates and
    deletions, the direct upload, the public catalog, the readers of the
    audit trail and the dispatch of button clicks.  The columns
    [created_at], [ip_address] and [user_agent] are not part of the rows
    modelled; an ordering by [created_at] is a parameter where the rows
    carry no order, and the order of insertion for the audit trail. *)

(** *** More of Python *)

(** [s.replace(old, '')]: the occurrences of [old] are deleted from left to
    right, without overlap; [skip] counts the characters of the current
    occurrence still to be dropped. *)
Fixpoint remove_from (old : pystr) (skip : nat) (s : pystr) : pystr :=
  match s with
  | [] => []
  | c :: t =>
      match skip with
      | S n => remove_from old n t
      | O =>
          if starts_with old s then remove_from old (length old - 1) t
          else c :: remove_from old 0 t
      end
  end.

Definition str_remove (old s : pystr) : pystr :=
  match old with
  | [] => s
  | _ => remove_from old 0 s
  end.

(** [os.path.splitext(p)[1]] on POSIX: the text from the last dot of the
    base name on, unless only dots stand before it. *)
Definition splitext_ext (p : pystr) : pystr :=
  let base_rev := take_while (fun c => negb (c =? 0x2F)) (rev p) in
  match drop_while (fun c => negb (is_dot c)) base_rev with
  | [] => []
  | dot :: stem_rev =>
      if forallb is_dot stem_rev then []
      else rev (take_while (fun c => negb (is_dot c)) base_rev ++ [dot])
  end.

(** A value read from JSON.  The keys of an object are distinct; a lookup
    takes the first. *)
#[local] Unset Elimination Schemes.
Inductive json : Type :=
  | JNull
  | JBool (b : bool)
  | JInt (n : Z)
  | JFloat (text : pystr)
  | JStr (s : pystr)
  | JList (l : list json)
  | JDict (d : list (pystr * json)).
#[local] Set Elimination Schemes.

(** [d.get(key, default)] on a [dict] *)
Definition dict_get (key : pystr) (default : json) (d : list (pystr * json)) : json :=
  match List.find (fun kv => py_eqb kv.1 key) d with
  | Some kv => kv.2
  | None => default
  end.

(** [d[k] = v] on an [action_data] dictionary: a key already there keeps
    its place. *)
Fixpoint dict_set (k : string) (v : pyval) (d : list (string * pyval))
    : list (string * pyval) :=
  match d with
  | [] => [(k, v)]
  | (k', v') :: t =>
      if String.eqb k k' then (k, v) :: t else (k', v') :: dict_set k v t
  end.

(** [d.update(extra)] *)
Definition dict_update (d extra : list (string * pyval)) : list (string * pyval) :=
  fold_left (fun acc kv => dict_set kv.1 kv.2 acc) extra d.

Fixpoint mapM {A B} (f : A -> M B) (l : list A) : M (list B) :=
  match l with
  | [] => mret []
  | a :: t => b ← f a; bs ← mapM f t; mret (b :: bs)
  end.

(** A computation without side effects, run inside a handler. *)
Definition lift_outcome {A} (o : outcome A) : M A :=
  match o with
  | Return a => mret a
  | Raise e => raise e
  end.

(** *** The values of the responses *)

(** What [Product.to_dict] returns; the key ["seller"] is there only when
    asked for and found. *)
Module ProductData.
Record seller_part : Type := mk_seller {
  seller_id : pystr;
  seller_name : option pystr;
  seller_phone_number : pystr
}.
Record t : Type := mk {
  id : pystr;
  name : pystr;
  description : option pystr;
  price : option pystr;
  currency : pystr;
  image_url : pystr;
  is_active : bool;
  can_undo : bool;
  seller : option seller_part
}.
End ProductData.

(** What [Seller.to_dict] returns. *)
Module SellerData.
Record t : Type := mk {
  id : pystr;
  phone_number : pystr;
  name : option pystr;
  catalog_slug : pystr;
  catalog_url : pystr;
  is_active : bool;
  product_count : nat
}.
End SellerData.

Module SellerUpdate.
Record t : Type := mk {
  name : option pystr;
  is_active : option bool
}.
End SellerUpdate.

Module ProductUpdate.
Record t : Type := mk {
  name : option pystr;
  description : option pystr;
  price : option pystr;
  currency : option pystr
}.
End ProductUpdate.

Module ProductListResponse.
Record t : Type := mk {
  items : list ProductData.t;
  total : nat;
  active_count : nat;
  removed_count : nat
}.
End ProductListResponse.

Module CatalogProductResponse.
Record t : Type := mk {
  id : N;
  name : pystr;
  description : option pystr;
  price : option pystr;
  currency : pystr;
  image_url : pystr;
  seller_name : option pystr;
  whatsapp_link : pystr
}.
End CatalogProductResponse.

Module CatalogResponse.
Record t : Type := mk {
  seller_name : option pystr;
  seller_phone : pystr;
  products : list CatalogProductResponse.t;
  total_products : nat
}.
End CatalogResponse.

Module ProductDetail.
Record t : Type := mk {
  product : ProductData.t;
  seller_name : option pystr;
  seller_phone_number : pystr;
  whatsapp_link : pystr
}.
End ProductDetail.

Module CatalogLink.
Record t : Type := mk {
  catalog_url : pystr;
  catalog_slug : pystr
}.
End CatalogLink.

(** [SuccessResponse(success=True, message=...)] *)
Inductive SuccessResponse : Type :=
  | Success (message : pystr).

(** What saving an uploaded file comes to: written, not opened, or opened
    and left incomplete; the text is that of the exception. *)
Inductive saved : Type :=
  | Saved
  | NotOpened (e : pystr)
  | Incomplete (e : pystr).

(** The constants of [ActionLog]. *)
Definition action_name (a : ActionLog.action) : pystr :=
  match a with
  | ActionLog.SELLER_REGISTERED => py "seller_registered"
  | ActionLog.PRODUCT_UPLOADED => py "product_uploaded"
  | ActionLog.PRODUCT_CONFIRMED => py "product_confirmed"
  | ActionLog.PRODUCT_CANCELLED => py "product_cancelled"
  | ActionLog.PRODUCT_REMOVED => py "product_removed"
  | ActionLog.PRODUCT_RESTORED => py "product_restored"
  | ActionLog.BUYER_INTEREST => py "buyer_interest"
  | ActionLog.CATALOG_VIEWED => py "catalog_viewed"
  | ActionLog.WHATSAPP_MESSAGE_SENT => py "whatsapp_message_sent"
  | ActionLog.WHATSAPP_MESSAGE_RECEIVED => py "whatsapp_message_received"
  | ActionLog.ERROR_OCCURRED => py "error_occurred"
  end.

(** The rows of [products] with a given [seller_id], which is also what
    the relationship [Seller.products] loads; in no particular order. *)
Definition products_of (seller_id : N) (w : World) : list Product.t :=
  List.filter (fun p => Product.seller_id p =? seller_id)
              (map_to_list (products w)).*2.

Definition seller_not_found : Exn := HTTPException 404 (py "Seller not found").
Definition product_not_found : Exn := HTTPException 404 (py "Product not found").

Section Endpoints.
Variable E : Env.

(** *** [app/models.py] *)

Definition Product_to_dict (self : Product.t) (include_seller : bool)
    : M ProductData.t :=
  undoable ← (if Product.is_active self then mret false else can_undo E self);
  seller ← (if include_seller then query_seller_by_id (Product.seller_id self)
            else mret None);
  mret (ProductData.mk
          (uuid_str E (Product.id self)) (Product.name self)
          (Product.description self)
          (if price_truthy (Product.price self) then Product.price self else None)
          (Product.currency self) (Product.image_url self)
          (Product.is_active self) undoable
          ((fun s => ProductData.mk_seller (uuid_str E (Seller.id s))
                       (Seller.name s) (Seller.phone_number s)) <$> seller)).

Definition Seller_to_dict (self : Seller.t) : M SellerData.t :=
  owned ← gets (products_of (Seller.id self));
  mret (SellerData.mk
          (uuid_str E (Seller.id self)) (Seller.phone_number self)
          (Seller.name self) (Seller.catalog_slug self)
          (py "/catalog/" ++ Seller.catalog_slug self) (Seller.is_active self)
          (length (List.filter Product.is_active owned))).

(** *** [app/services/logging.py] *)

(** [get_seller_logs]; [limit] and [offset] are taken not to be negative. *)
Definition get_seller_logs (seller_id : N) (action_type : option pystr)
    (limit offset : nat) : M (list ActionLog.t) :=
  gets (fun w =>
    let query :=
      List.filter (fun l => bool_decide (ActionLog.seller_id l = Some seller_id))
                  (action_logs w) in
    let query :=
      match action_type with
      | Some ((_ :: _) as action_type) =>
          List.filter
            (fun l => py_eqb (action_name (ActionLog.action_type l)) action_type)
            query
      | _ => query
      end in
    take limit (drop offset (rev query))).

Definition get_product_logs (product_id : N) (limit : nat) : M (list ActionLog.t) :=
  gets (fun w =>
    take limit
      (rev (List.filter
              (fun l => bool_decide (ActionLog.product_id l = Some product_id))
              (action_logs w)))).

Definition log_error (error_message : pystr) (seller_id product_id : option N)
    (details : option (list (string * pyval))) : M (option ActionLog.t) :=
  let action_data := [("error"%string, VStr error_message)] in
  let action_data :=
    match details with
    | Some ((_ :: _) as details) => dict_update action_data details
    | _ => action_data
    end in
  log_action E ActionLog.ERROR_OCCURRED seller_id product_id None action_data None.

(** *** [app/main.py] *)

(** [global_exception_handler]: [exc] is [str(exc)]; the answer is the
    status with the two texts of the body. *)
Definition global_exception_handler (path method : pystr) (client : option pystr)
    (exc : pystr) : M (nat * pystr * pystr) :=
  log_error exc None None
    (Some [("path"%string, VStr path); ("method"%string, VStr method);
           ("client"%string, opt_str client)]);;
  mret (500%nat, py "Internal Server Error",
        py "An unexpected error occurred. Please try again later.").

(** *** [app/routers/sellers.py] *)

Definition get_seller_by_phone (phone_number : pystr) : M SellerData.t :=
  seller ← query_seller_by_phone phone_number;
  match seller with
  | None => raise seller_not_found
  | Some seller => Seller_to_dict seller
  end.

Definition get_seller (seller_id : N) : M SellerData.t :=
  seller ← query_seller_by_id seller_id;
  match seller with
  | None => raise seller_not_found
  | Some seller => Seller_to_dict seller
  end.

(** The row once the fields of [update] that are set have been written.
    [SellerUpdate] admits a name of at most 100 characters, the width of
    the column, so the store takes it as it is. *)
Definition apply_seller_update (update : SellerUpdate.t) (seller : Seller.t)
    : Seller.t :=
  Seller.mk (Seller.id seller) (Seller.phone_number seller)
    (match SellerUpdate.name update with
     | Some name => Some name
     | None => Seller.name seller
     end)
    (Seller.whatsapp_chat_id seller) (Seller.catalog_slug seller)
    (match SellerUpdate.is_active update with
     | Some is_active => is_active
     | None => Seller.is_active seller
     end).

(** [db.commit()] with [seller] modified. *)
Definition commit_seller (seller : Seller.t) : M unit :=
  modify (fun w =>
    with_sellers
      ((fun s => if Seller.id s =? Seller.id seller then seller else s)
         <$> sellers w)
      w).

Definition update_seller (seller_id : N) (update : SellerUpdate.t)
    : M SellerData.t :=
  seller ← query_seller_by_id seller_id;
  match seller with
  | None => raise seller_not_found
  | Some seller =>
      let seller := apply_seller_update update seller in
      commit_seller seller;;
      Seller_to_dict seller
  end.

(** [db.delete(seller); db.commit()].  The relationships [products] and
    [action_logs] of [Seller] cascade ["all, delete-orphan"]: the seller's
    products go as [delete_product] has it, then the audit rows that name
    the seller, then the seller. *)
Definition delete_seller_row (seller : Seller.t) : M unit :=
  owned ← gets (products_of (Seller.id seller));
  foldM (fun _ product => delete_product product) tt owned;;
  modify (fun w =>
    with_sellers
      (List.filter (fun s => negb (Seller.id s =? Seller.id seller)) (sellers w))
      (with_action_logs
         (List.filter
            (fun l => negb (bool_decide
                              (ActionLog.seller_id l = Some (Seller.id seller))))
            (action_logs w))
         w)).

Definition delete_seller (seller_id : N) : M SuccessResponse :=
  seller ← query_seller_by_id seller_id;
  match seller with
  | None => raise seller_not_found
  | Some seller =>
      delete_seller_row seller;;
      mret (Success (py "Seller deleted successfully"))
  end.

Definition get_catalog_link (seller_id : N) : M CatalogLink.t :=
  seller ← query_seller_by_id seller_id;
  match seller with
  | None => raise seller_not_found
  | Some seller =>
      let catalog_url := catalog_url_of E (Seller.catalog_slug seller) in
      mret (CatalogLink.mk catalog_url (Seller.catalog_slug seller))
  end.

(** *** [app/routers/products.py] *)

Definition get_product (product_id : N) : M ProductData.t :=
  product ← query_product product_id;
  match product with
  | None => raise product_not_found
  | Some product => Product_to_dict product false
  end.



Definition permanently_delete_product (product_id : N) : M SuccessResponse :=
  product ← query_product product_id;
  match product with
  | None => raise product_not_found
  | Some product =>
      remove_image E (Product.image_path product);;
      delete_product product;;
      mret (Success (py "Product permanently deleted"))
  end.

(** *** [app/routers/webhook.py] *)

(** [handle_interactive_message]: a value without [get] or [startswith]
    raises [AttributeError]. *)
Definition handle_interactive_message (phone_number : pystr)
    (parsed : list (pystr * json)) : M unit :=
  match dict_get (py "button_reply") (JDict []) parsed with
  | JDict button_reply =>
      match dict_get (py "id") (JStr []) button_reply with
      | JStr button_id =>
          if starts_with (py "confirm_add_") button_id then
            let product_id := str_remove (py "confirm_add_") button_id in
            confirm_product E product_id phone_number true
          else if starts_with (py "cancel_add_") button_id then
            let product_id := str_remove (py "cancel_add_") button_id in
            confirm_product E product_id phone_number false
          else mret tt
      | _ => raise AttributeError
      end
  | _ => raise AttributeError
  end.
End Endpoints.

(** *** The direct upload ([upload_product]) *)

Definition allowed_types : list pystr :=
  [py "image/jpeg"; py "image/jpg"; py "image/png"; py "image/webp"].

Definition allowed_extensions : list pystr :=
  [py ".jpg"; py ".jpeg"; py ".png"; py ".webp"].

Definition invalid_file_type : Exn :=
  HTTPException 400
    (py "Invalid file type. Allowed: image/jpeg, image/jpg, image/png, image/webp").

Section Upload.
Variable E : Env.
Variable lower : pystr -> pystr.        (* [str.lower] *)
Variable MAX_UPLOAD_SIZE : N.
Variable megabytes : pystr.             (* [MAX_UPLOAD_SIZE / 1024 / 1024], printed *)
Variable save : pystr -> saved.         (* [open] and [shutil.copyfileobj] *)

Definition file_too_large : Exn :=
  HTTPException 413 (py "File too large. Maximum size: " ++ megabytes ++ py "MB").

Definition upload_product (seller_id : N) (name : pystr)
    (description price : option pystr) (currency : pystr)
    (content_type : option pystr) (file_size : N) (filename : pystr)
    : M ProductData.t :=
  seller ← query_seller_by_id seller_id;
  match seller with
  | None => raise seller_not_found
  | Some _ =>
      if negb (match content_type with
               | Some content_type => bool_decide (content_type ∈ allowed_types)
               | None => false
               end)
      then raise invalid_file_type
      else if MAX_UPLOAD_SIZE <? file_size then raise file_too_large
      else
        let file_ext := lower (splitext_ext filename) in
        let file_ext :=
          if bool_decide (file_ext ∈ allowed_extensions) then file_ext
          else py ".jpg" in
        u ← uuid4 E;
        let unique_filename := uuid_str E u ++ file_ext in
        let file_path := path_join (UPLOAD_DIR E) unique_filename in
        match save file_path with
        | NotOpened e =>
            raise (HTTPException 500 (py "Failed to save image: " ++ e))
        | Incomplete e =>
            write_image file_path;;
            raise (HTTPException 500 (py "Failed to save image: " ++ e))
        | Saved =>
            write_image file_path;;
            let image_url := py "/uploads/" ++ unique_filename in
            product_id ← uuid4 E;
            let product :=
              Product.mk product_id seller_id name description price currency
                image_url file_path true None None in
            product ← add_product E product;
            log_action E ActionLog.PRODUCT_UPLOADED
              (Some seller_id) (Some (Product.id product)) None
              [("product_name"%string, VStr name); ("price"%string, opt_float price);
               ("currency"%string, VStr currency);
               ("image_filename"%string, VStr unique_filename)]
              None;;
            Product_to_dict E product false
        end
  end.
End Upload.

(** *** Listings in the order of [created_at] *)

Section Listings.
Variable E : Env.
(** [ORDER BY created_at DESC] *)
Variable newest_first : list Product.t -> list Product.t.
(** [str(product.price)], the stored [Numeric(12, 2)] printed *)
Variable price_text : pystr -> pystr.

Definition get_seller_products (seller_id : N) (include_inactive : bool)
    : M ProductListResponse.t :=
  seller ← query_seller_by_id seller_id;
  match seller with
  | None => raise seller_not_found
  | Some _ =>
      products ← gets (fun w =>
        let query := products_of seller_id w in
        let query :=
          if include_inactive then query else List.filter Product.is_active query in
        newest_first query);
      let active_count := length (List.filter Product.is_active products) in
      let removed_count := (length products - active_count)%nat in
      items ← mapM (fun p => Product_to_dict E p false) products;
      mret (ProductListResponse.mk items (length products) active_count
              removed_count)
  end.

(** *** [app/routers/catalog.py] *)

Definition interest_message (product : Product.t) : pystr :=
  let message := py "Hi! I'm interested in your product: " ++ Product.name product in
  let message :=
    match Product.price product with
    | Some price =>
        if price_truthy (Some price)
        then message ++ py " (priced at $" ++ price_text price ++ py ")"
        else message
    | None => message
    end in
  message ++ py ". Is it still available?".

(** The seller whose catalog a slug opens: [catalog_slug] and [is_active]. *)
Definition query_catalog_seller (catalog_slug : pystr) : M (option Seller.t) :=
  gets (fun w =>
    List.find
      (fun s => py_eqb (Seller.catalog_slug s) catalog_slug && Seller.is_active s)
      (sellers w)).

(** The product a buyer may see: [id], [seller_id] and [is_active]. *)
Definition query_catalog_product (product_id : N) (seller : Seller.t)
    : M (option Product.t) :=
  gets (fun w =>
    match products w !! product_id with
    | Some p =>
        if (Product.seller_id p =? Seller.id seller) && Product.is_active p
        then Some p else None
    | None => None
    end).

Definition catalog_entry (seller : Seller.t) (product : Product.t)
    : M CatalogProductResponse.t :=
  let message := interest_message product in
  whatsapp_link ← lift_outcome
    (generate_whatsapp_deep_link (Seller.phone_number seller) (Some message));
  mret (CatalogProductResponse.mk
          (Product.id product) (Product.name product) (Product.description product)
          (if price_truthy (Product.price product) then Product.price product
           else None)
          (Product.currency product) (Product.image_url product)
          (Seller.name seller) whatsapp_link).

Definition view_catalog (catalog_slug : pystr) : M CatalogResponse.t :=
  seller ← query_catalog_seller catalog_slug;
  match seller with
  | None => raise (HTTPException 404 (py "Catalog not found or unavailable"))
  | Some seller =>
      products ← gets (fun w =>
        newest_first
          (List.filter Product.is_active (products_of (Seller.id seller) w)));
      log_action E ActionLog.CATALOG_VIEWED (Some (Seller.id seller)) None None
        [("catalog_slug"%string, VStr catalog_slug);
         ("product_count"%string, VNat (length products))]
        None;;
      catalog_products ← mapM (catalog_entry seller) products;
      mret (CatalogResponse.mk (Seller.name seller) (Seller.phone_number seller)
              catalog_products (length catalog_products))
  end.

Definition view_product_detail (catalog_slug : pystr) (product_id : N)
    : M ProductDetail.t :=
  seller ← query_catalog_seller catalog_slug;
  match seller with
  | None => raise (HTTPException 404 (py "Catalog not found"))
  | Some seller =>
      product ← query_catalog_product product_id seller;
      match product with
      | None =>
          raise (HTTPException 404 (py "Product not found or no longer available"))
      | Some product =>
          let message := interest_message product in
          whatsapp_link ← lift_outcome
            (generate_whatsapp_deep_link (Seller.phone_number seller) (Some message));
          product_dict ← Product_to_dict E product false;
          mret (ProductDetail.mk product_dict (Seller.name seller)
                  (Seller.phone_number seller) whatsapp_link)
      end
  end.
End Listings.

(** ** Lifecycle states, as the columns encode them

    A row is ACTIVE when [is_active] holds; an inactive row is REMOVED when
    it carries an undo deadline and a DRAFT (an upload awaiting confirmation)
    when it does not.  DISCARDED and PURGED listings have no row. *)

Inductive State : Type := DRAFT | ACTIVE | REMOVED.

#[global] Instance State_eq_dec : EqDecision State.
Proof. solve_decision. Defined.

Definition state_of (p : Product.t) : State :=
  if Product.is_active p then ACTIVE
  else match Product.can_undo_until p with
       | Some _ => REMOVED
       | None => DRAFT
       end.

(** "[undoDeadline] is set if and only if the state is REMOVED; [removedAt]
    likewise". *)
Definition undo_fields_consistent (p : Product.t) : Prop :=
  (is_Some (Product.can_undo_until p) ↔ state_of p = REMOVED)
  ∧ (is_Some (Product.removed_at p) ↔ state_of p = REMOVED).

Definition store_consistent (w : World) : Prop :=
  ∀ i p, products w !! i = Some p → undo_fields_consistent p.

(** The audit records of the lifecycle, as opposed to those of message
    delivery, registration and errors. *)
Definition is_lifecycle (l : ActionLog.t) : bool :=
  match ActionLog.action_type l with
  | ActionLog.PRODUCT_UPLOADED | ActionLog.PRODUCT_CONFIRMED
  | ActionLog.PRODUCT_CANCELLED | ActionLog.PRODUCT_REMOVED
  | ActionLog.PRODUCT_RESTORED => true
  | _ => false
  end.

Definition lifecycle_logs (w : World) : list ActionLog.t :=
  List.filter is_lifecycle (action_logs w).

(** The world a result leaves behind, whether it returned or raised. *)
Definition world_after {A} (r : Res A) : option World :=
  match r with
  | Returns _ w | Raises _ w => Some w
  | Spins => None
  end.

(** The characters [secrets.choice] picks from position [pos] of the random
    source on, [n] of them. *)
Fixpoint drawn (E : Env) (pos n : nat) : pystr :=
  match n with
  | O => []
  | S k =>
      nth (randbelow_at E pos mod length slug_alphabet)%nat slug_alphabet 0
        :: drawn E (S pos) k
  end.

(** The [k]-th slug the loop tries when it starts in [w]. *)
Definition candidate (E : Env) (w : World) (k : nat) : pystr :=
  drawn E (draws w + 8 * k) 8.

Definition slug_free (w : World) (slug : pystr) : Prop :=
  List.find (fun s => py_eqb (Seller.catalog_slug s) slug) (sellers w) = None.

(** The loop is still running after any number of turns. *)
Definition spins_forever {A} (m : nat -> M A) (w : World) : Prop :=
  ∀ fuel, m fuel w = Spins.

(** ** A small concrete deployment, for examples *)

Module Demo.
Definition ana : Seller.t :=
  Seller.mk 1 (py "15551234567") None (Some (py "15551234567")) (py "abc12345") true.

Definition draft : Product.t :=
  Product.mk 10 1 (py "Red Shoes") (Some (py "Red Shoes $45.99"))
    (Some (py "45.99")) (py "USD") (py "/uploads/u10.jpg") (py "uploads/u10.jpg")
    false None None.

Definition active : Product.t :=
  Product.mk 11 1 (py "Blue Hat") None None (py "USD")
    (py "/uploads/u11.jpg") (py "uploads/u11.jpg") true None None.

Definition removed : Product.t :=
  Product.mk 12 1 (py "Old Lamp") None None (py "USD")
    (py "/uploads/u12.jpg") (py "uploads/u12.jpg")
    false (Some 1000%Z) (Some 30001000%Z).

Definition upload_logged (p : Product.t) : ActionLog.t :=
  ActionLog.mk ActionLog.PRODUCT_UPLOADED (Some (Product.seller_id p))
    (Some (Product.id p)) None [] None.

Definition world : World :=
  mkWorld [ana]
    (<[10 := draft]> (<[11 := active]> (<[12 := removed]> ∅)))
    ∅
    [upload_logged draft; upload_logged active; upload_logged removed]
    {[py "uploads/u10.jpg"; py "uploads/u11.jpg"; py "uploads/u12.jpg"]}
    [] [] 0 0 0 0 0.

(** A second seller, whose slug is eight times the first letter. *)
Definition bob : Seller.t :=
  Seller.mk 2 (py "15557654321") None (Some (py "15557654321")) (py "aaaaaaaa") true.

Definition crowded : World := with_sellers [ana; bob] world.

Definition parse_id (s : pystr) : option N :=
  if py_eqb s (py "10") then Some 10
  else if py_eqb s (py "11") then Some 11
  else if py_eqb s (py "12") then Some 12
  else None.

(** What the store [d] makes of a price read from a decimal text: the
    number to two places, which PostgreSQL refuses when it overflows. *)
Definition numeric (d : Dialect) (t : pystr) : option pystr :=
  match d with
  | PostgreSQL =>
      if numeric_12_2_bound <=? hundredths t then None
      else Some (numeric_text (hundredths t))
  | SQLite => Some (numeric_text (hundredths t))
  end.

(** The store is [d]; the clock starts at [t0] and advances one microsecond
    per reading; [audit] and [post] decide the fate of audit writes and of
    outbound messages; every random draw is [draw]. *)
Definition env (d : Dialect) (t0 : Z) (audit : nat -> bool)
    (post : nat -> outcome (option pystr)) (draw : nat -> nat) : Env :=
  mkEnv d (numeric d) (fun n => (t0 + Z.of_nat n)%Z) audit post draw
    (fun n => 100 + N.of_nat n)
    (fun i => py "https://media/" ++ i)
    (fun _ => Some (py "image/png"))
    (fun _ => true)
    parse_id
    (fun u => [0x30 + (u / 100) mod 10; 0x30 + (u / 10) mod 10; 0x30 + u mod 10])
    (py "uploads") (py "https://hustle.app/catalog") true.

Definition all_ok : Env :=
  env PostgreSQL 2000 (fun _ => true) (fun _ => Return (Some (py "wamid.1")))
    (fun n => n).

Definition audit_down : Env :=
  env PostgreSQL 2000 (fun _ => false) (fun _ => Return (Some (py "wamid.1")))
    (fun n => n).

(** A random source that keeps drawing the first letter. *)
Definition stuck : Env :=
  env PostgreSQL 2000 (fun _ => true) (fun _ => Return (Some (py "wamid.1")))
    (fun _ => O).

(** Forty seconds on. *)
Definition late : Env :=
  env PostgreSQL 40000000 (fun _ => true) (fun _ => Return (Some (py "wamid.1")))
    (fun n => n).

(** The same on SQLite. *)
Definition sqlite : Env :=
  env SQLite 2000 (fun _ => true) (fun _ => Return (Some (py "wamid.1")))
    (fun n => n).

Definition sqlite_late : Env :=
  env SQLite 40000000 (fun _ => true) (fun _ => Return (Some (py "wamid.1")))
    (fun n => n).

(** As [all_ok], with a request session that does not flush before a query. *)
Definition no_autoflush : Env :=
  mkEnv (dialect all_ok) (numeric_12_2 all_ok) (utcnow_at all_ok) (audit_commit_ok all_ok) (http_post_at all_ok)
    (randbelow_at all_ok) (uuid4_at all_ok) (media_url_of all_ok) (http_get all_ok)
    (unlink_ok all_ok) (UUID all_ok) (uuid_str all_ok) (UPLOAD_DIR all_ok)
    (CATALOG_BASE_URL all_ok) false.
End Demo.

(** * The vocabulary of the properties *)

(** ** How a handler ends *)

(** The handler comes to an end, returning or raising, in a world where [P]
    holds. *)
Definition ends_in {A} (r : Res A) (P : World -> Prop) : Prop :=
  ∃ w', world_after r = Some w' ∧ P w'.

(** If the handler comes to an end, [P] holds of the world it leaves. *)
Definition sat {A} (r : Res A) (P : World -> Prop) : Prop :=
  match r with
  | Returns _ w' | Raises _ w' => P w'
  | Spins => True
  end.

(** Wherever [m] starts, it ends (if it ends) in a world related to the
    start by [R]. *)
Definition keeps (R : World -> World -> Prop) {A} (m : M A) : Prop :=
  ∀ w, sat (m w) (R w).

(** ** The audit trail *)

(** The world after one call of [log_action] for the record [l]: the
    record is appended if the audit session commits, and the failure is
    printed if it does not. *)
Definition logged (E : Env) (l : ActionLog.t) (w : World) : World :=
  if audit_commit_ok E (log_writes w)
  then with_action_logs (action_logs w ++ [l]) (with_log_writes (S (log_writes w)) w)
  else with_stdout (stdout w ++ [DatabaseError]) (with_log_writes (S (log_writes w)) w).

(** The world after a call of [log_action] from a listener: the attempt is
    counted and its failure printed; nothing is recorded. *)
Definition refused (w : World) : World :=
  with_stdout (stdout w ++ [DatabaseError]) (with_log_writes (S (log_writes w)) w).

(** The records of [ls] that the audit session manages to commit, the
    first attempt being number [n]. *)
Fixpoint accepted (E : Env) (n : nat) (ls : list ActionLog.t) : list ActionLog.t :=
  match ls with
  | [] => []
  | l :: t => (if audit_commit_ok E n then [l] else []) ++ accepted E (S n) t
  end.

(** The record each transition asks [log_action] to write. *)
Definition confirmed_record (p : Product.t) : ActionLog.t :=
  ActionLog.mk ActionLog.PRODUCT_CONFIRMED
    (Some (Product.seller_id p)) (Some (Product.id p)) None
    [("product_name", VStr (Product.name p))] None.

Definition cancelled_record (seller : option Seller.t) (p : Product.t) : ActionLog.t :=
  ActionLog.mk ActionLog.PRODUCT_CANCELLED (Seller.id <$> seller) None None
    [("product_name", VStr (Product.name p))] None.

Definition removed_record (undo_window : Z) (p : Product.t) : ActionLog.t :=
  ActionLog.mk ActionLog.PRODUCT_REMOVED
    (Some (Product.seller_id p)) (Some (Product.id p)) None
    [("product_name", VStr (Product.name p)); ("undo_until", VInstant undo_window)]
    None.

Definition restored_record (p : Product.t) : ActionLog.t :=
  ActionLog.mk ActionLog.PRODUCT_RESTORED
    (Some (Product.seller_id p)) (Some (Product.id p)) None
    [("product_name", VStr (Product.name p))] None.




(** The audit rows that do not refer to listing [p] (or to an interest in it). *)
Definition unrelated_to (p : Product.t) (w : World) (l : ActionLog.t) : bool :=
  negb (log_refers_to (Product.id p) (interests w) l).


(** ** Message delivery *)

(** [w'] differs from [w] by message delivery only: messages sent, their
    audit records (none of a lifecycle kind), and lines printed. *)
Record delivery_only (w w' : World) : Prop := {
  dl_sellers : sellers w' = sellers w;
  dl_products : products w' = products w;
  dl_interests : interests w' = interests w;
  dl_uploads : uploads w' = uploads w;
  dl_ticks : ticks w' = ticks w;
  dl_draws : draws w' = draws w;
  dl_uuids : uuids w' = uuids w;
  dl_logs : ∃ l, action_logs w' = action_logs w ++ l
                 ∧ Forall (fun r => is_lifecycle r = false) l
}.

(** The handler comes to an end in a world that differs from [w] by message
    delivery only. *)
Definition delivers {A} (r : Res A) (w : World) : Prop :=
  match r with
  | Returns _ w' | Raises _ w' => delivery_only w w'
  | Spins => False
  end.

(** ** Confirm and cancel *)

(** The seller row the handlers find for a listing. *)
Definition owner_of (w : World) (p : Product.t) : option Seller.t :=
  List.find (fun s => Seller.id s =? Product.seller_id p) (sellers w).

(** The world once [confirm] has committed and recorded. *)
Definition after_confirm (E : Env) (p : Product.t) (w : World) : World :=
  logged E (confirmed_record p)
    (with_products (<[Product.id p := activate p]> (products w)) w).

Definition without_image (E : Env) (p : Product.t) (w : World) : World :=
  if unlink_ok E (Product.image_path p)
  then with_uploads (uploads w ∖ {[Product.image_path p]}) w
  else w.

Definition without_product (p : Product.t) (w : World) : World :=
  with_products (delete (Product.id p) (products w))
    (with_interests
       (filter (fun kv => Interest.product_id kv.2 ≠ Product.id p) (interests w))
       (with_action_logs
          (List.filter
             (fun l => negb (log_refers_to (Product.id p) (interests w) l))
             (action_logs w))
          w)).

(** The world once [cancel] has deleted and recorded. *)
Definition after_cancel (E : Env) (p : Product.t) (w : World) : World :=
  logged E (cancelled_record (owner_of w p) p)
    (without_product p (without_image E p w)).

(** Effects on the store of listings and on the image files. *)
Definition confirm_effect (i : N) (p : Product.t) (w w' : World) : Prop :=
  products w' = <[i := activate p]> (products w) ∧ uploads w' = uploads w.

Definition cancel_effect (E : Env) (i : N) (p : Product.t) (w w' : World) : Prop :=
  products w' = delete i (products w)
  ∧ uploads w' = (if unlink_ok E (Product.image_path p)
                  then uploads w ∖ {[Product.image_path p]} else uploads w).

Definition no_effect (w w' : World) : Prop :=
  products w' = products w ∧ uploads w' = uploads w.

(** ** Remove *)

(** The requested listings that are active, in the order requested. *)
Definition hit (rows : gmap N Product.t) (i : N) : option (N * Product.t) :=
  match rows !! i with
  | Some p => if Product.is_active p then Some (i, p) else None
  | None => None
  end.

Definition hits (rows : gmap N Product.t) (ids : list N) : list (N * Product.t) :=
  omap (hit rows) ids.

(** The world after the loop has dealt with [hs]: a clock reading and an
    audit write for each. *)
Fixpoint after_removals (E : Env) (undo_window : Z) (hs : list (N * Product.t))
    (w : World) : World :=
  match hs with
  | [] => w
  | (_, p) :: t =>
      after_removals E undo_window t
        (logged E (removed_record undo_window p) (with_ticks (S (ticks w)) w))
  end.

(** The rows the session holds after the loop has dealt with [hs], the
    first clock reading being number [tick]. *)
Fixpoint stamp_all (E : Env) (undo_window : Z) (hs : list (N * Product.t))
    (tick : nat) (pending : gmap N Product.t) : gmap N Product.t :=
  match hs with
  | [] => pending
  | (i, p) :: t =>
      stamp_all E undo_window t (S tick)
        (<[i := soft_remove (utcnow_at E tick) undo_window p]> pending)
  end.

(** A row as [remove] leaves it. *)
Definition removed_shaped (p : Product.t) : Prop :=
  Product.is_active p = false
  ∧ is_Some (Product.removed_at p) ∧ is_Some (Product.can_undo_until p).

Definition pending_removed (pending : gmap N Product.t) : Prop :=
  ∀ i p, pending !! i = Some p → removed_shaped p.

(** ** Restore *)

(** The world once [restore] has committed and recorded. *)
Definition after_restore (E : Env) (p : Product.t) (w : World) : World :=
  logged E (restored_record p)
    (with_products (<[Product.id p := reinstate p]> (products w))
       (with_ticks (S (ticks w)) w)).

Definition not_found_or_active : Exn :=
  HTTPException 404 (py "Product not found or already active").

Definition undo_window_expired : Exn :=
  HTTPException 410 (py "Undo window has expired (30 seconds passed)").

(** ** Intake *)

Definition same_products (w w' : World) : Prop := products w' = products w.

(** Rows are only added, and every added row is a draft without undo
    timestamps. *)
Definition drafts_added (w w' : World) : Prop :=
  products w ⊆ products w'
  ∧ ∀ i p, products w' !! i = Some p → products w !! i = None →
      Product.is_active p = false
      ∧ Product.removed_at p = None ∧ Product.can_undo_until p = None.

#[global] Instance undo_fields_consistent_dec p : Decision (undo_fields_consistent p).
Proof. unfold undo_fields_consistent. apply _. Defined.

(** ** Independence of the audit store *)

(** The environment [E] with another audit store. *)
Definition with_audit (audit : nat -> bool) (E : Env) : Env :=
  mkEnv (dialect E) (numeric_12_2 E) (utcnow_at E) audit (http_post_at E) (randbelow_at E) (uuid4_at E)
    (media_url_of E) (http_get E) (unlink_ok E) (UUID E) (uuid_str E)
    (UPLOAD_DIR E) (CATALOG_BASE_URL E) (autoflush E).

(** Two worlds that agree on everything but the audit trail, its write
    counter and the printed lines. *)
Record business_eq (w1 w2 : World) : Prop := {
  be_sellers : sellers w1 = sellers w2;
  be_products : products w1 = products w2;
  be_interests : interests w1 = interests w2;
  be_uploads : uploads w1 = uploads w2;
  be_outbox : outbox w1 = outbox w2;
  be_ticks : ticks w1 = ticks w2;
  be_http_posts : http_posts w1 = http_posts w2;
  be_draws : draws w1 = draws w2;
  be_uuids : uuids w1 = uuids w2
}.

(** Two results with the same outcome and the same business state. *)
Definition res_eq {A} (r1 r2 : Res A) : Prop :=
  match r1, r2 with
  | Returns a1 w1, Returns a2 w2 => a1 = a2 ∧ business_eq w1 w2
  | Raises e1 w1, Raises e2 w2 => e1 = e2 ∧ business_eq w1 w2
  | Spins, Spins => True
  | _, _ => False
  end.

(** Started in worlds with the same business state, [m1] and [m2] end alike. *)
Definition indep {A} (m1 m2 : M A) : Prop :=
  ∀ w1 w2, business_eq w1 w2 → res_eq (m1 w1) (m2 w2).

(** ** Deep links *)

(** Percent-decoding, to say what "url-encoded" means: [%XY] stands for the
    byte with hexadecimal digits [X] and [Y], any other character for
    itself. *)
Definition hex_value (c : N) : N :=
  if (0x30 <=? c) && (c <=? 0x39) then c - 0x30 else c - 0x41 + 10.

Fixpoint unquote_from (skip : nat) (s : pystr) : list N :=
  match s with
  | [] => []
  | c :: t =>
      match skip with
      | S n => unquote_from n t
      | O =>
          if c =? 0x25 then
            match t with
            | x :: y :: _ => 16 * hex_value x + hex_value y :: unquote_from 2 t
            | _ => c :: unquote_from 0 t
            end
          else c :: unquote_from 0 t
      end
  end.

Definition unquote_to_bytes (s : pystr) : list N := unquote_from 0 s.

(** ** Captions, in the words of the specification *)

(** Where the price token that starts at the head of [inp] ends: after its
    digits, and after a dot with two digits if they follow. *)
Definition price_token_end (inp : pystr) : pystr :=
  match drop_while is_decimal inp with
  | d :: a :: b :: rest =>
      if is_dot d && is_decimal a && is_decimal b then rest
      else drop_while is_decimal inp
  | rest => rest
  end.

(** The text of that token. *)
Definition price_token (inp : pystr) : pystr :=
  match drop_while is_decimal inp with
  | d :: a :: b :: _ =>
      if is_dot d && is_decimal a && is_decimal b
      then take_while is_decimal inp ++ [d; a; b]
      else take_while is_decimal inp
  | _ => take_while is_decimal inp
  end.

Definition head_is_decimal (inp : pystr) : bool :=
  match inp with
  | d :: _ => is_decimal d
  | [] => false
  end.

(** The first price-like token of the caption: where it starts (at the
    currency symbol if there is one) and its numeric text. *)
Fixpoint first_price (pos : nat) (inp : pystr) : option (nat * pystr) :=
  match inp with
  | [] => None
  | c :: t =>
      if is_currency c && head_is_decimal t then Some (pos, price_token t)
      else if is_decimal c then Some (pos, price_token inp)
      else first_price (S pos) t
  end.

(** What a match of the price pattern says to the caller. *)
Definition found (m : Match) : nat * option pystr := (m_start m, m_group1 m).

(** Deleting the one separator that ends the string (or stands before its
    final newline). *)
Fixpoint drop_final_separator (s : pystr) : pystr :=
  match s with
  | [] => []
  | c :: t => if is_separator c && at_eol t then t else c :: drop_final_separator t
  end.

(** ** The vocabulary of the further properties *)

(** The characters of a percent-encoded text: those [quote] leaves alone,
    and the percent sign. *)
Definition url_char (c : N) : bool := quote_safe c || (c =? 0x25).

(** The code points UTF-8 can encode: all but the surrogates. *)
Definition encodable (c : N) : bool :=
  negb ((0xD800 <=? c) && (c <=? 0xDFFF)) && (c <? 0x110000).


(** The parsed form of a click on the reply button with id [b]. *)
Definition button_click (b : pystr) : list (pystr * json) :=
  [(py "type", JStr (py "interactive"));
   (py "button_reply", JDict [(py "id", JStr b); (py "title", JStr [])])].

(** The two buttons under an upload confirmation for listing [product_id]. *)
Definition add_button (E : Env) (product_id : N) : pystr :=
  py "confirm_add_" ++ uuid_str E product_id.

Definition cancel_button (E : Env) (product_id : N) : pystr :=
  py "cancel_add_" ++ uuid_str E product_id.


(** A deployment as [Demo.all_ok] in which [uuid.UUID] reads back what
    [str] prints: three decimal digits. *)
Module Stall.
Definition parse_uuid (s : pystr) : option N :=
  match s with
  | [a; b; c] =>
      if forallb (fun d => (0x30 <=? d) && (d <=? 0x39)) s
      then Some (100 * (a - 0x30) + 10 * (b - 0x30) + (c - 0x30))
      else None
  | _ => None
  end.

Definition env : Env :=
  mkEnv (dialect Demo.all_ok) (numeric_12_2 Demo.all_ok)
    (utcnow_at Demo.all_ok) (audit_commit_ok Demo.all_ok)
    (http_post_at Demo.all_ok) (randbelow_at Demo.all_ok) (uuid4_at Demo.all_ok)
    (media_url_of Demo.all_ok) (http_get Demo.all_ok) (unlink_ok Demo.all_ok)
    parse_uuid (uuid_str Demo.all_ok) (UPLOAD_DIR Demo.all_ok)
    (CATALOG_BASE_URL Demo.all_ok) true.
End Stall.


(** What [Product.to_dict] makes of a row, given the answer of [can_undo]
    and the seller loaded. *)
Definition product_data (E : Env) (p : Product.t) (undoable : bool)
    (seller : option Seller.t) : ProductData.t :=
  ProductData.mk
    (uuid_str E (Product.id p)) (Product.name p) (Product.description p)
    (if price_truthy (Product.price p) then Product.price p else None)
    (Product.currency p) (Product.image_url p) (Product.is_active p) undoable
    ((fun s => ProductData.mk_seller (uuid_str E (Seller.id s))
                 (Seller.name s) (Seller.phone_number s)) <$> seller).


(** Every row of [products] sits under its own [id], as a primary key has it. *)
Definition keyed (w : World) : Prop :=
  ∀ i p, products w !! i = Some p → Product.id p = i.

(** The world once the listings [ps] have been deleted, one after the other. *)
Fixpoint without_products (ps : list Product.t) (w : World) : World :=
  match ps with
  | [] => w
  | p :: t => without_products t (without_product p w)
  end.


(** The seller a catalog slug opens, if any. *)
Definition catalog_owner (slug : pystr) (w : World) : option Seller.t :=
  List.find (fun s => py_eqb (Seller.catalog_slug s) slug && Seller.is_active s)
            (sellers w).

Definition catalog_not_found : Exn := HTTPException 404 (py "Catalog not found").

Definition catalog_unavailable : Exn :=
  HTTPException 404 (py "Catalog not found or unavailable").

Definition product_unavailable : Exn :=
  HTTPException 404 (py "Product not found or no longer available").

(** A deep link with a text: the number, then the quoted text. *)
Definition link_with_text (phone_number : pystr) (link : pystr) : Prop :=
  ∃ quoted,
    link = py "https://wa.me/" ++ _format_phone_number phone_number
           ++ py "?text=" ++ quoted
    ∧ Forall (fun c => url_char c = true) quoted.

(** The record of a catalog view. *)
Definition viewed_record (s : Seller.t) (slug : pystr) (count : nat) : ActionLog.t :=
  ActionLog.mk ActionLog.CATALOG_VIEWED (Some (Seller.id s)) None None
    [("catalog_slug"%string, VStr slug); ("product_count"%string, VNat count)] None.


(** How an entry of the catalog answers for a row. *)
Definition shows (s : Seller.t) (p : Product.t) (c : CatalogProductResponse.t) : Prop :=
  CatalogProductResponse.id c = Product.id p
  ∧ CatalogProductResponse.name c = Product.name p
  ∧ CatalogProductResponse.image_url c = Product.image_url p
  ∧ CatalogProductResponse.seller_name c = Seller.name s
  ∧ link_with_text (Seller.phone_number s) (CatalogProductResponse.whatsapp_link c).


(** The records [get_seller_logs] pages through, oldest first. *)
Definition seller_trail (seller_id : N) (action_type : option pystr) (w : World)
    : list ActionLog.t :=
  let mine :=
    List.filter (fun l => bool_decide (ActionLog.seller_id l = Some seller_id))
                (action_logs w) in
  match action_type with
  | Some (c :: t) =>
      List.filter
        (fun l => py_eqb (action_name (ActionLog.action_type l)) (c :: t)) mine
  | _ => mine
  end.


(** The record [upload_product] asks for itself. *)
Definition uploaded_record (p : Product.t) (unique_filename : pystr) : ActionLog.t :=
  ActionLog.mk ActionLog.PRODUCT_UPLOADED
    (Some (Product.seller_id p)) (Some (Product.id p)) None
    [("product_name"%string, VStr (Product.name p));
     ("price"%string, opt_float (Product.price p));
     ("currency"%string, VStr (Product.currency p));
     ("image_filename"%string, VStr unique_filename)] None.

(** A deployment for the direct upload: [lower] as on ASCII letters, ten
    megabytes, and a disk that takes every file. *)
Module Desk.
Definition lower (s : pystr) : pystr :=
  (fun c => if (0x41 <=? c) && (c <=? 0x5A) then c + 0x20 else c) <$> s.
Definition MAX_UPLOAD_SIZE : N := 10485760.
Definition megabytes : pystr := py "10.0".
Definition save (path : pystr) : saved := Saved.
End Desk.


(** What buyers can see is the same in [w'] as in [w]: the two have the
    same active rows. *)
Definition same_active (w w' : World) : Prop :=
  ∀ i p, Product.is_active p = true →
    (products w' !! i = Some p ↔ products w !! i = Some p).

(** Listings and image files are the same in [w'] as in [w]. *)
Definition same_stock (w w' : World) : Prop :=
  products w' = products w ∧ uploads w' = uploads w.

(** A listing of the seller's products that meets a REMOVED row read back
    from PostgreSQL: [to_dict] then compares the row's aware deadline with
    the naive reading of the clock. *)
Definition compares_deadline (E : Env) (seller_id : N) (include_inactive : bool)
    (w : World) : Prop :=
  dialect E = PostgreSQL ∧ include_inactive = true
  ∧ ∃ p, p ∈ products_of seller_id w ∧ state_of p = REMOVED.

(** * Properties *)

(** ** Running a handler by hand *)

Lemma bind_returns {A B} (m : M A) (f : A -> M B) w a w' :
  m w = Returns a w' → (m ≫= f) w = f a w'.
Proof. intros H. unfold mbind, M_bind. by rewrite H. Qed.

Lemma bind_spins {A B} (m : M A) (f : A -> M B) w :
  m w = Spins → (m ≫= f) w = Spins.
Proof. intros H. unfold mbind, M_bind. by rewrite H. Qed.

Lemma bind_returns_inv {A B} (m : M A) (f : A -> M B) w b w' :
  (m ≫= f) w = Returns b w' → ∃ a w1, m w = Returns a w1 ∧ f a w1 = Returns b w'.
Proof.
  unfold mbind, M_bind. destruct (m w) as [a w1 | |]; [| done | done]. eauto.
Qed.

Lemma bind_raises_cases {A B} (m : M A) (f : A -> M B) w e w' :
  (m ≫= f) w = Raises e w' →
  m w = Raises e w' ∨ ∃ a w1, m w = Returns a w1 ∧ f a w1 = Raises e w'.
Proof.
  unfold mbind, M_bind. destruct (m w) as [a w1 | e1 w1 |]; [| | done].
  - intros H. right. by exists a, w1.
  - intros [= -> ->]. by left.
Qed.

(** ** The audit recorder *)

Lemma log_action_runs E a s p i d m w :
  log_action E a s p i d m w =
    Returns (if audit_commit_ok E (log_writes w)
             then Some (ActionLog.mk a s p i d m) else None)
            (logged E (ActionLog.mk a s p i d m) w).
Proof.
  unfold log_action, log_action_with, logged, try_except, audit_commit, mbind, M_bind.
  destruct (audit_commit_ok E (log_writes w)); reflexivity.
Qed.

Lemma log_action_in_flush_runs a s p i d m w :
  log_action_with audit_commit_in_flush a s p i d m w = Returns None (refused w).
Proof. reflexivity. Qed.

(** ** What the store makes of a row *)

Lemma varchar_fits d n s : (length s ≤ n)%nat → varchar d n s = Some s.
Proof.
  intros H. unfold varchar. destruct d; [| done].
  by rewrite (proj2 (Nat.leb_le _ _) H).
Qed.

Lemma varchar_SQLite n s : varchar SQLite n s = Some s.
Proof. reflexivity. Qed.

Lemma varchar_length d n s t :
  d = PostgreSQL → varchar d n s = Some t → (length t ≤ n)%nat.
Proof.
  intros -> H. unfold varchar in H.
  destruct (length s <=? n)%nat eqn:Hl.
  - injection H as <-. by apply Nat.leb_le.
  - destruct (forallb _ _); [| done]. injection H as <-.
    rewrite length_take. lia.
Qed.

Lemma stored_product_fields E p row :
  stored_product E p = Some row →
  Product.id row = Product.id p
  ∧ Product.seller_id row = Product.seller_id p
  ∧ Product.description row = Product.description p
  ∧ Product.is_active row = Product.is_active p
  ∧ Product.removed_at row = Product.removed_at p
  ∧ Product.can_undo_until row = Product.can_undo_until p.
Proof.
  unfold stored_product. intros H.
  destruct (varchar _ 200 _); [| done]. cbn in H.
  destruct (match Product.price p with Some _ => _ | None => _ end); [| done].
  cbn in H.
  destruct (varchar _ 3 _); [| done]. cbn in H.
  destruct (varchar _ 500 (Product.image_url p)); [| done]. cbn in H.
  destruct (varchar _ 500 (Product.image_path p)); [| done]. cbn in H.
  by injection H as <-.
Qed.

Lemma stored_product_columns E p row :
  stored_product E p = Some row →
  varchar (dialect E) 200 (Product.name p) = Some (Product.name row)
  ∧ match Product.price p with
    | Some price => numeric_12_2 E price = Product.price row
                    ∧ Product.price row ≠ None
    | None => Product.price row = None
    end
  ∧ varchar (dialect E) 3 (Product.currency p) = Some (Product.currency row)
  ∧ varchar (dialect E) 500 (Product.image_url p) = Some (Product.image_url row)
  ∧ varchar (dialect E) 500 (Product.image_path p) = Some (Product.image_path row).
Proof.
  unfold stored_product. intros H.
  destruct (varchar _ 200 _); [| done]. cbn in H.
  destruct (match Product.price p with Some _ => _ | None => _ end) as [price' |]
    eqn:Hprice; [| done].
  cbn in H.
  destruct (varchar _ 3 _); [| done]. cbn in H.
  destruct (varchar _ 500 (Product.image_url p)); [| done]. cbn in H.
  destruct (varchar _ 500 (Product.image_path p)); [| done]. cbn in H.
  injection H as <-. cbn. repeat split; try done.
  destruct (Product.price p) as [t |].
  - destruct (numeric_12_2 E t); [| done]. cbn in Hprice. by injection Hprice as <-.
  - by injection Hprice as <-.
Qed.

Lemma stored_seller_fields E s row :
  stored_seller E s = Some row →
  Seller.id row = Seller.id s
  ∧ Seller.is_active row = Seller.is_active s
  ∧ varchar (dialect E) 20 (Seller.phone_number s) = Some (Seller.phone_number row)
  ∧ varchar_null (dialect E) 100 (Seller.name s) = Some (Seller.name row)
  ∧ varchar_null (dialect E) 100 (Seller.whatsapp_chat_id s)
    = Some (Seller.whatsapp_chat_id row)
  ∧ varchar (dialect E) 50 (Seller.catalog_slug s) = Some (Seller.catalog_slug row).
Proof.
  unfold stored_seller. intros H.
  destruct (varchar _ 20 _); [| done]. cbn in H.
  destruct (varchar_null _ 100 (Seller.name s)); [| done]. cbn in H.
  destruct (varchar_null _ 100 (Seller.whatsapp_chat_id s)); [| done]. cbn in H.
  destruct (varchar _ 50 _); [| done]. cbn in H.
  by injection H as <-.
Qed.

Lemma add_product_runs E p w :
  add_product E p w
  = match stored_product E p with
    | None => Raises DataError w
    | Some row =>
        match products w !! Product.id p with
        | Some _ => Raises IntegrityError w
        | None =>
            Returns row
              (refused (with_products (<[Product.id row := row]> (products w)) w))
        end
    end.
Proof.
  unfold add_product. destruct (stored_product E p) as [row |]; [| done].
  unfold log_product_insert, query_product, gets, modify, mbind, M_bind, mret, M_ret.
  cbn beta iota. by destruct (products w !! Product.id p).
Qed.

Lemma add_seller_runs E s w :
  add_seller E s w
  = match stored_seller E s with
    | None => Raises DataError w
    | Some row =>
        if existsb (seller_conflicts row) (sellers w)
        then Raises IntegrityError w
        else Returns row (with_sellers (sellers w ++ [row]) w)
    end.
Proof. reflexivity. Qed.

Ltac run :=
  repeat (progress (unfold mbind, M_bind, mret, M_ret, raise, spin, gets, modify,
                      query_product, query_seller_by_id, query_seller_by_phone,
                      query_seller_by_slug, commit_product, log_product_update,
                      remove_image, write_image, delete_product, utcnow, uuid4;
                    cbn beta iota)).

(** ** Outbound messages leave the catalog alone *)

Lemma delivery_only_refl w : delivery_only w w.
Proof.
  split; try reflexivity. exists []. split; [by rewrite app_nil_r | constructor].
Qed.

Lemma delivery_only_trans w1 w2 w3 :
  delivery_only w1 w2 → delivery_only w2 w3 → delivery_only w1 w3.
Proof.
  intros [? ? ? ? ? ? ? (l1 & H1 & F1)] [? ? ? ? ? ? ? (l2 & H2 & F2)].
  split; try congruence.
  exists (l1 ++ l2). split.
  - rewrite H2, H1. by rewrite app_assoc.
  - by apply Forall_app.
Qed.

Lemma delivery_only_logged E l w :
  is_lifecycle l = false → delivery_only w (logged E l w).
Proof.
  intros Hl. unfold logged.
  destruct (audit_commit_ok E (log_writes w)); split; try reflexivity; cbn.
  - exists [l]. split; [done | by constructor].
  - exists []. split; [by rewrite app_nil_r | constructor].
Qed.

Lemma delivery_only_posted w n o :
  delivery_only w (with_outbox o (with_http_posts n w)).
Proof. split; try reflexivity. exists []. split; [by rewrite app_nil_r | constructor]. Qed.

Lemma delivery_only_post_failed w n :
  delivery_only w (with_http_posts n w).
Proof. split; try reflexivity. exists []. split; [by rewrite app_nil_r | constructor]. Qed.

Lemma send_text_message_delivers E to n w :
  delivers (send_text_message E to n w) w.
Proof.
  unfold send_text_message, try_except_http, http_post. run.
  destruct (http_post_at E (http_posts w)) as [mid | e]; cbn.
  - rewrite log_action_runs. cbn.
    eapply delivery_only_trans; [apply delivery_only_posted |].
    by apply delivery_only_logged.
  - destruct e; cbn; try apply delivery_only_post_failed.
    rewrite log_action_runs. cbn.
    eapply delivery_only_trans; [apply delivery_only_post_failed |].
    by apply delivery_only_logged.
Qed.

Lemma send_image_message_delivers E to u c w :
  delivers (send_image_message E to u c w) w.
Proof.
  unfold send_image_message, try_except_http, http_post. run.
  destruct (http_post_at E (http_posts w)) as [mid | e]; cbn.
  - rewrite log_action_runs. cbn.
    eapply delivery_only_trans; [apply delivery_only_posted |].
    by apply delivery_only_logged.
  - destruct e; cbn; apply delivery_only_post_failed.
Qed.

Lemma send_interactive_buttons_delivers E to n bs w :
  delivers (send_interactive_buttons E to n bs w) w.
Proof.
  unfold send_interactive_buttons, try_except_http, http_post. run.
  destruct (http_post_at E (http_posts w)) as [mid | e]; cbn.
  - rewrite log_action_runs. cbn.
    eapply delivery_only_trans; [apply delivery_only_posted |].
    by apply delivery_only_logged.
  - destruct e; cbn; apply delivery_only_post_failed.
Qed.

Lemma send_upload_confirmation_delivers E to n i u p w :
  delivers (send_upload_confirmation E to n i u p w) w.
Proof.
  unfold send_upload_confirmation. run.
  pose proof (send_image_message_delivers E to u (Some (UploadCaption n p)) w) as H1.
  destruct (send_image_message E to u (Some (UploadCaption n p)) w) as [b w1 | e w1 |];
    cbn in *; [| done | done].
  destruct b; cbn; [| done].
  match goal with |- delivers (send_interactive_buttons ?E ?t ?m ?b ?w) _ =>
    pose proof (send_interactive_buttons_delivers E t m b w) as H2;
    destruct (send_interactive_buttons E t m b w); cbn in *
  end; try done; by eapply delivery_only_trans.
Qed.

(** ** Confirming and cancelling *)

Lemma confirm_product_upload_missing E i c w :
  products w !! i = None →
  confirm_product_upload E i c w =
    Raises (HTTPException 404 (py "Product not found")) w.
Proof. intros Hi. unfold confirm_product_upload. run. by rewrite Hi. Qed.

Lemma confirm_product_upload_confirms E i p w :
  products w !! i = Some p →
  delivers (confirm_product_upload E i true w) (after_confirm E p w).
Proof.
  intros Hi. unfold confirm_product_upload. run. rewrite Hi. cbn.
  rewrite log_action_runs. cbn. fold (after_confirm E p w).
  replace (List.find _ (sellers w)) with (owner_of w p) by reflexivity.
  destruct (owner_of w p) as [s |]; cbn; [| apply delivery_only_refl].
  unfold send_product_added_confirmation.
  match goal with |- context [send_text_message ?E ?t ?n ?w] =>
    pose proof (send_text_message_delivers E t n w) as H;
    destruct (send_text_message E t n w)
  end; cbn in *; done.
Qed.

Lemma confirm_product_upload_cancels E i p w :
  products w !! i = Some p →
  confirm_product_upload E i false w = Returns UploadCancelledOK (after_cancel E p w).
Proof.
  intros Hi. unfold confirm_product_upload. run. rewrite Hi. cbn.
  rewrite log_action_runs. cbn. unfold after_cancel, without_image, without_product.
  unfold owner_of. by destruct (unlink_ok E (Product.image_path p)).
Qed.

Lemma confirm_product_invalid E s phone c w :
  UUID E s = None → delivers (confirm_product E s phone c w) w.
Proof.
  intros Hs. unfold confirm_product. rewrite Hs. run.
  pose proof (send_text_message_delivers E phone InvalidProductId w) as H.
  by destruct (send_text_message E phone InvalidProductId w).
Qed.

Lemma confirm_product_missing E s i phone c w :
  UUID E s = Some i → products w !! i = None →
  delivers (confirm_product E s phone c w) w.
Proof.
  intros Hs Hi. unfold confirm_product. rewrite Hs. run. rewrite Hi.
  pose proof (send_text_message_delivers E phone ProductNotFound w) as H.
  by destruct (send_text_message E phone ProductNotFound w).
Qed.

Lemma confirm_product_confirms E s i phone p w :
  UUID E s = Some i → products w !! i = Some p →
  delivers (confirm_product E s phone true w) (after_confirm E p w).
Proof.
  intros Hs Hi. unfold confirm_product. rewrite Hs. run. rewrite Hi. cbn.
  rewrite log_action_runs. cbn. fold (after_confirm E p w).
  replace (List.find _ (sellers w)) with (owner_of w p) by reflexivity.
  destruct (owner_of w p) as [sl |]; cbn; [| apply delivery_only_refl].
  unfold send_product_added_confirmation.
  match goal with |- context [send_text_message ?E ?t ?n ?w] =>
    pose proof (send_text_message_delivers E t n w) as H;
    destruct (send_text_message E t n w)
  end; cbn in *; done.
Qed.

Lemma confirm_product_cancels E s i phone p w :
  UUID E s = Some i → products w !! i = Some p →
  delivers (confirm_product E s phone false w) (after_cancel E p w).
Proof.
  intros Hs Hi. unfold confirm_product. rewrite Hs. run. rewrite Hi. cbn.
  rewrite log_action_runs. cbn.
  replace (List.find _ (sellers w)) with (owner_of w p) by reflexivity.
  assert (Hw : logged E (cancelled_record (owner_of w p) p)
                 (without_product p (without_image E p w)) = after_cancel E p w)
    by reflexivity.
  unfold without_image, without_product in Hw.
  destruct (unlink_ok E (Product.image_path p)); cbn in Hw |- *;
    unfold cancelled_record in Hw; rewrite Hw;
    match goal with |- context [send_text_message ?E ?t ?n ?w] =>
      pose proof (send_text_message_delivers E t n w) as H;
      destruct (send_text_message E t n w)
    end; cbn in *; done.
Qed.

Lemma delivers_ends_in {A} (r : Res A) w0 (P : World -> Prop) :
  delivers r w0 → (∀ w', delivery_only w0 w' → P w') → ends_in r P.
Proof.
  intros Hr HP. destruct r as [a w' | e w' |]; cbn in Hr; [| | done];
    exists w'; split; try reflexivity; by apply HP.
Qed.

Lemma products_logged E l w : products (logged E l w) = products w.
Proof. unfold logged. by destruct (audit_commit_ok E _). Qed.

Lemma uploads_logged E l w : uploads (logged E l w) = uploads w.
Proof. unfold logged. by destruct (audit_commit_ok E _). Qed.

Lemma sellers_logged E l w : sellers (logged E l w) = sellers w.
Proof. unfold logged. by destruct (audit_commit_ok E _). Qed.

Lemma products_without_image E p w : products (without_image E p w) = products w.
Proof. unfold without_image. by destruct (unlink_ok E _). Qed.

Lemma after_confirm_effect E p w w' :
  delivery_only (after_confirm E p w) w' → confirm_effect (Product.id p) p w w'.
Proof.
  intros H. split.
  - rewrite (dl_products _ _ H). unfold after_confirm. by rewrite products_logged.
  - rewrite (dl_uploads _ _ H). unfold after_confirm. by rewrite uploads_logged.
Qed.

Lemma after_cancel_effect E p w w' :
  delivery_only (after_cancel E p w) w' → cancel_effect E (Product.id p) p w w'.
Proof.
  intros H. split.
  - rewrite (dl_products _ _ H). unfold after_cancel. rewrite products_logged.
    cbn. by rewrite products_without_image.
  - rewrite (dl_uploads _ _ H). unfold after_cancel. rewrite uploads_logged.
    cbn. unfold without_image. by destruct (unlink_ok E _).
Qed.

Lemma delivery_no_effect w w' : delivery_only w w' → no_effect w w'.
Proof. intros H. split; [apply (dl_products _ _ H) | apply (dl_uploads _ _ H)]. Qed.

(** C2, as the code has it.  Confirm and cancel require that the listing
    exists, and nothing of its state.  On an existing listing, whatever its
    state, confirm marks the row active (a draft becomes ACTIVE) and cancel
    deletes the row and, if the file system lets it, the image; this holds
    of the HTTP endpoint and of the button handler alike.  On a listing that
    does not exist neither touches rows or images. *)
Theorem confirm_cancel_check_existence_only (E : Env) (w : World) (i : N) :
  match products w !! i with
  | Some p =>
      Product.id p = i →
      state_of (activate p) = ACTIVE
      ∧ ends_in (confirm_product_upload E i true w) (confirm_effect i p w)
      ∧ ends_in (confirm_product_upload E i false w) (cancel_effect E i p w)
      ∧ ∀ s phone, UUID E s = Some i →
          ends_in (confirm_product E s phone true w) (confirm_effect i p w)
          ∧ ends_in (confirm_product E s phone false w) (cancel_effect E i p w)
  | None =>
      ∀ c, ends_in (confirm_product_upload E i c w) (no_effect w)
           ∧ ∀ s phone, UUID E s = Some i →
               ends_in (confirm_product E s phone c w) (no_effect w)
  end.
Proof.
  destruct (products w !! i) as [p |] eqn:Hi.
  - intros <-. split; [reflexivity |]. split; [| split].
    + eapply delivers_ends_in; [by apply confirm_product_upload_confirms |].
      apply after_confirm_effect.
    + rewrite (confirm_product_upload_cancels _ _ _ _ Hi).
      eexists; split; [reflexivity |]. eapply after_cancel_effect, delivery_only_refl.
    + intros s phone Hs. split.
      * eapply delivers_ends_in; [by eapply confirm_product_confirms |].
        apply after_confirm_effect.
      * eapply delivers_ends_in; [by eapply confirm_product_cancels |].
        apply after_cancel_effect.
  - intros c. split.
    + rewrite (confirm_product_upload_missing _ _ _ _ Hi).
      eexists; split; [reflexivity | by split].
    + intros s phone Hs.
      eapply delivers_ends_in; [by eapply confirm_product_missing |].
      apply delivery_no_effect.
Qed.

Lemma confirm_cancel_check_existence_only_witness :
  state_of (activate Demo.removed) = ACTIVE
  ∧ ends_in (confirm_product_upload Demo.all_ok 12 true Demo.world)
      (confirm_effect 12 Demo.removed Demo.world)
  ∧ ends_in (confirm_product_upload Demo.all_ok 12 false Demo.world)
      (cancel_effect Demo.all_ok 12 Demo.removed Demo.world)
  ∧ ∀ s phone, UUID Demo.all_ok s = Some 12 →
      ends_in (confirm_product Demo.all_ok s phone true Demo.world)
        (confirm_effect 12 Demo.removed Demo.world)
      ∧ ends_in (confirm_product Demo.all_ok s phone false Demo.world)
          (cancel_effect Demo.all_ok 12 Demo.removed Demo.world).
Proof.
  exact (confirm_cancel_check_existence_only Demo.all_ok Demo.world 12 eq_refl).
Defined.

(** C2 as stated fails: cancel deletes an ACTIVE listing and its image, and
    confirm reactivates a REMOVED one. *)
Lemma cancel_deletes_active_listing :
  products Demo.world !! 11 = Some Demo.active
  ∧ state_of Demo.active = ACTIVE
  ∧ (∃ w', confirm_product_upload Demo.all_ok 11 false Demo.world
             = Returns UploadCancelledOK w'
           ∧ products w' !! 11 = None
           ∧ py "uploads/u11.jpg" ∉ uploads w')
  ∧ products Demo.world !! 12 = Some Demo.removed
  ∧ state_of Demo.removed = REMOVED
  ∧ (∃ r w' p', confirm_product_upload Demo.all_ok 12 true Demo.world = Returns r w'
           ∧ products w' !! 12 = Some p'
           ∧ state_of p' = ACTIVE).
Proof.
  split; [reflexivity |]. split; [reflexivity |]. split.
  { eexists. split; [reflexivity |]. split; [reflexivity |].
    vm_compute. intros H. discriminate H. }
  split; [reflexivity |]. split; [reflexivity |].
  set (r := confirm_product_upload Demo.all_ok 12 true Demo.world).
  vm_compute in r. subst r.
  eexists _, _, _. split; [reflexivity |]. split; reflexivity.
Qed.

(** ** Removing *)

Lemma products_after_removals E u hs w :
  products (after_removals E u hs w) = products w.
Proof.
  revert w. induction hs as [| [i p] hs IH]; intros w; cbn; [done |].
  rewrite IH. by rewrite products_logged.
Qed.

Lemma remove_one_runs E u pending count i w :
  pending !! i = None →
  remove_one E u (pending, count) i w =
    match hit (products w) i with
    | Some (_, p) =>
        Returns (<[i := soft_remove (utcnow_at E (ticks w)) u p]> pending, S count)
                (logged E (removed_record u p) (with_ticks (S (ticks w)) w))
    | None => Returns (pending, count) w
    end.
Proof.
  intros Hpi.
  assert (Hvis : (if autoflush E then pending ∪ products w else products w) !! i
                 = products w !! i).
  { destruct (autoflush E); [| done]. by rewrite lookup_union_r. }
  unfold remove_one, hit. run. cbn [fst snd]. rewrite Hvis.
  destruct (products w !! i) as [row |]; [| done].
  destruct (Product.is_active row); [| done].
  rewrite Hpi. cbn. by rewrite log_action_runs.
Qed.

Lemma ticks_logged E l w : ticks (logged E l w) = ticks w.
Proof. unfold logged. by destruct (audit_commit_ok E _). Qed.

Lemma hits_cons rows i ids :
  hits rows (i :: ids) =
    match hit rows i with
    | Some y => y :: hits rows ids
    | None => hits rows ids
    end.
Proof. reflexivity. Qed.

Lemma remove_loop E u ids : ∀ pending count w,
  NoDup ids →
  (∀ i, i ∈ ids → pending !! i = None) →
  foldM (remove_one E u) (pending, count) ids w =
    Returns (stamp_all E u (hits (products w) ids) (ticks w) pending,
             (count + length (hits (products w) ids))%nat)
            (after_removals E u (hits (products w) ids) w).
Proof.
  induction ids as [| i ids IH]; intros pending count w Hnd Hfresh.
  - cbn. by rewrite Nat.add_0_r.
  - apply NoDup_cons in Hnd as [Hi Hnd].
    cbn [foldM]. unfold mbind, M_bind.
    rewrite remove_one_runs by (apply Hfresh; left).
    rewrite hits_cons.
    destruct (hit (products w) i) as [[j p] |] eqn:Hh; cbn.
    + assert (j = i) as ->.
      { unfold hit in Hh. destruct (products w !! i) as [q |]; [| done].
        destruct (Product.is_active q); congruence. }
      rewrite IH; [| done |].
      * rewrite products_logged, ticks_logged. cbn. do 2 f_equal. lia.
      * intros k Hk. rewrite lookup_insert_ne; [apply Hfresh; by right |].
        by intros ->.
    + apply IH; [done |]. intros k Hk. apply Hfresh. by right.
Qed.

Lemma remove_products_runs E ids w :
  NoDup ids →
  remove_products E ids w =
    let u := (utcnow_at E (ticks w) + undo_seconds)%Z in
    let hs := hits (products w) ids in
    Returns (RemovedOK (length hs) u)
      (with_products (stamp_all E u hs (S (ticks w)) ∅ ∪ products w)
         (after_removals E u hs (with_ticks (S (ticks w)) w))).
Proof.
  intros Hnd. unfold remove_products. run.
  rewrite remove_loop; [| done | by intros]. cbn.
  by rewrite products_after_removals.
Qed.












(** Why the ids are taken to be distinct: an id listed twice is counted
    and recorded twice when the session does not flush before querying, and
    once when it does. *)
Example remove_same_id_twice :
  (∃ w', remove_products Demo.no_autoflush [11; 11] Demo.world
           = Returns (RemovedOK 2 30002000) w'
         ∧ length (lifecycle_logs w') = (length (lifecycle_logs Demo.world) + 2)%nat)
  ∧ (∃ w', remove_products Demo.all_ok [11; 11] Demo.world
             = Returns (RemovedOK 1 30002000) w'
           ∧ length (lifecycle_logs w') = (length (lifecycle_logs Demo.world) + 1)%nat).
Proof.
  split.
  - set (r := remove_products Demo.no_autoflush [11; 11] Demo.world).
    vm_compute in r. subst r. eexists. split; reflexivity.
  - set (r := remove_products Demo.all_ok [11; 11] Demo.world).
    vm_compute in r. subst r. eexists. split; reflexivity.
Qed.

(** ** Relations kept by every step of a handler *)

Section Steps.
Variable R : World -> World -> Prop.
Hypothesis R_refl : ∀ w, R w w.
Hypothesis R_trans : ∀ a b c, R a b → R b c → R a c.

Lemma keeps_ret {A} (a : A) : keeps R (mret a).
Proof using R_refl. intros w. apply R_refl. Qed.

Lemma keeps_raise {A} e : keeps R (raise e : M A).
Proof using R_refl. intros w. apply R_refl. Qed.

Lemma keeps_spin {A} : keeps R (spin : M A).
Proof. intros w. exact I. Qed.

Lemma keeps_gets {A} (f : World -> A) : keeps R (gets f).
Proof using R_refl. intros w. apply R_refl. Qed.

Lemma keeps_bind {A B} (m : M A) (f : A -> M B) :
  keeps R m → (∀ a, keeps R (f a)) → keeps R (m ≫= f).
Proof using R_trans.
  intros Hm Hf w. unfold mbind, M_bind. specialize (Hm w).
  destruct (m w) as [a w1 | e w1 |]; cbn in *; [| done | done].
  specialize (Hf a w1). destruct (f a w1); cbn in *; eauto.
Qed.

End Steps.

Lemma keeps_mono (R1 R2 : World -> World -> Prop) {A} (m : M A) :
  (∀ w w', R1 w w' → R2 w w') → keeps R1 m → keeps R2 m.
Proof.
  intros H Hm w. specialize (Hm w). destruct (m w); cbn in *; auto.
Qed.

Lemma delivers_sat {A} (r : Res A) w (P : World -> Prop) :
  delivers r w → (∀ w', delivery_only w w' → P w') → sat r P.
Proof. intros Hr HP. destruct r; cbn in *; auto. Qed.

(** ** What intake does to the listings *)

Lemma same_products_refl w : same_products w w.
Proof. reflexivity. Qed.

Lemma same_products_trans a b c :
  same_products a b → same_products b c → same_products a c.
Proof. unfold same_products. congruence. Qed.

Lemma drafts_added_refl w : drafts_added w w.
Proof. split; [done |]. intros i p H1 H2. congruence. Qed.

Lemma drafts_added_trans a b c :
  drafts_added a b → drafts_added b c → drafts_added a c.
Proof.
  intros [Sab Hab] [Sbc Hbc]. split; [by etrans |].
  intros i p Hc Ha. destruct (products b !! i) as [q |] eqn:Hb.
  - assert (products c !! i = Some q) by by eapply lookup_weaken.
    assert (p = q) as -> by congruence. by eapply Hab.
  - by eapply Hbc.
Qed.

Lemma same_products_drafts_added w w' : same_products w w' → drafts_added w w'.
Proof.
  unfold same_products. intros H. split; [by rewrite H |].
  intros i p H1 H2. congruence.
Qed.

Lemma delivery_same_products w w' : delivery_only w w' → same_products w w'.
Proof. intros H. apply (dl_products _ _ H). Qed.

Lemma log_action_same_products E a s p i d m :
  keeps same_products (log_action E a s p i d m).
Proof. intros w. rewrite log_action_runs. cbn. apply products_logged. Qed.

Lemma send_text_message_same_products E to n :
  keeps same_products (send_text_message E to n).
Proof.
  intros w. eapply delivers_sat; [apply send_text_message_delivers |].
  apply delivery_same_products.
Qed.

Lemma send_upload_confirmation_same_products E to n i u p :
  keeps same_products (send_upload_confirmation E to n i u p).
Proof.
  intros w. eapply delivers_sat; [apply send_upload_confirmation_delivers |].
  apply delivery_same_products.
Qed.

Lemma secrets_choice_same_products E seq : keeps same_products (secrets_choice E seq).
Proof. intros w. reflexivity. Qed.

Lemma uuid4_same_products E : keeps same_products (uuid4 E).
Proof. intros w. reflexivity. Qed.

Lemma write_image_same_products path : keeps same_products (write_image path).
Proof. intros w. reflexivity. Qed.

Lemma add_seller_same_products E s : keeps same_products (add_seller E s).
Proof.
  intros w. rewrite add_seller_runs. destruct (stored_seller E s); [| done].
  by destruct (existsb _ _).
Qed.

Create HintDb steps.

#[local] Hint Resolve same_products_refl same_products_trans
  drafts_added_refl drafts_added_trans : steps.

Ltac keeps_step :=
  lazymatch goal with
  | |- keeps _ (mbind _ _) =>
      apply keeps_bind; [solve [eauto with steps] | | intros ?]
  | |- keeps _ (mret _) => apply keeps_ret; solve [eauto with steps]
  | |- keeps _ (raise _) => apply keeps_raise; solve [eauto with steps]
  | |- keeps _ spin => apply keeps_spin
  | |- keeps _ (gets _) => apply keeps_gets; solve [eauto with steps]
  | |- keeps _ (log_action _ _ _ _ _ _ _) => apply log_action_same_products
  | |- keeps _ (send_text_message _ _ _) => apply send_text_message_same_products
  | |- keeps _ (send_upload_confirmation _ _ _ _ _ _) =>
      apply send_upload_confirmation_same_products
  | |- keeps _ (secrets_choice _ _) => apply secrets_choice_same_products
  | |- keeps _ (uuid4 _) => apply uuid4_same_products
  | |- keeps _ (write_image _) => apply write_image_same_products
  | |- keeps _ (add_seller _ _) => apply add_seller_same_products
  end.

Lemma choices_same_products E n : keeps same_products (choices E n).
Proof. induction n as [| n IH]; cbn [choices]; repeat keeps_step. exact IH. Qed.

Lemma retry_slug_same_products E fuel : ∀ slug,
  keeps same_products (retry_slug E fuel slug).
Proof.
  induction fuel as [| fuel IH]; intros slug; cbn [retry_slug]; [keeps_step |].
  unfold query_seller_by_slug. keeps_step; [keeps_step |].
  destruct a; [| keeps_step].
  keeps_step; [apply choices_same_products | apply IH].
Qed.

Lemma unique_slug_same_products E fuel : keeps same_products (unique_slug E fuel).
Proof.
  unfold unique_slug, generate_catalog_slug. keeps_step.
  - apply choices_same_products.
  - apply retry_slug_same_products.
Qed.

Lemma auto_register_seller_same_products E fuel phone :
  keeps same_products (auto_register_seller E fuel phone).
Proof.
  unfold auto_register_seller, send_welcome_message.
  keeps_step; [apply unique_slug_same_products |].
  repeat keeps_step.
Qed.

Lemma add_product_drafts_added E p :
  Product.is_active p = false → Product.removed_at p = None →
  Product.can_undo_until p = None →
  keeps drafts_added (add_product E p).
Proof.
  intros Ha Hr Hu w. rewrite add_product_runs.
  destruct (stored_product E p) as [row |] eqn:Hrow; [| apply drafts_added_refl].
  destruct (stored_product_fields _ _ _ Hrow) as (Hid & _ & _ & Hact & Hrem & Hundo).
  destruct (products w !! Product.id p) eqn:Hp; cbn; [apply drafts_added_refl |].
  unfold drafts_added. cbn. rewrite Hid. split.
  - by apply insert_subseteq.
  - intros i q Hq Hi. destruct (decide (i = Product.id p)) as [-> |].
    + rewrite lookup_insert_eq in Hq. injection Hq as <-.
      repeat split; congruence.
    + rewrite lookup_insert_ne in Hq by done. congruence.
Qed.

Ltac drafts_step :=
  lazymatch goal with
  | |- keeps _ (mbind _ _) =>
      apply keeps_bind; [solve [eauto with steps] | | intros ?]
  | |- keeps _ (mret _) => apply keeps_ret; solve [eauto with steps]
  | |- keeps _ (raise _) => apply keeps_raise; solve [eauto with steps]
  | |- keeps _ (add_product _ _) => apply add_product_drafts_added; reflexivity
  | |- keeps _ (auto_register_seller _ _ _) =>
      apply (keeps_mono same_products drafts_added);
        [apply same_products_drafts_added | apply auto_register_seller_same_products]
  | |- keeps _ _ =>
      apply (keeps_mono same_products drafts_added);
        [apply same_products_drafts_added | keeps_step]
  end.

Lemma handle_image_message_drafts_added E fuel phone image_id caption :
  keeps drafts_added (handle_image_message E fuel phone image_id caption).
Proof.
  unfold handle_image_message, query_seller_by_phone.
  drafts_step; [drafts_step |].
  drafts_step; [destruct a; drafts_step |].
  destruct image_id as [[| c image_id] |]; [repeat drafts_step | | repeat drafts_step].
  destruct (media_url_of E (c :: image_id)); [repeat drafts_step |].
  destruct (parse_caption (Some caption)) as [name price].
  destruct (http_get E _); repeat drafts_step.
Qed.

Lemma upload_product_via_whatsapp_drafts_added E phone image_url caption :
  keeps drafts_added (upload_product_via_whatsapp E phone image_url caption).
Proof.
  unfold upload_product_via_whatsapp, query_seller_by_phone.
  drafts_step; [drafts_step |].
  destruct a; [| drafts_step].
  destruct (parse_caption caption) as [name price].
  destruct (http_get E _); repeat drafts_step.
Qed.

(** ** Restoring *)

Lemma restore_product_runs E i w :
  restore_product E i w =
    match products w !! i with
    | Some p =>
        if Product.is_active p then Raises not_found_or_active w
        else match Product.can_undo_until p with
             | Some d =>
                 match dialect E with
                 | PostgreSQL => Raises TypeError (with_ticks (S (ticks w)) w)
                 | SQLite =>
                     if bool_decide (utcnow_at E (ticks w) < d)%Z
                     then Returns (ProductDict (reinstate p)) (after_restore E p w)
                     else Raises undo_window_expired (with_ticks (S (ticks w)) w)
                 end
             | None => Raises undo_window_expired w
             end
    | None => Raises not_found_or_active w
    end.
Proof.
  unfold restore_product. run.
  destruct (products w !! i) as [p |]; [| done].
  destruct (Product.is_active p) eqn:Ha; [done |].
  unfold can_undo. rewrite Ha.
  destruct (Product.can_undo_until p) as [d |]; [| done]. run.
  destruct (dialect E); [done |]. run.
  destruct (bool_decide (utcnow_at E (ticks w) < d)%Z); [| done]. cbn.
  by rewrite log_action_runs.
Qed.

(** C4, at the failing input.  On PostgreSQL a REMOVED listing whose undo
    deadline has passed is not refused with 410 Gone.  [restore] finds the
    row and asks [can_undo], which compares the naive [datetime.utcnow()]
    with the deadline the store gave back with its time zone: the
    comparison raises [TypeError], and the request ends in an error that is
    not the Gone of the code.  It is so for every REMOVED listing, expired
    or not.  Nothing but the clock has moved: the row is still there,
    REMOVED, with the same [removed_at] and [can_undo_until]. *)
Theorem restore_removed_raises_type_error (E : Env) (w : World) (i : N)
    (p : Product.t) (d : Z) :
  dialect E = PostgreSQL →
  products w !! i = Some p →
  state_of p = REMOVED →
  Product.can_undo_until p = Some d →
  ∃ w', restore_product E i w = Raises TypeError w'
        ∧ TypeError ≠ undo_window_expired
        ∧ products w' = products w
        ∧ products w' !! i = Some p
        ∧ action_logs w' = action_logs w
        ∧ sellers w' = sellers w ∧ uploads w' = uploads w ∧ outbox w' = outbox w.
Proof.
  intros HE Hi Hst Hd.
  assert (Ha : Product.is_active p = false).
  { unfold state_of in Hst. by destruct (Product.is_active p). }
  rewrite restore_product_runs, Hi, Ha, Hd, HE.
  eexists. split; [reflexivity |]. by repeat split.
Qed.

Lemma restore_removed_raises_type_error_witness :
  (30001000 ≤ utcnow_at Demo.late (ticks Demo.world))%Z
  ∧ ∃ w', restore_product Demo.late 12 Demo.world = Raises TypeError w'
          ∧ TypeError ≠ undo_window_expired
          ∧ products w' = products Demo.world
          ∧ products w' !! 12 = Some Demo.removed
          ∧ action_logs w' = action_logs Demo.world
          ∧ sellers w' = sellers Demo.world ∧ uploads w' = uploads Demo.world
          ∧ outbox w' = outbox Demo.world.
Proof.
  split; [vm_compute; discriminate |].
  apply (restore_removed_raises_type_error Demo.late Demo.world 12 Demo.removed
           30001000%Z); reflexivity.
Defined.

(** On SQLite, where the deadline comes back naive, the comparison is made:
    a REMOVED listing whose deadline is not after the clock reading
    [restore] takes is refused with 410 Gone, and nothing but the clock has
    moved. *)
Lemma restore_expired_is_gone (E : Env) (w : World) (i : N) (p : Product.t) (d : Z) :
  dialect E = SQLite →
  products w !! i = Some p →
  state_of p = REMOVED →
  Product.can_undo_until p = Some d →
  (d ≤ utcnow_at E (ticks w))%Z →
  ∃ w', restore_product E i w = Raises undo_window_expired w'
        ∧ products w' = products w
        ∧ products w' !! i = Some p
        ∧ action_logs w' = action_logs w
        ∧ sellers w' = sellers w ∧ uploads w' = uploads w ∧ outbox w' = outbox w.
Proof.
  intros HE Hi Hst Hd Hlate.
  assert (Ha : Product.is_active p = false).
  { unfold state_of in Hst. by destruct (Product.is_active p). }
  rewrite restore_product_runs, Hi, Ha, Hd, HE.
  rewrite bool_decide_eq_false_2 by lia.
  eexists. split; [reflexivity |]. by repeat split.
Qed.

Example restore_expired_on_sqlite :
  ∃ w', restore_product Demo.sqlite_late 12 Demo.world = Raises undo_window_expired w'
        ∧ products w' !! 12 = Some Demo.removed.
Proof.
  destruct (restore_expired_is_gone Demo.sqlite_late Demo.world 12 Demo.removed
              30001000%Z) as (w' & Hrun & _ & Hrow & _);
    [reflexivity | reflexivity | reflexivity | reflexivity | vm_compute; discriminate |].
  by exists w'.
Qed.

(** C10.  An inactive listing with no undo deadline (a draft awaiting
    confirmation) is found by [restore], which then refuses with 410 Gone,
    not with 404, and leaves the world exactly as it was. *)
Theorem restore_draft_is_gone (E : Env) (w : World) (i : N) (p : Product.t) :
  products w !! i = Some p →
  Product.is_active p = false →
  Product.can_undo_until p = None →
  restore_product E i w = Raises undo_window_expired w
  ∧ undo_window_expired ≠ not_found_or_active.
Proof.
  intros Hi Ha Hd. rewrite restore_product_runs, Hi, Ha, Hd.
  split; [reflexivity | discriminate].
Qed.

Lemma restore_draft_is_gone_witness :
  restore_product Demo.all_ok 10 Demo.world = Raises undo_window_expired Demo.world
  ∧ undo_window_expired ≠ not_found_or_active.
Proof.
  apply (restore_draft_is_gone Demo.all_ok Demo.world 10 Demo.draft); reflexivity.
Defined.

(** Within the window the same call succeeds on SQLite: the listing is
    ACTIVE again and both timestamps are cleared. *)
Example restore_within_window :
  ∃ w', restore_product Demo.sqlite 12 Demo.world
          = Returns (ProductDict (reinstate Demo.removed)) w'
        ∧ products w' !! 12 = Some (reinstate Demo.removed)
        ∧ state_of (reinstate Demo.removed) = ACTIVE
        ∧ Product.removed_at (reinstate Demo.removed) = None
        ∧ Product.can_undo_until (reinstate Demo.removed) = None.
Proof.
  rewrite restore_product_runs. eexists. split; [reflexivity |]. by repeat split.
Qed.

(** ** What removal does to the listings, duplicates in the request or not *)

Lemma remove_one_shape E u st i w :
  pending_removed st.1 →
  ∃ st' w', remove_one E u st i w = Returns st' w'
            ∧ products w' = products w ∧ pending_removed st'.1.
Proof.
  intros Hst. unfold remove_one. run.
  destruct (_ !! i) as [row |]; [| by eauto].
  destruct (Product.is_active row); [| by eauto].
  rewrite log_action_runs. cbn. eexists _, _. split; [reflexivity |].
  rewrite products_logged. split; [done |]. cbn.
  intros j q Hq. destruct (decide (j = i)) as [-> |].
  - rewrite lookup_insert_eq in Hq. injection Hq as <-.
    by repeat split; cbn.
  - rewrite lookup_insert_ne in Hq by done. by eapply Hst.
Qed.

Lemma remove_loop_shape E u ids : ∀ st w,
  pending_removed st.1 →
  ∃ st' w', foldM (remove_one E u) st ids w = Returns st' w'
            ∧ products w' = products w ∧ pending_removed st'.1.
Proof.
  induction ids as [| i ids IH]; intros st w Hst; cbn [foldM]; [by eauto |].
  destruct (remove_one_shape E u st i w Hst) as (st1 & w1 & Hrun & Hp & Hst1).
  erewrite bind_returns by exact Hrun.
  destruct (IH st1 w1 Hst1) as (st2 & w2 & Hrun2 & Hp2 & Hst2).
  exists st2, w2. split; [done |]. split; [congruence | done].
Qed.

(** [remove] always answers, and each row it leaves is either a row that
    was there or a row in REMOVED shape. *)
Lemma remove_products_shape E ids w :
  ∃ n u w', remove_products E ids w = Returns (RemovedOK n u) w'
    ∧ ∀ i p, products w' !! i = Some p →
        products w !! i = Some p ∨ removed_shaped p.
Proof.
  unfold remove_products. run.
  destruct (remove_loop_shape E (utcnow_at E (ticks w) + undo_seconds)%Z ids
              (∅, O) (with_ticks (S (ticks w)) w)) as (st & w1 & Hrun & Hp & Hst).
  { intros i p H. cbn in H. by rewrite lookup_empty in H. }
  rewrite Hrun. cbn. eexists _, _, _. split; [reflexivity |].
  cbn. intros i p Hi. apply lookup_union_Some_raw in Hi as [Hi | [_ Hi]].
  - right. by eapply Hst.
  - left. by rewrite Hp in Hi.
Qed.

(** ** The undo fields and the state *)

Lemma draft_consistent p :
  Product.is_active p = false → Product.removed_at p = None →
  Product.can_undo_until p = None → undo_fields_consistent p.
Proof.
  intros Ha Hr Hu. unfold undo_fields_consistent, state_of.
  rewrite Ha, Hr, Hu. split; split; (by intros [? ?] || done).
Qed.

Lemma removed_shaped_consistent p : removed_shaped p → undo_fields_consistent p.
Proof.
  intros (Ha & Hr & [d Hu]). unfold undo_fields_consistent, state_of.
  rewrite Ha, Hu. by repeat split.
Qed.

Lemma activate_consistent p :
  undo_fields_consistent p → state_of p ≠ REMOVED →
  undo_fields_consistent (activate p).
Proof.
  intros [Hu Hr] Hst. unfold undo_fields_consistent, state_of. cbn.
  split; (split; [| done]); intros H; exfalso; apply Hst; [by apply Hu | by apply Hr].
Qed.

Lemma reinstate_consistent p : undo_fields_consistent (reinstate p).
Proof.
  unfold undo_fields_consistent, state_of. cbn.
  split; split; (by intros [? ?] || done).
Qed.

Lemma consistent_same_products w w' :
  products w' = products w → store_consistent w → store_consistent w'.
Proof. unfold store_consistent. intros ->. done. Qed.

Lemma consistent_insert w w' k q :
  products w' = <[k := q]> (products w) → undo_fields_consistent q →
  store_consistent w → store_consistent w'.
Proof.
  intros Hp Hq Hw i p Hi. rewrite Hp in Hi.
  destruct (decide (k = i)) as [-> |].
  - rewrite lookup_insert_eq in Hi. by injection Hi as <-.
  - rewrite lookup_insert_ne in Hi by done. by eapply Hw.
Qed.

Lemma consistent_delete w w' k :
  products w' = delete k (products w) → store_consistent w → store_consistent w'.
Proof.
  intros Hp Hw i p Hi. rewrite Hp in Hi.
  apply lookup_delete_Some in Hi as [_ Hi]. by eapply Hw.
Qed.

Lemma consistent_drafts_added w w' :
  drafts_added w w' → store_consistent w → store_consistent w'.
Proof.
  intros [Hsub Hnew] Hw i p Hi.
  destruct (products w !! i) as [q |] eqn:Hq.
  - assert (products w' !! i = Some q) by by eapply lookup_weaken.
    assert (p = q) as -> by congruence. by eapply Hw.
  - destruct (Hnew i p Hi Hq) as (? & ? & ?). by apply draft_consistent.
Qed.

Lemma sat_keeps {A} (R : World -> World -> Prop) (m : M A) (P : World -> Prop) w :
  keeps R m → (∀ w', R w w' → P w') → sat (m w) P.
Proof. intros Hm HP. specialize (Hm w). destruct (m w); cbn in *; auto. Qed.

Lemma confirm_ends_consistent E w i :
  store_consistent w →
  (∀ p, products w !! i = Some p → state_of p ≠ REMOVED) →
  ends_in (confirm_product_upload E i true w) store_consistent
  ∧ ∀ s phone, UUID E s = Some i →
      ends_in (confirm_product E s phone true w) store_consistent.
Proof.
  intros Hw Hst. destruct (products w !! i) as [p |] eqn:Hi.
  - assert (Hq : ∀ w', delivery_only (after_confirm E p w) w' → store_consistent w').
    { intros w' H. apply after_confirm_effect in H as [Hp _].
      eapply consistent_insert; [exact Hp | | done].
      apply activate_consistent; [by eapply Hw | by apply Hst]. }
    split; [| intros s phone Hs];
      (eapply delivers_ends_in; [| exact Hq]);
      [by apply confirm_product_upload_confirms | by eapply confirm_product_confirms].
  - assert (Hq : ∀ w', delivery_only w w' → store_consistent w').
    { intros w' H. eapply consistent_same_products; [apply (dl_products _ _ H) | done]. }
    split; [| intros s phone Hs].
    + rewrite confirm_product_upload_missing by done. by exists w.
    + eapply delivers_ends_in; [by eapply confirm_product_missing | exact Hq].
Qed.

Lemma cancel_ends_consistent E w :
  store_consistent w →
  (∀ i, ends_in (confirm_product_upload E i false w) store_consistent)
  ∧ (∀ s phone, ends_in (confirm_product E s phone false w) store_consistent).
Proof.
  intros Hw.
  assert (Hq : ∀ w', delivery_only w w' → store_consistent w').
  { intros w' H. eapply consistent_same_products; [apply (dl_products _ _ H) | done]. }
  assert (Hc : ∀ p w', delivery_only (after_cancel E p w) w' → store_consistent w').
  { intros p w' H. apply after_cancel_effect in H as [Hp _].
    by eapply consistent_delete. }
  split.
  - intros i. destruct (products w !! i) as [p |] eqn:Hi.
    + rewrite (confirm_product_upload_cancels _ _ _ _ Hi).
      eexists. split; [reflexivity |]. eapply Hc, delivery_only_refl.
    + rewrite confirm_product_upload_missing by done. by exists w.
  - intros s phone. destruct (UUID E s) as [i |] eqn:Hs.
    + destruct (products w !! i) as [p |] eqn:Hi.
      * eapply delivers_ends_in; [by eapply confirm_product_cancels | apply Hc].
      * eapply delivers_ends_in; [by eapply confirm_product_missing | exact Hq].
    + eapply delivers_ends_in; [by eapply confirm_product_invalid | exact Hq].
Qed.

Lemma remove_ends_consistent E w ids :
  store_consistent w → ends_in (remove_products E ids w) store_consistent.
Proof.
  intros Hw. destruct (remove_products_shape E ids w) as (n & u & w' & Hrun & Hrows).
  rewrite Hrun. exists w'. split; [done |].
  intros i p Hi. destruct (Hrows i p Hi) as [Hold | Hnew].
  - by eapply Hw.
  - by apply removed_shaped_consistent.
Qed.

Lemma restore_ends_consistent E w i :
  store_consistent w → ends_in (restore_product E i w) store_consistent.
Proof.
  intros Hw. rewrite restore_product_runs.
  destruct (products w !! i) as [p |]; [| by exists w].
  destruct (Product.is_active p); [by exists w |].
  destruct (Product.can_undo_until p) as [d |]; [| by exists w].
  destruct (dialect E); [by eexists |].
  destruct (bool_decide _); [| by eexists].
  eexists. split; [reflexivity |].
  eapply consistent_insert; [| apply (reinstate_consistent p) | exact Hw].
  unfold after_restore. by rewrite products_logged.
Qed.

(** C5, as the code has it.  In a store where every listing carries its undo
    deadline and its removal time exactly when it is REMOVED, this remains
    so after intake (by webhook or by HTTP), after cancel, after remove and
    after restore, whatever their arguments; and after confirm provided
    the listing confirmed is not REMOVED.  (Confirm, cancel, remove and
    restore always come to an end; intake is only said to keep the
    invariant when it does.) *)
Theorem lifecycle_keeps_undo_fields (E : Env) (w : World) :
  store_consistent w →
  (∀ fuel phone image_id caption,
     sat (handle_image_message E fuel phone image_id caption w) store_consistent)
  ∧ (∀ phone image_url caption,
       sat (upload_product_via_whatsapp E phone image_url caption w) store_consistent)
  ∧ (∀ i, (∀ p, products w !! i = Some p → state_of p ≠ REMOVED) →
       ends_in (confirm_product_upload E i true w) store_consistent
       ∧ ∀ s phone, UUID E s = Some i →
           ends_in (confirm_product E s phone true w) store_consistent)
  ∧ (∀ i, ends_in (confirm_product_upload E i false w) store_consistent)
  ∧ (∀ s phone, ends_in (confirm_product E s phone false w) store_consistent)
  ∧ (∀ ids, ends_in (remove_products E ids w) store_consistent)
  ∧ (∀ i, ends_in (restore_product E i w) store_consistent).
Proof.
  intros Hw.
  split; [| split; [| split; [| split; [| split; [| split]]]]].
  - intros. eapply sat_keeps; [apply handle_image_message_drafts_added |].
    intros w' H. by eapply consistent_drafts_added.
  - intros. eapply sat_keeps; [apply upload_product_via_whatsapp_drafts_added |].
    intros w' H. by eapply consistent_drafts_added.
  - intros i Hst. by apply confirm_ends_consistent.
  - by apply cancel_ends_consistent.
  - by apply cancel_ends_consistent.
  - intros ids. by apply remove_ends_consistent.
  - intros i. by apply restore_ends_consistent.
Qed.

Lemma demo_world_consistent : store_consistent Demo.world.
Proof.
  apply (bool_decide_unpack
           (map_Forall (fun _ p => undo_fields_consistent p) (products Demo.world))).
  vm_compute. exact I.
Defined.

Lemma lifecycle_keeps_undo_fields_witness :
  store_consistent Demo.world
  ∧ (∀ ids, ends_in (remove_products Demo.all_ok ids Demo.world) store_consistent)
  ∧ (∀ i, ends_in (restore_product Demo.all_ok i Demo.world) store_consistent)
  ∧ (∀ i, ends_in (confirm_product_upload Demo.all_ok i false Demo.world)
            store_consistent).
Proof.
  split; [exact demo_world_consistent |].
  destruct (lifecycle_keeps_undo_fields Demo.all_ok Demo.world demo_world_consistent)
    as (_ & _ & _ & Hcancel & _ & Hremove & Hrestore).
  split; [exact Hremove |]. split; [exact Hrestore | exact Hcancel].
Defined.

(** C5 as stated fails: confirming a REMOVED listing (tapping the old
    "Add" button, or calling the endpoint) makes it ACTIVE and leaves
    [removed_at] and [can_undo_until] set. *)
Lemma confirm_of_removed_keeps_deadline :
  store_consistent Demo.world
  ∧ products Demo.world !! 12 = Some Demo.removed
  ∧ state_of Demo.removed = REMOVED
  ∧ ∃ r w' p',
      confirm_product_upload Demo.all_ok 12 true Demo.world = Returns r w'
      ∧ products w' !! 12 = Some p'
      ∧ state_of p' = ACTIVE
      ∧ Product.can_undo_until p' = Some 30001000%Z
      ∧ Product.removed_at p' = Some 1000%Z
      ∧ ¬ undo_fields_consistent p'
      ∧ ¬ store_consistent w'.
Proof.
  split; [exact demo_world_consistent |]. split; [reflexivity |].
  split; [reflexivity |].
  set (r := confirm_product_upload Demo.all_ok 12 true Demo.world).
  vm_compute in r. subst r.
  eexists _, _, _. split; [reflexivity |]. split; [reflexivity |].
  split; [reflexivity |]. split; [reflexivity |]. split; [reflexivity |].
  assert (Hbad : ¬ undo_fields_consistent (activate Demo.removed)).
  { intros [Hu _]. assert (H : ACTIVE = REMOVED) by (apply Hu; by eexists).
    discriminate H. }
  split; [exact Hbad |].
  intros Hall. apply Hbad. apply (Hall 12). reflexivity.
Qed.

(** ** The audit records of the lifecycle *)




Lemma log_writes_without_image E p w :
  log_writes (without_image E p w) = log_writes w.
Proof. unfold without_image. by destruct (unlink_ok E _). Qed.

Lemma action_logs_without_image E p w :
  action_logs (without_image E p w) = action_logs w.
Proof. unfold without_image. by destruct (unlink_ok E _). Qed.

Lemma interests_without_image E p w :
  interests (without_image E p w) = interests w.
Proof. unfold without_image. by destruct (unlink_ok E _). Qed.






(** *** Intake *)
















(** ** The lifecycle does not depend on the audit store *)

Lemma business_eq_refl w : business_eq w w.
Proof. by split. Qed.

Lemma business_eq_logged E1 E2 l1 l2 w1 w2 :
  business_eq w1 w2 → business_eq (logged E1 l1 w1) (logged E2 l2 w2).
Proof.
  intros []. unfold logged.
  destruct (audit_commit_ok E1 _), (audit_commit_ok E2 _); by split.
Qed.

Lemma indep_ret {A} (a : A) : indep (mret a) (mret a).
Proof. intros w1 w2 H. by split. Qed.

Lemma indep_raise {A} e : indep (raise e : M A) (raise e).
Proof. intros w1 w2 H. by split. Qed.

Lemma indep_spin {A} : indep (spin : M A) spin.
Proof. intros w1 w2 H. exact I. Qed.

Lemma indep_bind {A B} (m1 m2 : M A) (f1 f2 : A -> M B) :
  indep m1 m2 → (∀ a, indep (f1 a) (f2 a)) → indep (m1 ≫= f1) (m2 ≫= f2).
Proof.
  intros Hm Hf w1 w2 Hw. unfold mbind, M_bind. specialize (Hm w1 w2 Hw).
  destruct (m1 w1), (m2 w2); cbn in Hm |- *; try done.
  destruct Hm as [-> Hw']. by apply Hf.
Qed.

(** The value [log_action] returns differs with the audit store, but every
    caller discards it. *)
Lemma indep_log_then {B} E1 E2 a s p i d m (k1 k2 : M B) :
  indep k1 k2 →
  indep (log_action E1 a s p i d m;; k1) (log_action E2 a s p i d m;; k2).
Proof.
  intros Hk w1 w2 Hw. unfold mbind, M_bind. rewrite !log_action_runs.
  apply Hk. by apply business_eq_logged.
Qed.

Lemma indep_gets {A} (f : World -> A) :
  (∀ w1 w2, business_eq w1 w2 → f w1 = f w2) → indep (gets f) (gets f).
Proof. intros Hf w1 w2 Hw. split; [by apply Hf | done]. Qed.

Lemma indep_modify (f : World -> World) :
  (∀ w1 w2, business_eq w1 w2 → business_eq (f w1) (f w2)) →
  indep (modify f) (modify f).
Proof. intros Hf w1 w2 Hw. split; [done | by apply Hf]. Qed.

Lemma indep_try_except_http {A} (m1 m2 h1 h2 : M A) :
  indep m1 m2 → indep h1 h2 → indep (try_except_http m1 h1) (try_except_http m2 h2).
Proof.
  intros Hm Hh w1 w2 Hw. unfold try_except_http. specialize (Hm w1 w2 Hw).
  destruct (m1 w1) as [a1 v1 | e1 v1 |], (m2 w2) as [a2 v2 | e2 v2 |];
    cbn in Hm |- *; try done.
  destruct Hm as [-> Hv]. destruct e2; try done. by apply Hh.
Qed.

Lemma indep_utcnow E a : indep (utcnow (with_audit a E)) (utcnow E).
Proof.
  intros w1 w2 Hw. unfold utcnow. cbn. destruct Hw.
  split; [congruence |]. split; cbn; congruence.
Qed.

Lemma indep_uuid4 E a : indep (uuid4 (with_audit a E)) (uuid4 E).
Proof.
  intros w1 w2 Hw. unfold uuid4. cbn. destruct Hw.
  split; [congruence |]. split; cbn; congruence.
Qed.

Lemma indep_secrets_choice E a seq :
  indep (secrets_choice (with_audit a E) seq) (secrets_choice E seq).
Proof.
  intros w1 w2 Hw. unfold secrets_choice. cbn. destruct Hw.
  split; [congruence |]. split; cbn; congruence.
Qed.

Lemma indep_http_post E a to payload :
  indep (http_post (with_audit a E) to payload) (http_post E to payload).
Proof.
  intros w1 w2 Hw. unfold http_post. cbn. destruct Hw.
  replace (http_posts w1) with (http_posts w2) by done.
  destruct (http_post_at E (http_posts w2)); cbn;
    (split; [done |]); split; cbn; congruence.
Qed.

Lemma indep_add_seller E a s : indep (add_seller (with_audit a E) s) (add_seller E s).
Proof.
  intros w1 w2 Hw. rewrite !add_seller_runs.
  change (stored_seller (with_audit a E) s) with (stored_seller E s).
  destruct (stored_seller E s) as [row |]; [| by split].
  destruct Hw. replace (sellers w1) with (sellers w2) by done.
  destruct (existsb _ _); cbn; (split; [done |]); split; cbn; congruence.
Qed.

Ltac env_simpl :=
  cbn [with_audit dialect numeric_12_2 utcnow_at http_post_at randbelow_at uuid4_at media_url_of
       http_get unlink_ok UUID uuid_str UPLOAD_DIR CATALOG_BASE_URL autoflush].

Ltac indep_side :=
  let H := fresh in
  intros ? ? H; destruct H; cbn;
  repeat match goal with |- context [if ?b then _ else _] => destruct b end;
  (congruence || (split; cbn; congruence)).

Ltac indep_step :=
  lazymatch goal with
  | |- indep (mbind _ (log_action _ _ _ _ _ _ _)) _ => apply indep_log_then
  | |- indep (mbind _ _) (mbind _ _) => apply indep_bind; [| intros ?]
  | |- indep (mret _) _ => apply indep_ret
  | |- indep (raise _) _ => apply indep_raise
  | |- indep spin _ => apply indep_spin
  | |- indep (gets _) _ => apply indep_gets; indep_side
  | |- indep (modify _) _ => apply indep_modify; indep_side
  | |- indep (try_except_http _ _) _ => apply indep_try_except_http
  | |- indep (utcnow _) _ => apply indep_utcnow
  | |- indep (uuid4 _) _ => apply indep_uuid4
  | |- indep (secrets_choice _ _) _ => apply indep_secrets_choice
  | |- indep (http_post _ _ _) _ => apply indep_http_post
  | |- indep (add_seller _ _) _ => apply indep_add_seller
  | |- indep (match ?x with _ => _ end) _ => destruct x
  end.

Lemma indep_send_text_message E a to n :
  indep (send_text_message (with_audit a E) to n) (send_text_message E to n).
Proof. unfold send_text_message. repeat indep_step. Qed.

Lemma indep_send_image_message E a to u c :
  indep (send_image_message (with_audit a E) to u c) (send_image_message E to u c).
Proof. unfold send_image_message. repeat indep_step. Qed.

Lemma indep_send_interactive_buttons E a to n bs :
  indep (send_interactive_buttons (with_audit a E) to n bs)
        (send_interactive_buttons E to n bs).
Proof. unfold send_interactive_buttons. repeat indep_step. Qed.

Lemma indep_send_upload_confirmation E a to n i u p :
  indep (send_upload_confirmation (with_audit a E) to n i u p)
        (send_upload_confirmation E to n i u p).
Proof.
  unfold send_upload_confirmation. env_simpl.
  indep_step; [apply indep_send_image_message |].
  destruct (negb a0); [indep_step | apply indep_send_interactive_buttons].
Qed.

Lemma indep_choices E a n : indep (choices (with_audit a E) n) (choices E n).
Proof.
  induction n as [| n IH]; cbn [choices]; [indep_step |].
  indep_step; [indep_step |]. indep_step; [exact IH | indep_step].
Qed.

Lemma indep_retry_slug E a fuel : ∀ slug,
  indep (retry_slug (with_audit a E) fuel slug) (retry_slug E fuel slug).
Proof.
  induction fuel as [| fuel IH]; intros slug; cbn [retry_slug]; [indep_step |].
  unfold query_seller_by_slug. indep_step; [indep_step |].
  destruct a0; [| indep_step].
  indep_step; [apply indep_choices | apply IH].
Qed.

Lemma indep_unique_slug E a fuel :
  indep (unique_slug (with_audit a E) fuel) (unique_slug E fuel).
Proof.
  unfold unique_slug, generate_catalog_slug.
  indep_step; [apply indep_choices | apply indep_retry_slug].
Qed.

Lemma indep_add_product E a p : indep (add_product (with_audit a E) p) (add_product E p).
Proof.
  intros w1 w2 Hw. rewrite !add_product_runs.
  change (stored_product (with_audit a E) p) with (stored_product E p).
  destruct (stored_product E p) as [row |]; [| by split].
  destruct Hw. replace (products w1) with (products w2) by done.
  destruct (products w2 !! Product.id p); cbn; (split; [done |]);
    split; cbn; congruence.
Qed.

Lemma indep_auto_register_seller E a fuel phone :
  indep (auto_register_seller (with_audit a E) fuel phone)
        (auto_register_seller E fuel phone).
Proof.
  unfold auto_register_seller, send_welcome_message, catalog_url_of. env_simpl.
  indep_step; [apply indep_unique_slug |].
  indep_step; [indep_step |]. indep_step; [indep_step |].
  indep_step. indep_step; [apply indep_send_text_message | indep_step].
Qed.

Lemma indep_register_seller E a fuel phone name chat :
  indep (register_seller (with_audit a E) fuel phone name chat)
        (register_seller E fuel phone name chat).
Proof.
  unfold register_seller, query_seller_by_phone.
  indep_step; [indep_step |]. destruct a0; [indep_step |].
  indep_step; [apply indep_unique_slug |].
  indep_step; [indep_step |]. indep_step; [indep_step |].
  indep_step. indep_step.
Qed.

Ltac indep_go :=
  repeat first
    [ apply indep_send_text_message
    | apply indep_send_upload_confirmation
    | apply indep_add_product
    | apply indep_auto_register_seller
    | indep_step ].

Lemma indep_handle_image_message E a fuel phone image_id caption :
  indep (handle_image_message (with_audit a E) fuel phone image_id caption)
        (handle_image_message E fuel phone image_id caption).
Proof.
  unfold handle_image_message, query_seller_by_phone, write_image. env_simpl.
  indep_step; [indep_step |].
  indep_step; [destruct a0; indep_go |].
  destruct image_id as [[| c image_id] |]; [indep_go | | indep_go].
  destruct (media_url_of E (c :: image_id)); [indep_go |].
  destruct (parse_caption (Some caption)) as [name price].
  destruct (http_get E _); indep_go.
Qed.

Lemma indep_upload_product_via_whatsapp E a phone image_url caption :
  indep (upload_product_via_whatsapp (with_audit a E) phone image_url caption)
        (upload_product_via_whatsapp E phone image_url caption).
Proof.
  unfold upload_product_via_whatsapp, query_seller_by_phone, write_image. env_simpl.
  indep_step; [indep_step |]. destruct a0; [| indep_step].
  destruct (parse_caption caption) as [name price].
  destruct (http_get E _); indep_go.
Qed.

Lemma indep_confirm_product_upload E a i c :
  indep (confirm_product_upload (with_audit a E) i c) (confirm_product_upload E i c).
Proof.
  unfold confirm_product_upload, query_product, query_seller_by_id, commit_product,
    log_product_update, remove_image, delete_product,
    send_product_added_confirmation, catalog_url_of. env_simpl.
  indep_step; [indep_step |]. destruct a0; [| indep_step].
  indep_step; [indep_step |]. destruct c; indep_go.
Qed.

Lemma indep_confirm_product E a s phone c :
  indep (confirm_product (with_audit a E) s phone c) (confirm_product E s phone c).
Proof.
  unfold confirm_product, query_product, query_seller_by_id, commit_product,
    log_product_update, remove_image, delete_product,
    send_product_added_confirmation, catalog_url_of. env_simpl.
  destruct (UUID E s); [| indep_go].
  indep_step; [indep_step |]. destruct a0; [| indep_go].
  indep_step; [indep_step |]. destruct c; indep_go.
Qed.

Lemma indep_restore_product E a i :
  indep (restore_product (with_audit a E) i) (restore_product E i).
Proof.
  unfold restore_product, query_product, can_undo, commit_product,
    log_product_update. env_simpl.
  indep_step; [indep_step |]. destruct a0 as [p |]; [| indep_step].
  destruct (Product.is_active p); [indep_step |].
  indep_step.
  - destruct (Product.can_undo_until p); indep_go.
  - destruct (negb a0); indep_go.
Qed.

Lemma indep_foldM {A B} (f1 f2 : B -> A -> M B) (l : list A) :
  (∀ b x, indep (f1 b x) (f2 b x)) → ∀ b, indep (foldM f1 b l) (foldM f2 b l).
Proof.
  intros Hf. induction l as [| x l IH]; intros b; cbn [foldM]; [indep_step |].
  indep_step; [apply Hf | apply IH].
Qed.

Lemma indep_remove_one E a u st i :
  indep (remove_one (with_audit a E) u st i) (remove_one E u st i).
Proof.
  unfold remove_one. env_simpl. indep_step; [indep_step |].
  destruct (_ !! i) as [row |]; [| indep_step].
  destruct (Product.is_active row); indep_go.
Qed.

Lemma indep_remove_products E a ids :
  indep (remove_products (with_audit a E) ids) (remove_products E ids).
Proof.
  unfold remove_products.
  indep_step; [indep_step |].
  indep_step; [apply indep_foldM; intros; apply indep_remove_one |].
  indep_go.
Qed.

(** C7.  [log_action] always returns: when the audit session's write fails
    it prints the failure, appends nothing and returns [None], when it
    succeeds it appends the record; in neither case does it touch
    sellers, listings, interests, images or messages.  And since every
    caller discards what it returns, each handler ends with the same
    outcome (the same value returned, or the same exception) and the same
    business state whatever the audit store does: replacing the audit
    store of [E] by any other ([with_audit]) changes neither. *)
Theorem audit_failure_never_aborts (E : Env) (audit : nat -> bool) (w : World) :
  (∀ a s p i d m,
     let entry := ActionLog.mk a s p i d m in
     ∃ r w', log_action E a s p i d m w = Returns r w'
       ∧ business_eq w w'
       ∧ (audit_commit_ok E (log_writes w) = true →
          r = Some entry ∧ action_logs w' = action_logs w ++ [entry]
          ∧ stdout w' = stdout w)
       ∧ (audit_commit_ok E (log_writes w) = false →
          r = None ∧ action_logs w' = action_logs w
          ∧ stdout w' = stdout w ++ [DatabaseError]))
  ∧ (∀ fuel phone image_id caption,
       res_eq (handle_image_message (with_audit audit E) fuel phone image_id caption w)
              (handle_image_message E fuel phone image_id caption w))
  ∧ (∀ phone image_url caption,
       res_eq (upload_product_via_whatsapp (with_audit audit E) phone image_url caption w)
              (upload_product_via_whatsapp E phone image_url caption w))
  ∧ (∀ i c,
       res_eq (confirm_product_upload (with_audit audit E) i c w)
              (confirm_product_upload E i c w))
  ∧ (∀ s phone c,
       res_eq (confirm_product (with_audit audit E) s phone c w)
              (confirm_product E s phone c w))
  ∧ (∀ ids,
       res_eq (remove_products (with_audit audit E) ids w) (remove_products E ids w))
  ∧ (∀ i,
       res_eq (restore_product (with_audit audit E) i w) (restore_product E i w))
  ∧ (∀ fuel phone name chat,
       res_eq (register_seller (with_audit audit E) fuel phone name chat w)
              (register_seller E fuel phone name chat w)).
Proof.
  split.
  { intros a s p i d m entry. rewrite log_action_runs. eexists _, _.
    split; [reflexivity |]. unfold logged.
    destruct (audit_commit_ok E (log_writes w)); cbn.
    - split; [by split |]. split; [done | intros H; discriminate H].
    - split; [by split |]. split; [intros H; discriminate H | done]. }
  pose proof (business_eq_refl w) as Hw.
  repeat split; intros.
  - by apply indep_handle_image_message.
  - by apply indep_upload_product_via_whatsapp.
  - by apply indep_confirm_product_upload.
  - by apply indep_confirm_product.
  - by apply indep_remove_products.
  - by apply indep_restore_product.
  - by apply indep_register_seller.
Qed.

(** With the audit store down, confirm still activates the listing and
    answers as it does with the store up. *)
Example confirm_with_audit_down :
  ∃ r w1 w2,
    confirm_product_upload Demo.audit_down 10 true Demo.world = Returns r w1
    ∧ confirm_product_upload Demo.all_ok 10 true Demo.world = Returns r w2
    ∧ products w1 = products w2
    ∧ state_of <$> products w1 !! 10 = Some ACTIVE
    ∧ length (stdout w1) = 2%nat ∧ stdout w2 = [].
Proof.
  set (r1 := confirm_product_upload Demo.audit_down 10 true Demo.world).
  set (r2 := confirm_product_upload Demo.all_ok 10 true Demo.world).
  vm_compute in r1, r2. subst r1 r2.
  eexists _, _, _. split; [reflexivity |]. split; [reflexivity |].
  split; [reflexivity |]. split; [reflexivity |]. split; reflexivity.
Qed.

(** ** Catalog slugs *)

Lemma choices_runs E n : ∀ w,
  ∃ w', choices E n w = Returns (drawn E (draws w) n) w'
        ∧ sellers w' = sellers w ∧ draws w' = (draws w + n)%nat.
Proof.
  induction n as [| n IH]; intros w; cbn [choices drawn].
  - exists w. by rewrite Nat.add_0_r.
  - unfold secrets_choice. run.
    destruct (IH (with_draws (S (draws w)) w)) as (w' & Hrun & Hs & Hd).
    rewrite Hrun. cbn in *. exists w'. split; [done |]. split; [done | lia].
Qed.

Lemma drawn_length E pos n : length (drawn E pos n) = n.
Proof. revert pos. induction n as [| n IH]; intros pos; cbn; [done |]. by rewrite IH. Qed.

Lemma drawn_alphabet E pos n : Forall (fun c => c ∈ slug_alphabet) (drawn E pos n).
Proof.
  revert pos. induction n as [| n IH]; intros pos; cbn [drawn]; constructor; [| apply IH].
  apply list_elem_of_In, nth_In, Nat.mod_upper_bound. done.
Qed.

Lemma retry_slug_never_raises E fuel : ∀ slug w e w',
  retry_slug E fuel slug w ≠ Raises e w'.
Proof.
  induction fuel as [| fuel IH]; intros slug w e w'; cbn [retry_slug]; [done |].
  unfold query_seller_by_slug. run.
  destruct (List.find _ (sellers w)); [| done].
  unfold generate_catalog_slug.
  destruct (choices_runs E 8 w) as (w1 & Hrun & _).
  rewrite Hrun. apply IH.
Qed.

Lemma retry_slug_returns_free E fuel : ∀ slug w s w',
  retry_slug E fuel slug w = Returns s w' →
  sellers w' = sellers w ∧ slug_free w' s
  ∧ (s = slug ∨ ∃ k, s = candidate E w k).
Proof.
  induction fuel as [| fuel IH]; intros slug w s w'; cbn [retry_slug]; [done |].
  unfold query_seller_by_slug. run.
  destruct (List.find _ (sellers w)) eqn:Hfind.
  - unfold generate_catalog_slug.
    destruct (choices_runs E 8 w) as (w1 & Hrun & Hs1 & Hd1).
    rewrite Hrun. intros H. apply IH in H as (Hs & Hfree & Hcand).
    split; [congruence |]. split; [done |]. right.
    destruct Hcand as [-> | [k ->]].
    + exists O. unfold candidate. by rewrite Nat.mul_0_r, Nat.add_0_r.
    + exists (S k). unfold candidate. rewrite Hd1. f_equal. lia.
  - intros [= <- <-]. split; [done |]. split; [exact Hfind | by left].
Qed.

Lemma retry_slug_finds E k : ∀ w slug fuel,
  (k < fuel)%nat →
  let tried j := match j with O => slug | S j' => candidate E w j' end in
  (∀ j, (j < k)%nat → ¬ slug_free w (tried j)) →
  slug_free w (tried k) →
  ∃ w', retry_slug E fuel slug w = Returns (tried k) w' ∧ sellers w' = sellers w.
Proof.
  induction k as [| k IH]; intros w slug fuel Hfuel tried Hbusy Hfree;
    (destruct fuel as [| fuel]; [lia |]); cbn [retry_slug];
    unfold query_seller_by_slug; run.
  - cbn in Hfree. unfold slug_free in Hfree. rewrite Hfree. by exists w.
  - assert (H0 : ¬ slug_free w slug) by (apply (Hbusy O); lia).
    unfold slug_free in H0.
    destruct (List.find _ (sellers w)) eqn:Hfind; [| done].
    unfold generate_catalog_slug.
    destruct (choices_runs E 8 w) as (w1 & Hrun & Hs1 & Hd1). rewrite Hrun.
    assert (Hshift : ∀ j, candidate E w1 j = candidate E w (S j)).
    { intros j. unfold candidate. rewrite Hd1. f_equal. lia. }
    assert (Hfirst : drawn E (draws w) 8 = candidate E w 0).
    { unfold candidate. by rewrite Nat.mul_0_r, Nat.add_0_r. }
    destruct (IH w1 (drawn E (draws w) 8) fuel) as (w' & Hrun' & Hs'); [lia | | |].
    + intros j Hj. unfold slug_free. rewrite Hs1.
      specialize (Hbusy (S j) ltac:(lia)). cbn in Hbusy.
      destruct j as [| j]; [by rewrite Hfirst | by rewrite Hshift].
    + unfold slug_free. rewrite Hs1. cbn in Hfree.
      destruct k as [| k]; [by rewrite Hfirst | by rewrite Hshift].
    + exists w'. split; [| congruence]. rewrite Hrun'. f_equal.
      destruct k as [| k]; [by rewrite Hfirst | by rewrite Hshift].
Qed.

Lemma unique_slug_never_raises E fuel w e w' : unique_slug E fuel w ≠ Raises e w'.
Proof.
  unfold unique_slug, generate_catalog_slug, mbind, M_bind.
  destruct (choices_runs E 8 w) as (w1 & Hrun & _). rewrite Hrun.
  apply retry_slug_never_raises.
Qed.

Lemma unique_slug_returns_free E fuel w s w' :
  unique_slug E fuel w = Returns s w' →
  sellers w' = sellers w ∧ slug_free w s ∧ ∃ k, s = candidate E w k.
Proof.
  unfold unique_slug, generate_catalog_slug, mbind, M_bind.
  destruct (choices_runs E 8 w) as (w1 & Hrun & Hs1 & Hd1). rewrite Hrun.
  intros H. apply retry_slug_returns_free in H as (Hs & Hfree & Hcand).
  split; [congruence |]. split.
  - unfold slug_free in *. by rewrite <- Hs1, <- Hs.
  - destruct Hcand as [-> | [k ->]].
    + exists O. unfold candidate. by rewrite Nat.mul_0_r, Nat.add_0_r.
    + exists (S k). unfold candidate. rewrite Hd1. f_equal. lia.
Qed.

Lemma unique_slug_finds E w k fuel :
  (k < fuel)%nat →
  (∀ j, (j < k)%nat → ¬ slug_free w (candidate E w j)) →
  slug_free w (candidate E w k) →
  ∃ w', unique_slug E fuel w = Returns (candidate E w k) w' ∧ sellers w' = sellers w.
Proof.
  intros Hfuel Hbusy Hfree.
  unfold unique_slug, generate_catalog_slug, mbind, M_bind.
  destruct (choices_runs E 8 w) as (w1 & Hrun & Hs1 & Hd1). rewrite Hrun.
  assert (Hshift : ∀ j, candidate E w1 j = candidate E w (S j)).
  { intros j. unfold candidate. rewrite Hd1. f_equal. lia. }
  assert (Hfirst : drawn E (draws w) 8 = candidate E w 0).
  { unfold candidate. by rewrite Nat.mul_0_r, Nat.add_0_r. }
  destruct (retry_slug_finds E k w1 (drawn E (draws w) 8) fuel Hfuel)
    as (w' & Hrun' & Hs').
  - intros j Hj. unfold slug_free. rewrite Hs1.
    destruct j as [| j]; [rewrite Hfirst | rewrite Hshift]; apply Hbusy; lia.
  - unfold slug_free. rewrite Hs1.
    destruct k as [| k]; [by rewrite Hfirst | by rewrite Hshift].
  - exists w'. split; [| congruence]. rewrite Hrun'. f_equal.
    destruct k as [| k]; [by rewrite Hfirst | by rewrite Hshift].
Qed.

Lemma add_seller_returns E s w row w' :
  add_seller E s w = Returns row w' →
  stored_seller E s = Some row
  ∧ existsb (seller_conflicts row) (sellers w) = false
  ∧ w' = with_sellers (sellers w ++ [row]) w.
Proof.
  rewrite add_seller_runs. destruct (stored_seller E s) as [r |]; [| done].
  destruct (existsb (seller_conflicts r) (sellers w)) eqn:Hc; [done |].
  by intros [= <- <-].
Qed.

Lemma candidate_fits E w k d : varchar d 50 (candidate E w k) = Some (candidate E w k).
Proof. apply varchar_fits. unfold candidate. rewrite drawn_length. lia. Qed.

(** What [auto_register_seller] has done when it returns. *)
Lemma auto_register_seller_returns E fuel phone w s w' :
  auto_register_seller E fuel phone w = Returns s w' →
  sellers w' = sellers w ++ [s]
  ∧ varchar (dialect E) 20 phone = Some (Seller.phone_number s)
  ∧ Seller.name s = None
  ∧ varchar_null (dialect E) 100 (Some phone) = Some (Seller.whatsapp_chat_id s)
  ∧ Seller.is_active s = true
  ∧ existsb (seller_conflicts s) (sellers w) = false
  ∧ slug_free w (Seller.catalog_slug s)
  ∧ ∃ k, Seller.catalog_slug s = candidate E w k.
Proof.
  unfold auto_register_seller. intros H.
  apply bind_returns_inv in H as (slug & w1 & Hslug & H).
  apply unique_slug_returns_free in Hslug as (Hs1 & Hfree & k & ->).
  apply bind_returns_inv in H as (sid & w2 & Hid & H).
  injection Hid as <- <-.
  apply bind_returns_inv in H as (row & w3 & Hadd & H).
  apply add_seller_returns in Hadd as (Hrow & Hconf & ->).
  apply stored_seller_fields in Hrow as (_ & Hact & Hphone & Hname & Hchat & Hsl).
  cbn [Seller.id Seller.phone_number Seller.name Seller.whatsapp_chat_id
       Seller.catalog_slug Seller.is_active sellers with_uuids]
    in Hact, Hphone, Hname, Hchat, Hsl, Hconf.
  rewrite candidate_fits in Hsl. injection Hsl as Hsl. injection Hname as Hname.
  apply bind_returns_inv in H as (r & w4 & Hlog & H).
  rewrite log_action_runs in Hlog. injection Hlog as _ <-.
  apply bind_returns_inv in H as (b & w5 & Hsend & H).
  injection H as <- <-.
  unfold send_welcome_message in Hsend.
  match type of Hsend with send_text_message ?E ?t ?n ?v = _ =>
    pose proof (send_text_message_delivers E t n v) as Hd
  end.
  rewrite Hsend in Hd. cbn in Hd.
  rewrite (dl_sellers _ _ Hd), sellers_logged. cbn. rewrite Hs1.
  rewrite Hs1 in Hconf.
  split; [done |]. split; [done |]. split; [done |]. split; [done |].
  split; [done |]. split; [done |]. rewrite <- Hsl. split; [done | by exists k].
Qed.

(** What [register_seller] has done when it returns. *)
Lemma register_seller_returns E fuel phone name chat w s w' :
  register_seller E fuel phone name chat w = Returns s w' →
  List.find (fun x => py_eqb (Seller.phone_number x) phone) (sellers w) = None
  ∧ sellers w' = sellers w ++ [s]
  ∧ products w' = products w
  ∧ varchar (dialect E) 20 phone = Some (Seller.phone_number s)
  ∧ varchar_null (dialect E) 100 name = Some (Seller.name s)
  ∧ varchar_null (dialect E) 100 chat = Some (Seller.whatsapp_chat_id s)
  ∧ Seller.is_active s = true
  ∧ existsb (seller_conflicts s) (sellers w) = false
  ∧ slug_free w (Seller.catalog_slug s)
  ∧ ∃ k, Seller.catalog_slug s = candidate E w k.
Proof.
  unfold register_seller. intros H.
  apply bind_returns_inv in H as (existing & w0 & Hq & H).
  unfold query_seller_by_phone, gets in Hq. injection Hq as <- <-.
  destruct (List.find _ (sellers w)) eqn:Hfind; [done |].
  apply bind_returns_inv in H as (slug & w1 & Hslug & H).
  pose proof (unique_slug_same_products E fuel w) as Hsame. rewrite Hslug in Hsame.
  apply unique_slug_returns_free in Hslug as (Hs1 & Hfree & k & ->).
  apply bind_returns_inv in H as (sid & w2 & Hid & H).
  injection Hid as <- <-.
  apply bind_returns_inv in H as (row & w3 & Hadd & H).
  apply add_seller_returns in Hadd as (Hrow & Hconf & ->).
  apply stored_seller_fields in Hrow as (_ & Hact & Hphone & Hname & Hchat & Hsl).
  cbn [Seller.id Seller.phone_number Seller.name Seller.whatsapp_chat_id
       Seller.catalog_slug Seller.is_active sellers with_uuids]
    in Hact, Hphone, Hname, Hchat, Hsl, Hconf.
  rewrite candidate_fits in Hsl. injection Hsl as Hsl.
  apply bind_returns_inv in H as (r & w4 & Hlog & H).
  rewrite log_action_runs in Hlog. injection Hlog as _ <-.
  injection H as <- <-.
  rewrite sellers_logged, products_logged. cbn. rewrite Hs1. rewrite Hs1 in Hconf.
  split; [done |]. split; [done |]. split; [exact Hsame |]. split; [done |].
  split; [done |]. split; [done |]. split; [done |]. split; [done |].
  rewrite <- Hsl. split; [done | by exists k].
Qed.

Lemma auto_register_seller_assigns_free E fuel phone w s w' :
  auto_register_seller E fuel phone w = Returns s w' →
  slug_free w (Seller.catalog_slug s) ∧ s ∈ sellers w'
  ∧ ∃ k, Seller.catalog_slug s = candidate E w k.
Proof.
  intros H. apply auto_register_seller_returns in H
    as (Hs & _ & _ & _ & _ & _ & Hfree & Hcand).
  split; [done |]. split; [| done]. rewrite Hs. apply elem_of_app. right. by left.
Qed.

Lemma register_seller_assigns_free E fuel phone name chat w s w' :
  register_seller E fuel phone name chat w = Returns s w' →
  slug_free w (Seller.catalog_slug s) ∧ s ∈ sellers w'.
Proof.
  intros H. apply register_seller_returns in H
    as (_ & Hs & _ & _ & _ & _ & _ & _ & Hfree & _).
  split; [done |]. rewrite Hs. apply elem_of_app. right. by left.
Qed.

(** C8, as the code has it.  A slug is eight characters, each taken from
    the thirty-six lower-case letters and digits by [secrets.choice] (the
    random source is a parameter here; nothing is claimed of its
    distribution).  The loop re-draws while a seller holds the candidate.
    It has no cap and no failure: it never raises; what it returns is a
    candidate that no seller holds; and it returns the first such candidate
    as soon as the loop is allowed to reach it.  A seller that
    [auto_register_seller] or [register_seller] creates carries a slug that
    no seller held when the handler was entered, the table of sellers being
    untouched until the new row is written. *)
Theorem catalog_slug_retried_until_free (E : Env) (w : World) :
  (∀ pos, length (drawn E pos 8) = 8%nat
          ∧ Forall (fun c => c ∈ slug_alphabet) (drawn E pos 8))
  ∧ (∀ fuel e w', unique_slug E fuel w ≠ Raises e w')
  ∧ (∀ fuel s w', unique_slug E fuel w = Returns s w' →
       sellers w' = sellers w ∧ slug_free w s ∧ ∃ k, s = candidate E w k)
  ∧ (∀ k fuel, (k < fuel)%nat →
       (∀ j, (j < k)%nat → ¬ slug_free w (candidate E w j)) →
       slug_free w (candidate E w k) →
       ∃ w', unique_slug E fuel w = Returns (candidate E w k) w'
             ∧ sellers w' = sellers w)
  ∧ (∀ fuel phone s w', auto_register_seller E fuel phone w = Returns s w' →
       slug_free w (Seller.catalog_slug s) ∧ s ∈ sellers w')
  ∧ (∀ fuel phone name chat s w',
       register_seller E fuel phone name chat w = Returns s w' →
       slug_free w (Seller.catalog_slug s) ∧ s ∈ sellers w').
Proof.
  split; [| split; [| split; [| split; [| split]]]].
  - intros pos. split; [apply drawn_length | apply drawn_alphabet].
  - intros fuel e w'. apply unique_slug_never_raises.
  - intros fuel s w'. apply unique_slug_returns_free.
  - intros k fuel Hk Hbusy Hfree. by apply unique_slug_finds.
  - intros fuel phone s w' H.
    apply auto_register_seller_assigns_free in H as (? & ? & _). done.
  - intros fuel phone name chat s w'. apply register_seller_assigns_free.
Qed.

Lemma catalog_slug_retried_until_free_witness :
  ∃ w', unique_slug Demo.all_ok 1 Demo.world = Returns (py "abcdefgh") w'
        ∧ sellers w' = sellers Demo.world.
Proof.
  destruct (catalog_slug_retried_until_free Demo.all_ok Demo.world)
    as (_ & _ & _ & Hfinds & _).
  apply (Hfinds O 1%nat); [lia | intros j Hj; lia | reflexivity].
Defined.

Lemma stuck_retry_spins fuel : ∀ w,
  sellers w = sellers Demo.crowded →
  retry_slug Demo.stuck fuel (py "aaaaaaaa") w = Spins.
Proof.
  induction fuel as [| fuel IH]; intros w Hs; cbn [retry_slug]; [done |].
  unfold query_seller_by_slug. run. rewrite Hs.
  change (List.find _ (sellers Demo.crowded)) with (Some Demo.bob). cbn beta iota.
  unfold generate_catalog_slug.
  destruct (choices_runs Demo.stuck 8 w) as (w1 & Hrun & Hs1 & _).
  rewrite Hrun. apply IH. congruence.
Qed.

(** C8 as stated fails: there is no cap.  With a random source that keeps
    drawing the slug of an existing seller the loop is still running after
    any number of turns; it neither returns nor fails. *)
Lemma slug_retry_has_no_cap :
  ¬ slug_free Demo.crowded (py "aaaaaaaa")
  ∧ candidate Demo.stuck Demo.crowded 0 = py "aaaaaaaa"
  ∧ spins_forever (unique_slug Demo.stuck) Demo.crowded
  ∧ spins_forever (fun fuel => auto_register_seller Demo.stuck fuel (py "15550001111"))
      Demo.crowded.
Proof.
  assert (Hspin : spins_forever (unique_slug Demo.stuck) Demo.crowded).
  { intros fuel. unfold unique_slug, generate_catalog_slug, mbind, M_bind.
    destruct (choices_runs Demo.stuck 8 Demo.crowded) as (w1 & Hrun & Hs1 & _).
    rewrite Hrun. by apply stuck_retry_spins. }
  split; [intros H; discriminate H |]. split; [reflexivity |].
  split; [exact Hspin |].
  intros fuel. unfold auto_register_seller. apply bind_spins, Hspin.
Qed.

(** ** Phone numbers and deep links *)

Lemma sub_class_is_filter (p : N -> bool) (s : pystr) :
  re_sub_empty (Cls p) s = List.filter (fun c => negb (p c)) s.
Proof.
  unfold re_sub_empty. induction s as [| c t IH]; [done |].
  cbn [sub_from List.filter]. unfold match_at. cbn [match_re].
  destruct (p c); cbn [negb m_end].
  - replace (0 + (length (c :: t) - length t))%nat with 1%nat by (cbn; lia).
    exact IH.
  - by rewrite IH.
Qed.

Lemma filter_ext_bool {A} (f g : A -> bool) (l : list A) :
  (∀ x, f x = g x) → List.filter f l = List.filter g l.
Proof. intros H. induction l as [| a l IH]; cbn; [done |]. by rewrite H, IH. Qed.

Lemma format_phone_number_digits (phone : pystr) :
  _format_phone_number phone =
    let digits := List.filter is_decimal phone in
    if (length digits =? 10)%nat then py "1" ++ digits else digits.
Proof.
  unfold _format_phone_number. rewrite sub_class_is_filter.
  rewrite (filter_ext_bool _ is_decimal); [done |].
  intros c. unfold is_not_decimal. by destruct (is_decimal c).
Qed.

Lemma filter_all {A} (f : A -> bool) (l : list A) :
  Forall (fun x => f x = true) (List.filter f l).
Proof.
  induction l as [| a l IH]; cbn; [constructor |].
  destruct (f a) eqn:Hf; [by constructor | done].
Qed.

Lemma hex_value_digit d : d < 16 → hex_value (hex_digit d) = d.
Proof.
  intros Hd. unfold hex_value, hex_digit.
  destruct (d <? 10) eqn:H10.
  - apply N.ltb_lt in H10.
    replace ((0x30 <=? 0x30 + d) && (0x30 + d <=? 0x39)) with true; [lia |].
    symmetry. apply andb_true_iff. split; apply N.leb_le; lia.
  - apply N.ltb_ge in H10.
    replace ((0x30 <=? 0x41 + (d - 10)) && (0x41 + (d - 10) <=? 0x39)) with false;
      [lia |].
    symmetry. apply andb_false_iff. right. apply N.leb_gt. lia.
Qed.

Lemma unquote_quote_bytes (bs : list N) :
  Forall (fun b => b < 256) bs → unquote_to_bytes (quote_from_bytes bs) = bs.
Proof.
  unfold unquote_to_bytes, quote_from_bytes.
  induction 1 as [| b bs Hb _ IH]; [done |].
  cbn [fmap list_fmap concat]. unfold quote_byte at 1.
  destruct (quote_safe b) eqn:Hsafe.
  - cbn [app unquote_from].
    assert (Hne : (b =? 0x25) = false).
    { apply N.eqb_neq. intros ->. discriminate Hsafe. }
    rewrite Hne. f_equal. exact IH.
  - cbn [app unquote_from]. cbn [N.eqb Pos.eqb].
    rewrite !hex_value_digit.
    + f_equal; [| exact IH].
      pose proof (N.div_mod b 16). lia.
    + apply N.mod_lt. lia.
    + apply N.Div0.div_lt_upper_bound. lia.
Qed.

Lemma utf8_char_bytes c bs : utf8_char c = Some bs → Forall (fun b => b < 256) bs.
Proof.
  unfold utf8_char.
  destruct (c <? 0x80) eqn:H1; [intros [= <-]; apply N.ltb_lt in H1;
    repeat constructor; lia |].
  destruct (c <? 0x800) eqn:H2.
  { intros [= <-]. apply N.ltb_lt in H2.
    assert (c / 0x40 < 0x20) by (apply N.Div0.div_lt_upper_bound; lia).
    pose proof (N.mod_lt c 0x40). repeat constructor; lia. }
  destruct (c <? 0x10000) eqn:H3.
  { destruct (_ && _); [done |]. intros [= <-]. apply N.ltb_lt in H3.
    assert (c / 0x1000 < 0x10) by (apply N.Div0.div_lt_upper_bound; lia).
    pose proof (N.mod_lt (c / 0x40) 0x40). pose proof (N.mod_lt c 0x40).
    repeat constructor; lia. }
  destruct (c <? 0x110000) eqn:H4; [| done].
  intros [= <-]. apply N.ltb_lt in H4.
  assert (c / 0x40000 < 0x8) by (apply N.Div0.div_lt_upper_bound; lia).
  pose proof (N.mod_lt (c / 0x1000) 0x40). pose proof (N.mod_lt (c / 0x40) 0x40).
  pose proof (N.mod_lt c 0x40). repeat constructor; lia.
Qed.

Lemma utf8_encode_bytes s bs : utf8_encode s = Some bs → Forall (fun b => b < 256) bs.
Proof.
  revert bs. induction s as [| c t IH]; intros bs; cbn [utf8_encode].
  - intros [= <-]. constructor.
  - destruct (utf8_char c) as [b |] eqn:Hc; [| done].
    destruct (utf8_encode t) as [bt |]; [| done].
    intros [= <-]. apply Forall_app. split; [by eapply utf8_char_bytes | by apply IH].
Qed.

(** C9, as the code has it.  The phone number is reduced to its decimal
    digits, in order, and a ["1"] is put in front exactly when there are ten
    of them.  For a message that is not empty the link is
    [https://wa.me/<digits>?text=<quoted>], where [<quoted>] is the
    percent-encoding of the message's UTF-8 bytes (decoding it gives the
    bytes back); a message holding a lone surrogate cannot be encoded and
    raises.  For an empty or absent message the link is
    [https://wa.me/<digits>], without a query. *)
Theorem deep_link_format (phone_number : pystr) (message : option pystr) :
  let digits := List.filter is_decimal phone_number in
  let number := if (length digits =? 10)%nat then py "1" ++ digits else digits in
  _format_phone_number phone_number = number
  ∧ Forall (fun c => is_decimal c = true) digits
  ∧ match message with
    | Some (c :: m) =>
        match utf8_encode (c :: m) with
        | Some bytes =>
            ∃ quoted,
              generate_whatsapp_deep_link phone_number message
                = Return (py "https://wa.me/" ++ number ++ py "?text=" ++ quoted)
              ∧ quote (c :: m) = Return quoted
              ∧ unquote_to_bytes quoted = bytes
        | None =>
            generate_whatsapp_deep_link phone_number message
              = Raise UnicodeEncodeError
        end
    | Some [] | None =>
        generate_whatsapp_deep_link phone_number message
          = Return (py "https://wa.me/" ++ number)
    end.
Proof.
  intros digits number.
  assert (Hnum : _format_phone_number phone_number = number)
    by apply format_phone_number_digits.
  split; [exact Hnum |]. split; [apply filter_all |].
  unfold generate_whatsapp_deep_link. rewrite Hnum.
  destruct message as [[| c m] |]; [done | | done].
  unfold quote. destruct (utf8_encode (c :: m)) as [bytes |] eqn:Henc; [| done].
  exists (quote_from_bytes bytes). split; [done |]. split; [done |].
  apply unquote_quote_bytes. by eapply utf8_encode_bytes.
Qed.

(** C9 as stated fails for the empty message: the link has no [?text=]. *)
Lemma deep_link_of_empty_message_has_no_query :
  generate_whatsapp_deep_link (py "(555) 123-4567") (Some [])
    = Return (py "https://wa.me/15551234567")
  ∧ quote [] = Return []
  ∧ generate_whatsapp_deep_link (py "(555) 123-4567") (Some [])
    ≠ Return (py "https://wa.me/15551234567?text=").
Proof. split; [reflexivity |]. split; [reflexivity |]. intros H. discriminate H. Qed.

Example deep_link_of_greeting :
  generate_whatsapp_deep_link (py "+44 20 7946 0958") (Some (py "Hi! Is it available?"))
    = Return (py "https://wa.me/442079460958?text=Hi%21%20Is%20it%20available%3F").
Proof. reflexivity. Qed.

(** ** Caption parsing *)

Lemma take_drop_while {A} (p : A -> bool) (l : list A) :
  take_while p l ++ drop_while p l = l.
Proof.
  induction l as [| a l IH]; cbn; [done |]. destruct (p a); cbn; [by rewrite IH | done].
Qed.

Lemma span_suffix (pre rest : pystr) : span (pre ++ rest) rest = pre.
Proof.
  unfold span. rewrite length_app.
  replace (length pre + length rest - length rest)%nat with (length pre) by lia.
  by rewrite take_app_length.
Qed.

Lemma span_price_token inp : span inp (price_token_end inp) = price_token inp.
Proof.
  unfold price_token_end, price_token.
  pose proof (take_drop_while is_decimal inp) as Hsplit.
  destruct (drop_while is_decimal inp) as [| d [| a [| b rest]]] eqn:Hdrop;
    try (rewrite <- Hsplit at 1; apply span_suffix).
  destruct (is_dot d && is_decimal a && is_decimal b).
  - rewrite <- Hsplit at 1.
    replace (take_while is_decimal inp ++ d :: a :: b :: rest)
      with ((take_while is_decimal inp ++ [d; a; b]) ++ rest)
      by by rewrite <- app_assoc.
    apply span_suffix.
  - rewrite <- Hsplit at 1. apply span_suffix.
Qed.

Section Greedy.
Context {R : Type} (k : pystr -> capture -> option R).
Hypothesis k_total : ∀ i g, is_Some (k i g).

Lemma match_star_greedy p inp g : match_star p inp g k = k (drop_while p inp) g.
Proof using k_total.
  induction inp as [| c t IH]; cbn; [done |].
  destruct (p c); [| done]. rewrite IH.
  by destruct (k_total (drop_while p t) g) as [r ->].
Qed.
End Greedy.

Lemma decimal_group_runs {R} (k : pystr -> capture -> option R) inp g :
  (∀ i g, is_Some (k i g)) →
  match_re (Grp (Cat (Plus is_decimal)
                     (Opt (Cat (Cls is_dot) (Cat (Cls is_decimal) (Cls is_decimal))))))
           inp g k
  = if head_is_decimal inp
    then k (price_token_end inp) (Some (inp, price_token_end inp))
    else None.
Proof.
  intros Hk. cbn [match_re]. destruct inp as [| c t]; [done |]. cbn [head_is_decimal].
  destruct (is_decimal c) eqn:Hc; [| done].
  rewrite match_star_greedy.
  - unfold price_token_end. cbn [drop_while]. rewrite Hc.
    destruct (drop_while is_decimal t) as [| d [| a [| b rest]]]; cbn.
    + done.
    + by destruct (is_dot d).
    + destruct (is_dot d); [| done]. by destruct (is_decimal a).
    + destruct (is_dot d); cbn; [| done].
      destruct (is_decimal a); cbn; [| done].
      destruct (is_decimal b); cbn; [| done].
      by destruct (Hk rest (Some (c :: t, rest))) as [r ->].
  - intros i g'.
    match goal with |- is_Some (match ?x with _ => _ end) => destruct x end;
      [by eexists | apply Hk].
Qed.

Lemma currency_not_decimal c : is_currency c = true → is_decimal c = false.
Proof.
  unfold is_currency. intros H.
  apply orb_true_iff in H as [H | H]; [apply orb_true_iff in H as [H | H] |];
    apply N.eqb_eq in H; subst c; reflexivity.
Qed.

Lemma match_at_price pos inp :
  found <$> match_at price_re pos inp =
    match inp with
    | [] => None
    | c :: t =>
        if is_currency c && head_is_decimal t then Some (pos, Some (price_token t))
        else if is_decimal c then Some (pos, Some (price_token inp))
        else None
    end.
Proof.
  unfold match_at, price_re.
  set (G := Grp _). cbn [match_re]. subst G.
  destruct inp as [| c t].
  - rewrite decimal_group_runs by (intros; by eexists). done.
  - rewrite (decimal_group_runs _ (c :: t)) by (intros; by eexists).
    cbn [head_is_decimal].
    destruct (is_currency c) eqn:Hcur; cbn [andb].
    + rewrite (decimal_group_runs _ t) by (intros; by eexists).
      rewrite (currency_not_decimal c Hcur).
      destruct (head_is_decimal t); cbn -[span price_token price_token_end];
        [by rewrite span_price_token | done].
    + destruct (is_decimal c); cbn -[span price_token price_token_end];
        [by rewrite span_price_token | done].
Qed.

Lemma search_price pos inp :
  found <$> search_from price_re pos inp
  = (fun st => (st.1, Some st.2)) <$> first_price pos inp.
Proof.
  revert pos. induction inp as [| c t IH]; intros pos; cbn [search_from first_price].
  - pose proof (match_at_price pos []) as H.
    by destruct (match_at price_re pos []).
  - pose proof (match_at_price pos (c :: t)) as H.
    destruct (match_at price_re pos (c :: t)) as [m |];
      cbn [fmap option_fmap option_map] in H |- *.
    + destruct (is_currency c && head_is_decimal t); [exact H |].
      destruct (is_decimal c); [exact H | done].
    + destruct (is_currency c && head_is_decimal t); [done |].
      destruct (is_decimal c); [done |]. apply IH.
Qed.

Lemma match_at_separator c t :
  m_end <$> match_at separator_re 0 (c :: t)
  = if is_separator c && at_eol t then Some 1%nat else None.
Proof.
  unfold match_at, separator_re. cbn [match_re].
  destruct (is_separator c); [| done]. destruct (at_eol t); [| done].
  cbn [andb fmap option_fmap option_map m_end]. f_equal. cbn. lia.
Qed.

Lemma sub_separator s : re_sub_empty separator_re s = drop_final_separator s.
Proof.
  unfold re_sub_empty. induction s as [| c t IH]; [done |].
  cbn [sub_from drop_final_separator].
  pose proof (match_at_separator c t) as H.
  destruct (match_at separator_re 0 (c :: t)) as [m |],
           (is_separator c && at_eol t) eqn:Hsep;
    cbn [fmap option_fmap option_map] in H; try done.
  - injection H as ->. apply andb_true_iff in Hsep as [_ Heol].
    destruct t as [| n [| ? ?]]; [done | | done].
    cbn in Heol. apply N.eqb_eq in Heol as ->. reflexivity.
  - by rewrite IH.
Qed.

(** The caption parser, read off the pattern: the price is the first
    price-like token, the name is the text before it, stripped, replaced by
    the default if that leaves nothing, then relieved of one final
    separator and stripped again; without a token the name is the first
    fifty characters; an empty or absent caption gives the default name. *)
Theorem parse_caption_reads_first_price (caption : option pystr) :
  parse_caption caption =
    match caption with
    | None | Some [] => (Untitled_Product, None)
    | Some text =>
        match first_price 0 text with
        | Some (start, token) =>
            (strip (drop_final_separator
                      (str_or (strip (take start text)) Untitled_Product)),
             Some token)
        | None => (take 50 text, None)
        end
    end.
Proof.
  destruct caption as [[| c t] |]; [done | | done].
  unfold parse_caption, re_search.
  pose proof (search_price 0 (c :: t)) as H.
  destruct (search_from price_re 0 (c :: t)) as [m |],
           (first_price 0 (c :: t)) as [[start token] |];
    cbn [fmap option_fmap option_map] in H; try done.
  injection H as Hstart Hgroup. unfold found in *. cbn in Hstart, Hgroup.
  by rewrite sub_separator, Hstart, Hgroup.
Qed.

(** Whenever all that stands before the price is one separator (and
    blanks), the name comes out empty, not as the default. *)
Lemma lone_separator_gives_empty_name text start token sep :
  text ≠ [] →
  first_price 0 text = Some (start, token) →
  strip (take start text) = [sep] →
  is_separator sep = true →
  parse_caption (Some text) = ([], Some token).
Proof.
  intros Hne Hfp Hpre Hsep. rewrite parse_caption_reads_first_price.
  destruct text as [| c t]; [done |]. rewrite Hfp, Hpre. cbn. by rewrite Hsep.
Qed.

(** C3, at the failing input.  For the caption ["- $5"] the price token is
    [5] and the text before it, trimmed of blanks and of its separator, is
    empty; the name the code produces is the empty string, not
    ["Untitled Product"]: the default is applied before the separator is
    removed. *)
Theorem caption_of_separator_and_price :
  first_price 0 (py "- $5") = Some (2%nat, py "5")
  ∧ strip (take 2 (py "- $5")) = py "-"
  ∧ parse_caption (Some (py "- $5")) = ([], Some (py "5"))
  ∧ parse_caption (Some (py "- $5")) ≠ (Untitled_Product, Some (py "5")).
Proof.
  assert (Hfp : first_price 0 (py "- $5") = Some (2%nat, py "5")) by reflexivity.
  assert (Hpre : strip (take 2 (py "- $5")) = py "-") by reflexivity.
  assert (Hrun : parse_caption (Some (py "- $5")) = ([], Some (py "5"))).
  { apply (lone_separator_gives_empty_name _ 2%nat _ 0x2D); done. }
  split; [exact Hfp |]. split; [exact Hpre |]. split; [exact Hrun |].
  rewrite Hrun. intros H. discriminate H.
Qed.

Example caption_red_shoes :
  parse_caption (Some (py "Red Shoes $45.99")) = (py "Red Shoes", Some (py "45.99")).
Proof. reflexivity. Qed.

Example caption_without_price :
  parse_caption (Some (py "Great watch, barely used"))
    = (py "Great watch, barely used", None).
Proof. reflexivity. Qed.

Example caption_absent : parse_caption None = (py "Untitled Product", None).
Proof. reflexivity. Qed.

Example caption_two_separators :
  parse_caption (Some (py "Shoes -- $5")) = (py "Shoes -", Some (py "5")).
Proof. reflexivity. Qed.

(** * Further properties

    Properties of the code beyond the ten claims: of the functions above
    that the claims leave out, and of the claimed ones where the claims say
    nothing. *)

(** ** Phone numbers, again *)

Lemma filter_id_Forall {A} (f : A -> bool) (l : list A) :
  Forall (fun x => f x = true) l → List.filter f l = l.
Proof.
  induction 1 as [| a l Ha _ IH]; cbn; [done |]. by rewrite Ha, IH.
Qed.

(** X1.  Whatever it is given, [_format_phone_number] returns decimal
    digits only, and never exactly ten of them; formatting a formatted
    number again changes nothing. *)
Theorem format_phone_number_idempotent (phone : pystr) :
  let number := _format_phone_number phone in
  Forall (fun c => is_decimal c = true) number
  ∧ length number ≠ 10%nat
  ∧ _format_phone_number number = number.
Proof.
  cbn zeta. rewrite (format_phone_number_digits phone). cbn zeta.
  set (digits := List.filter is_decimal phone).
  assert (Hd : Forall (fun c => is_decimal c = true) digits) by apply filter_all.
  set (number := if (length digits =? 10)%nat then py "1" ++ digits else digits).
  assert (Hn : Forall (fun c => is_decimal c = true) number).
  { subst number. destruct (length digits =? 10)%nat; [| done].
    apply Forall_app. split; [| done]. by repeat constructor. }
  assert (Hl : length number ≠ 10%nat).
  { subst number. destruct (length digits =? 10)%nat eqn:Hten.
    - apply Nat.eqb_eq in Hten. rewrite length_app, Hten. cbn. lia.
    - by apply Nat.eqb_neq in Hten. }
  split; [exact Hn |]. split; [exact Hl |].
  rewrite format_phone_number_digits. cbn zeta.
  rewrite (filter_id_Forall _ _ Hn).
  apply Nat.eqb_neq in Hl. by rewrite Hl.
Qed.

(** ** Deep links, again *)

Lemma hex_digit_safe d : d < 16 → quote_safe (hex_digit d) = true.
Proof.
  intros Hd. unfold quote_safe, hex_digit.
  destruct (d <? 10) eqn:H10;
    [apply N.ltb_lt in H10 | apply N.ltb_ge in H10];
    rewrite !orb_true_iff, !andb_true_iff, !N.leb_le, !N.eqb_eq; lia.
Qed.

Lemma quote_from_bytes_url_chars (bs : list N) :
  Forall (fun b => b < 256) bs →
  Forall (fun c => url_char c = true) (quote_from_bytes bs).
Proof.
  unfold quote_from_bytes. induction 1 as [| b bs Hb _ IH]; [constructor |].
  cbn [fmap list_fmap concat]. apply Forall_app. split; [| exact IH].
  unfold quote_byte. destruct (quote_safe b) eqn:Hsafe.
  - repeat constructor. unfold url_char. by rewrite Hsafe.
  - repeat constructor; unfold url_char.
    + rewrite hex_digit_safe; [done |]. apply N.Div0.div_lt_upper_bound. lia.
    + rewrite hex_digit_safe; [done |]. apply N.mod_lt. lia.
Qed.

Lemma utf8_char_encodable c : is_Some (utf8_char c) ↔ encodable c = true.
Proof.
  unfold utf8_char, encodable.
  destruct (c <? 0x80) eqn:H1; [apply N.ltb_lt in H1 | apply N.ltb_ge in H1].
  { split; [intros _ | by eexists].
    rewrite andb_true_iff, negb_true_iff, andb_false_iff, N.leb_gt, N.ltb_lt. lia. }
  destruct (c <? 0x800) eqn:H2; [apply N.ltb_lt in H2 | apply N.ltb_ge in H2].
  { split; [intros _ | by eexists].
    rewrite andb_true_iff, negb_true_iff, andb_false_iff, N.leb_gt, N.ltb_lt. lia. }
  destruct (c <? 0x10000) eqn:H3; [apply N.ltb_lt in H3 | apply N.ltb_ge in H3].
  { destruct ((0xD800 <=? c) && (c <=? 0xDFFF)) eqn:Hs; cbn.
    - split; [by intros [? ?] | done].
    - split; [intros _; apply N.ltb_lt; lia | by eexists]. }
  destruct (c <? 0x110000) eqn:H4.
  - split; [intros _ | by eexists].
    rewrite andb_true_iff, negb_true_iff, andb_false_iff, !N.leb_gt.
    split; [lia | reflexivity].
  - split; [by intros [? ?] |]. by rewrite andb_false_r.
Qed.

Lemma utf8_encode_Some s bs :
  utf8_encode s = Some bs → Forall (fun c => encodable c = true) s.
Proof.
  revert bs. induction s as [| c t IH]; intros bs; cbn [utf8_encode]; [constructor |].
  destruct (utf8_char c) as [b |] eqn:Hc; [| done].
  destruct (utf8_encode t) as [bt |]; [| done]. intros _.
  constructor; [apply utf8_char_encodable; by eexists | by eapply IH].
Qed.

Lemma utf8_encode_None s :
  utf8_encode s = None → Exists (fun c => encodable c = false) s.
Proof.
  induction s as [| c t IH]; cbn [utf8_encode]; [done |].
  destruct (utf8_char c) as [b |] eqn:Hc.
  - destruct (utf8_encode t) as [bt |]; [done |]. intros _. right. by apply IH.
  - intros _. left. destruct (encodable c) eqn:He; [| done].
    apply utf8_char_encodable in He as [? He]. congruence.
Qed.

(** X2.  The link [generate_whatsapp_deep_link] returns for a message is
    [https://wa.me/], the formatted number and, unless the message is
    empty, [?text=] followed by characters that are all URL-safe: ASCII
    letters and digits, [_ . - ~ /] and the percent sign.  It raises only
    a [UnicodeEncodeError], and only for a message that holds a code point
    UTF-8 cannot encode (a surrogate). *)
Theorem deep_link_text_is_url_safe (phone_number message : pystr) :
  match generate_whatsapp_deep_link phone_number (Some message) with
  | Return link =>
      Forall (fun c => encodable c = true) message
      ∧ ∃ quoted,
          quote message = Return quoted
          ∧ Forall (fun c => url_char c = true) quoted
          ∧ link = py "https://wa.me/" ++ _format_phone_number phone_number
                   ++ match message with
                      | [] => []
                      | _ => py "?text=" ++ quoted
                      end
  | Raise e =>
      e = UnicodeEncodeError ∧ Exists (fun c => encodable c = false) message
  end.
Proof.
  unfold generate_whatsapp_deep_link.
  destruct message as [| c m].
  { split; [constructor |]. exists []. split; [done |]. split; [constructor |].
    by rewrite app_nil_r. }
  unfold quote. destruct (utf8_encode (c :: m)) as [bs |] eqn:Henc.
  - split; [by eapply utf8_encode_Some |].
    exists (quote_from_bytes bs). split; [done |]. split; [| done].
    apply quote_from_bytes_url_chars. by eapply utf8_encode_bytes.
  - split; [done |]. by apply utf8_encode_None.
Qed.

(** ** Captions, again *)

Lemma first_price_None pos inp :
  first_price pos inp = None ↔ Forall (fun c => is_decimal c = false) inp.
Proof.
  revert pos. induction inp as [| c t IH]; intros pos; cbn [first_price].
  - split; [constructor | done].
  - destruct (is_currency c && head_is_decimal t) eqn:Hcur.
    + split; [done |]. intros H. apply Forall_cons in H as [_ Ht].
      apply andb_true_iff in Hcur as [_ Hh].
      destruct t as [| d t']; [done |]. cbn in Hh.
      apply Forall_cons in Ht as [Hd _]. congruence.
    + destruct (is_decimal c) eqn:Hc.
      * split; [done |]. intros H. apply Forall_cons in H as [H _]. congruence.
      * rewrite IH. split; [by constructor | by intros [_ ?]%Forall_cons].
Qed.

Lemma price_token_prefix inp : ∃ rest, inp = price_token inp ++ rest.
Proof.
  unfold price_token. pose proof (take_drop_while is_decimal inp) as Hsplit.
  destruct (drop_while is_decimal inp) as [| d [| a [| b rest]]] eqn:Hdrop;
    try (eexists; by rewrite Hsplit).
  destruct (is_dot d && is_decimal a && is_decimal b).
  - exists rest. rewrite <- Hsplit at 1. by rewrite <- app_assoc.
  - eexists. by rewrite Hsplit.
Qed.

Lemma price_token_head d t :
  is_decimal d = true → ∃ rest, price_token (d :: t) = d :: rest.
Proof.
  intros Hd. unfold price_token. cbn [take_while drop_while]. rewrite Hd.
  destruct (drop_while is_decimal t) as [| x [| a [| b rest]]];
    try (by eexists).
  destruct (is_dot x && is_decimal a && is_decimal b); by eexists.
Qed.

Lemma first_price_Some pos inp start token :
  first_price pos inp = Some (start, token) →
  ∃ before after d rest,
    inp = before ++ token ++ after ∧ token = d :: rest ∧ is_decimal d = true.
Proof.
  revert pos. induction inp as [| c t IH]; intros pos; cbn [first_price]; [done |].
  destruct (is_currency c && head_is_decimal t) eqn:Hcur.
  - intros [= _ <-]. apply andb_true_iff in Hcur as [_ Hh].
    destruct t as [| d t']; [done |]. cbn in Hh.
    destruct (price_token_prefix (d :: t')) as [after Ha].
    destruct (price_token_head d t' Hh) as [rest Hr].
    exists [c], after, d, rest. split; [| by split].
    cbn. by rewrite <- Ha.
  - destruct (is_decimal c) eqn:Hc.
    + intros [= _ <-].
      destruct (price_token_prefix (c :: t)) as [after Ha].
      destruct (price_token_head c t Hc) as [rest Hr].
      exists [], after, c, rest. split; [| by split]. cbn. by rewrite <- Ha.
    + intros H. apply IH in H as (before & after & d & rest & -> & Htok & Hd).
      exists (c :: before), after, d, rest. by repeat split.
Qed.

(** X3.  The caption parser finds a price exactly when the caption holds a
    decimal digit, wherever it stands: a caption without digits gets no
    price and its first fifty characters as the name (the default name
    when it is empty), and when a price is found its text is a piece of
    the caption that begins with a digit. *)
Theorem caption_has_price_iff_digit (text : pystr) :
  let result := parse_caption (Some text) in
  (result.2 = None ↔ Forall (fun c => is_decimal c = false) text)
  ∧ (result.2 = None →
     result.1 = match text with [] => Untitled_Product | _ => take 50 text end)
  ∧ (∀ token, result.2 = Some token →
       ∃ before after d rest,
         text = before ++ token ++ after ∧ token = d :: rest
         ∧ is_decimal d = true).
Proof.
  cbn zeta. rewrite parse_caption_reads_first_price.
  destruct text as [| c t].
  { cbn. split; [split; [constructor | done] |]. split; [done | by intros ? [=]]. }
  destruct (first_price 0 (c :: t)) as [[start token] |] eqn:Hfp; cbn [fst snd].
  - split; [| split; [done |]].
    + split; [done |]. intros H. apply first_price_None with (pos := 0%nat) in H.
      congruence.
    + intros tok [= <-]. by eapply first_price_Some.
  - split; [| split; [done | by intros ? [=]]].
    split; [intros _; by eapply first_price_None | done].
Qed.

(** ** Removing and restoring, composed *)

Lemma action_logs_logged E l w :
  action_logs (logged E l w) = action_logs w ++ accepted E (log_writes w) [l].
Proof.
  unfold logged. cbn [accepted].
  destruct (audit_commit_ok E (log_writes w)); cbn; by rewrite ?app_nil_r.
Qed.

Lemma log_writes_logged E l w : log_writes (logged E l w) = S (log_writes w).
Proof. unfold logged. by destruct (audit_commit_ok E (log_writes w)). Qed.

Lemma reinstate_soft_remove now u p :
  Product.is_active p = true → Product.removed_at p = None →
  Product.can_undo_until p = None →
  reinstate (soft_remove now u p) = p.
Proof. destruct p. cbn. by intros -> -> ->. Qed.

(** X4.  Removing an active listing and asking for it back.  [remove]
    leaves the listing REMOVED.  What [restore] then does depends on the
    store.  On SQLite, while the clock reading [restore] takes (the third)
    is before the deadline (the first, plus thirty seconds), the two are a
    round trip: [restore] answers with the row as it was before the removal,
    the table of listings ends exactly as it started, and two audit writes
    are attempted, one PRODUCT_REMOVED and one PRODUCT_RESTORED.  On
    PostgreSQL [restore] raises [TypeError] whatever the clock says: the
    listing stays REMOVED and the undo cannot be had. *)
Theorem remove_then_restore_by_store (E : Env) (w : World) (i : N) (p : Product.t) :
  products w !! i = Some p →
  Product.id p = i →
  Product.is_active p = true →
  Product.removed_at p = None →
  Product.can_undo_until p = None →
  ∃ u w1,
    u = (utcnow_at E (ticks w) + undo_seconds)%Z
    ∧ remove_products E [i] w = Returns (RemovedOK 1 u) w1
    ∧ state_of <$> products w1 !! i = Some REMOVED
    ∧ match dialect E with
      | SQLite =>
          (utcnow_at E (S (S (ticks w))) < u)%Z →
          ∃ w2,
            restore_product E i w1 = Returns (ProductDict p) w2
            ∧ products w2 = products w
            ∧ sellers w2 = sellers w ∧ uploads w2 = uploads w ∧ outbox w2 = outbox w
            ∧ action_logs w2
              = action_logs w
                ++ accepted E (log_writes w) [removed_record u p; restored_record p]
      | PostgreSQL =>
          ∃ w2,
            restore_product E i w1 = Raises TypeError w2
            ∧ products w2 = products w1
            ∧ sellers w2 = sellers w ∧ uploads w2 = uploads w ∧ outbox w2 = outbox w
            ∧ action_logs w2
              = action_logs w ++ accepted E (log_writes w) [removed_record u p]
      end.
Proof.
  intros Hi Hid Ha Hr Hu.
  set (u := (utcnow_at E (ticks w) + undo_seconds)%Z).
  assert (Hhits : hits (products w) [i] = [(i, p)]).
  { unfold hits. cbn. unfold hit. by rewrite Hi, Ha. }
  assert (Hnd : NoDup [i]) by (apply NoDup_singleton).
  rewrite (remove_products_runs E [i] w Hnd). cbn zeta. fold u. rewrite Hhits.
  cbn [length stamp_all after_removals].
  set (sr := soft_remove (utcnow_at E (S (ticks w))) u p).
  set (w1 := with_products _ _).
  assert (H1 : products w1 !! i = Some sr).
  { subst w1. cbn. apply lookup_union_Some_l. by rewrite lookup_insert_eq. }
  assert (Ht : ticks w1 = S (S (ticks w))).
  { subst w1. cbn. by rewrite ticks_logged. }
  assert (Hback : reinstate sr = p) by by apply reinstate_soft_remove.
  exists u, w1.
  split; [reflexivity |]. split; [reflexivity |].
  split; [by rewrite H1 |].
  rewrite restore_product_runs, H1.
  cbn [Product.is_active sr soft_remove Product.can_undo_until]. rewrite Ht.
  destruct (dialect E).
  - eexists. split; [reflexivity |]. subst w1.
    cbn [products sellers uploads action_logs log_writes with_products
           with_ticks outbox].
    rewrite sellers_logged, uploads_logged, action_logs_logged.
    repeat split; try done.
    unfold logged. by destruct (audit_commit_ok E _).
  - intros Hclock. rewrite bool_decide_eq_true_2 by exact Hclock.
    exists (after_restore E sr w1). rewrite Hback. split; [reflexivity |].
    unfold after_restore. rewrite Hback.
    rewrite products_logged, sellers_logged, uploads_logged, action_logs_logged.
    cbn [products sellers uploads action_logs log_writes with_products with_ticks].
    subst w1. cbn [products sellers uploads action_logs log_writes with_products
                     with_ticks outbox].
    rewrite sellers_logged, uploads_logged, action_logs_logged, log_writes_logged.
    cbn. split; [| split; [done | split; [done | split]]].
    + rewrite Hid. apply map_eq. intros k. destruct (decide (k = i)) as [-> |].
      * by rewrite lookup_insert_eq.
      * rewrite lookup_insert_ne by done. rewrite lookup_union_r; [done |].
        by rewrite lookup_insert_ne.
    + unfold logged. by repeat destruct (audit_commit_ok E _).
    + rewrite <- app_assoc. f_equal.
      destruct (audit_commit_ok E (log_writes w)),
               (audit_commit_ok E (S (log_writes w))); reflexivity.
Qed.

Lemma remove_then_restore_by_store_witness :
  (∃ w1 w2,
     remove_products Demo.sqlite [11] Demo.world = Returns (RemovedOK 1 30002000) w1
     ∧ state_of <$> products w1 !! 11 = Some REMOVED
     ∧ restore_product Demo.sqlite 11 w1 = Returns (ProductDict Demo.active) w2
     ∧ products w2 = products Demo.world)
  ∧ (∃ w1 w2,
       remove_products Demo.all_ok [11] Demo.world = Returns (RemovedOK 1 30002000) w1
       ∧ restore_product Demo.all_ok 11 w1 = Raises TypeError w2
       ∧ state_of <$> products w2 !! 11 = Some REMOVED).
Proof.
  split.
  - destruct (remove_then_restore_by_store Demo.sqlite Demo.world 11 Demo.active)
      as (u & w1 & -> & Hrm & Hst & Hrs); try reflexivity.
    cbn [dialect Demo.sqlite Demo.env] in Hrs.
    destruct Hrs as (w2 & Hrun & Hp & _); [reflexivity |].
    by exists w1, w2.
  - destruct (remove_then_restore_by_store Demo.all_ok Demo.world 11 Demo.active)
      as (u & w1 & -> & Hrm & Hst & Hrs); try reflexivity.
    cbn [dialect Demo.all_ok Demo.env] in Hrs.
    destruct Hrs as (w2 & Hrun & Hp & _).
    exists w1, w2. split; [exact Hrm |]. split; [exact Hrun |]. by rewrite Hp.
Defined.

(** ** Button clicks *)

Lemma starts_with_app (old s : pystr) : starts_with old (old ++ s) = true.
Proof. induction old as [| a r IH]; cbn; [done |]. by rewrite N.eqb_refl. Qed.

Lemma starts_with_elem (old s : pystr) c :
  starts_with old s = true → c ∈ old → c ∈ s.
Proof.
  revert s. induction old as [| a r IH]; intros s H Hc; [by apply elem_of_nil in Hc |].
  destruct s as [| b t]; [done |]. cbn in H.
  apply andb_true_iff in H as [Hab Hr]. apply N.eqb_eq in Hab as ->.
  apply elem_of_cons in Hc as [-> | Hc]; [by left | right; by apply IH].
Qed.

Lemma remove_from_skip (old r s : pystr) :
  remove_from old (length r) (r ++ s) = remove_from old 0 s.
Proof. induction r as [| a r IH]; cbn; [by destruct s | exact IH]. Qed.

Lemma remove_from_absent (old s : pystr) c :
  c ∈ old → c ∉ s → remove_from old 0 s = s.
Proof.
  intros Hc. induction s as [| a t IH]; intros Hs; [done |].
  cbn [remove_from].
  destruct (starts_with old (a :: t)) eqn:Hsw.
  - exfalso. apply Hs. by eapply starts_with_elem.
  - f_equal. apply IH. intros Hin. apply Hs. by right.
Qed.

Lemma str_remove_prefix (old s : pystr) c :
  c ∈ old → c ∉ s → str_remove old (old ++ s) = s.
Proof.
  intros Hc Hs. destruct old as [| a r]; [by apply elem_of_nil in Hc |].
  unfold str_remove. change ((a :: r) ++ s) with (a :: (r ++ s)).
  cbn [remove_from].
  change (a :: r ++ s) with ((a :: r) ++ s). rewrite starts_with_app.
  replace (length (a :: r) - 1)%nat with (length r) by (cbn; lia).
  rewrite remove_from_skip.
  by eapply remove_from_absent.
Qed.

Lemma outbox_logged E l w : outbox (logged E l w) = outbox w.
Proof. unfold logged. by destruct (audit_commit_ok E _). Qed.

Lemma send_interactive_buttons_sent E to n bs w w' :
  send_interactive_buttons E to n bs w = Returns true w' →
  outbox w'
  = outbox w
    ++ [mkOutbound (_format_phone_number to)
          (ButtonsPayload n ((fun b => (b.1, String.substring 0 20 b.2))
                               <$> take 3 bs))].
Proof.
  unfold send_interactive_buttons, try_except_http, http_post. run.
  destruct (http_post_at E (http_posts w)) as [mid | e]; cbn.
  - rewrite log_action_runs. cbn. intros [= <-]. by rewrite outbox_logged.
  - by destruct e.
Qed.

Lemma button_click_reply b :
  dict_get (py "button_reply") (JDict []) (button_click b)
  = JDict [(py "id", JStr b); (py "title", JStr [])].
Proof. reflexivity. Qed.

Lemma button_reply_id b :
  dict_get (py "id") (JStr []) [(py "id", JStr b); (py "title", JStr [])] = JStr b.
Proof. reflexivity. Qed.

(** X5.  The buttons of an upload confirmation and the dispatch of a click
    fit together.  When [send_upload_confirmation] succeeds, the last
    message delivered carries exactly two buttons, whose ids are
    [confirm_add_] and [cancel_add_] followed by the text of the listing's
    UUID; and, as that text holds no underscore, a click on the first is
    handled as [confirm_product] with that text and [confirmed = True], a
    click on the second as the same with [confirmed = False].  A click
    whose id has neither prefix, and a message without a button reply, do
    nothing at all. *)
Theorem button_click_reaches_confirm (E : Env) (phone : pystr) (product_id : N) :
  0x5F ∉ uuid_str E product_id →
  (∀ to name url price w w',
     send_upload_confirmation E to name product_id url price w = Returns true w' →
     ∃ before,
       outbox w'
       = before
         ++ [mkOutbound (_format_phone_number to)
               (ButtonsPayload (ConfirmPrompt name)
                  [(add_button E product_id, "Add"%string);
                   (cancel_button E product_id, "Cancel"%string)])])
  ∧ handle_interactive_message E phone (button_click (add_button E product_id))
    = confirm_product E (uuid_str E product_id) phone true
  ∧ handle_interactive_message E phone (button_click (cancel_button E product_id))
    = confirm_product E (uuid_str E product_id) phone false
  ∧ (∀ b w,
       starts_with (py "confirm_add_") b = false →
       starts_with (py "cancel_add_") b = false →
       handle_interactive_message E phone (button_click b) w = Returns tt w)
  ∧ (∀ w, handle_interactive_message E phone
            [(py "type", JStr (py "interactive"))] w = Returns tt w).
Proof.
  intros Hu. split; [| split; [| split; [| split]]].
  - intros to name url price w w' H. unfold send_upload_confirmation in H.
    apply bind_returns_inv in H as (b & w1 & Himg & H).
    destruct b; cbn in H; [| by injection H].
    apply send_interactive_buttons_sent in H. exists (outbox w1). exact H.
  - unfold handle_interactive_message.
    rewrite button_click_reply, button_reply_id. unfold add_button.
    rewrite starts_with_app.
    by rewrite (str_remove_prefix _ _ 0x5F) by (done || by repeat constructor).
  - unfold handle_interactive_message.
    rewrite button_click_reply, button_reply_id. unfold cancel_button.
    change (starts_with (py "confirm_add_") (py "cancel_add_" ++ uuid_str E product_id))
      with false. cbn iota.
    rewrite starts_with_app.
    by rewrite (str_remove_prefix _ _ 0x5F) by (done || by repeat constructor).
  - intros b w H1 H2. unfold handle_interactive_message.
    by rewrite button_click_reply, button_reply_id, H1, H2.
  - intros w. reflexivity.
Qed.

Lemma button_click_reaches_confirm_witness :
  (0x5F ∉ uuid_str Stall.env 10)
  ∧ handle_interactive_message Stall.env (py "15551234567")
      (button_click (add_button Stall.env 10))
    = confirm_product Stall.env (py "010") (py "15551234567") true
  ∧ (∃ w', handle_interactive_message Stall.env (py "15551234567")
             (button_click (add_button Stall.env 10)) Demo.world
           = Returns tt w'
         ∧ state_of <$> products w' !! 10 = Some ACTIVE).
Proof.
  assert (Hu : 0x5F ∉ uuid_str Stall.env 10).
  { apply (bool_decide_unpack (0x5F ∉ uuid_str Stall.env 10)). vm_compute. exact I. }
  destruct (button_click_reaches_confirm Stall.env (py "15551234567") 10 Hu)
    as (_ & Hadd & _).
  split; [exact Hu |]. split; [exact Hadd |].
  rewrite Hadd.
  set (r := confirm_product _ _ _ _ _). vm_compute in r. subst r.
  eexists. split; reflexivity.
Defined.

(** The prefix is deleted wherever it occurs, not only in front: a crafted
    id reaches [confirm_product] with what is left. *)
Example button_id_with_inner_prefix :
  str_remove (py "confirm_add_") (py "confirm_add_12confirm_add_3") = py "123".
Proof. reflexivity. Qed.

(** ** Deleting for good, and editing *)

Lemma elem_of_List_filter {A} (f : A -> bool) (l : list A) (x : A) :
  x ∈ List.filter f l ↔ x ∈ l ∧ f x = true.
Proof. rewrite !list_elem_of_In. apply filter_In. Qed.

(** X6.  [permanently_delete_product] answers 404 for an id without a row
    and then changes nothing.  For a listing that exists, in whatever
    state, it deletes the row, the interests in it and every audit row
    that refers to it (left are exactly the rows unrelated to it, none of
    which names the listing), removes the image if the file system lets
    it, and writes no audit record of its own: no write to the audit store
    is even attempted.  Sellers and messages are untouched. *)
Theorem permanent_delete_leaves_no_trace (E : Env) (w : World) (i : N) :
  match products w !! i with
  | None => permanently_delete_product E i w = Raises product_not_found w
  | Some p =>
      Product.id p = i →
      ∃ w',
        permanently_delete_product E i w
          = Returns (Success (py "Product permanently deleted")) w'
        ∧ products w' = delete i (products w)
        ∧ (∀ k it, interests w' !! k = Some it ↔
             interests w !! k = Some it ∧ Interest.product_id it ≠ i)
        ∧ action_logs w' = List.filter (unrelated_to p w) (action_logs w)
        ∧ (∀ l, l ∈ action_logs w' → ActionLog.product_id l ≠ Some i)
        ∧ uploads w' = (if unlink_ok E (Product.image_path p)
                        then uploads w ∖ {[Product.image_path p]} else uploads w)
        ∧ sellers w' = sellers w ∧ outbox w' = outbox w
        ∧ log_writes w' = log_writes w
  end.
Proof.
  unfold permanently_delete_product. run.
  destruct (products w !! i) as [p |] eqn:Hi; [| done].
  intros Hid. subst i. eexists. split; [reflexivity |].
  assert (Hint : interests
                   (if unlink_ok E (Product.image_path p)
                    then with_uploads (uploads w ∖ {[Product.image_path p]}) w
                    else w) = interests w)
    by by destruct (unlink_ok E _).
  assert (Hlogs : action_logs
                    (if unlink_ok E (Product.image_path p)
                     then with_uploads (uploads w ∖ {[Product.image_path p]}) w
                     else w) = action_logs w)
    by by destruct (unlink_ok E _).
  cbn [products interests action_logs uploads sellers outbox log_writes
       with_products with_interests with_action_logs].
  rewrite Hint, Hlogs.
  split; [by destruct (unlink_ok E _) |].
  split; [| split; [reflexivity |]].
  { intros k it. rewrite map_lookup_filter_Some. cbn. tauto. }
  split; [| by destruct (unlink_ok E _)].
  intros l Hl Hp. apply elem_of_List_filter in Hl as [_ Hl].
  unfold log_refers_to in Hl. rewrite Hp in Hl.
  by rewrite bool_decide_eq_true_2 in Hl.
Qed.

Lemma permanent_delete_leaves_no_trace_witness :
  ∃ w',
    permanently_delete_product Demo.all_ok 11 Demo.world
      = Returns (Success (py "Product permanently deleted")) w'
    ∧ products w' !! 11 = None
    ∧ action_logs w' = [Demo.upload_logged Demo.draft; Demo.upload_logged Demo.removed]
    ∧ log_writes w' = log_writes Demo.world.
Proof.
  destruct (permanent_delete_leaves_no_trace Demo.all_ok Demo.world 11 eq_refl)
    as (w' & Hrun & Hp & _ & Hl & _ & _ & _ & _ & Hw).
  exists w'. split; [exact Hrun |]. split; [by rewrite Hp, lookup_delete_eq |].
  split; [by rewrite Hl | exact Hw].
Defined.

Lemma Product_to_dict_runs E p include_seller w :
  Product_to_dict E p include_seller w =
    let seller := if include_seller then owner_of w p else None in
    match Product.is_active p, Product.can_undo_until p with
    | false, Some deadline =>
        match dialect E with
        | PostgreSQL => Raises TypeError (with_ticks (S (ticks w)) w)
        | SQLite =>
            Returns (product_data E p (bool_decide (utcnow_at E (ticks w) < deadline)%Z)
                       seller)
                    (with_ticks (S (ticks w)) w)
        end
    | _, _ => Returns (product_data E p false seller) w
    end.
Proof.
  unfold Product_to_dict, can_undo, owner_of, product_data. run.
  destruct (Product.is_active p) eqn:Ha; cbn.
  - by destruct include_seller.
  - destruct (Product.can_undo_until p) as [d |]; run; [| by destruct include_seller].
    destruct (dialect E); run; [done | by destruct include_seller].
Qed.

(** [to_dict] either answers, or fails on the deadline of a REMOVED row
    that PostgreSQL gave back; it changes nothing but the clock. *)
Lemma Product_to_dict_ends E p include_seller w :
  match Product_to_dict E p include_seller w with
  | Returns d w' =>
      (dialect E = PostgreSQL → state_of p ≠ REMOVED)
      ∧ (∃ undoable,
           d = product_data E p undoable
                 (if include_seller then owner_of w p else None)
           ∧ (Product.is_active p = true → undoable = false ∧ w' = w))
      ∧ business_eq (with_ticks (ticks w') w) w' ∧ action_logs w' = action_logs w
      ∧ log_writes w' = log_writes w
  | Raises e w' =>
      e = TypeError ∧ dialect E = PostgreSQL ∧ state_of p = REMOVED
      ∧ w' = with_ticks (S (ticks w)) w
  | Spins => False
  end.
Proof.
  rewrite Product_to_dict_runs. cbn zeta. unfold state_of.
  destruct (Product.is_active p); [| destruct (Product.can_undo_until p)];
    [| destruct (dialect E) |]; repeat split; try done; by eexists.
Qed.




(** ** Deleting a seller *)

Lemma delete_all_runs ps w :
  foldM (fun _ product => delete_product product) tt ps w
  = Returns tt (without_products ps w).
Proof.
  revert w. induction ps as [| p ps IH]; intros w; [done |].
  cbn [foldM without_products]. unfold mbind, M_bind.
  change (delete_product p w) with (Returns tt (without_product p w)).
  cbn iota. apply IH.
Qed.

Lemma without_products_frame ps w :
  sellers (without_products ps w) = sellers w
  ∧ uploads (without_products ps w) = uploads w
  ∧ outbox (without_products ps w) = outbox w
  ∧ log_writes (without_products ps w) = log_writes w.
Proof.
  revert w. induction ps as [| p ps IH]; intros w; [done |].
  cbn [without_products]. by destruct (IH (without_product p w)) as (-> & -> & -> & ->).
Qed.

Lemma products_without_products ps w i p :
  products (without_products ps w) !! i = Some p ↔
  products w !! i = Some p ∧ i ∉ Product.id <$> ps.
Proof.
  revert w. induction ps as [| q ps IH]; intros w; cbn [without_products].
  - split; [intros H; split; [done | apply not_elem_of_nil] | by intros [? _]].
  - rewrite IH. cbn [products without_product with_products].
    rewrite fmap_cons, not_elem_of_cons, lookup_delete_Some.
    split; [intros [[Hq Hp] Hps] | intros [Hp [Hq Hps]]]; repeat split;
      try done; by intros ->.
Qed.

Lemma interests_without_products ps w k it :
  interests (without_products ps w) !! k = Some it →
  interests w !! k = Some it ∧ Interest.product_id it ∉ Product.id <$> ps.
Proof.
  revert w. induction ps as [| q ps IH]; intros w; cbn [without_products].
  - intros H. split; [done | apply not_elem_of_nil].
  - intros H. apply IH in H as [H Hps].
    cbn [interests without_product with_products with_interests] in H.
    apply map_lookup_filter_Some in H as [H Hq]. cbn in Hq.
    split; [done |]. rewrite fmap_cons, not_elem_of_cons. by split.
Qed.

Lemma action_logs_without_products ps w l :
  l ∈ action_logs (without_products ps w) →
  l ∈ action_logs w
  ∧ ∀ p, p ∈ ps → ActionLog.product_id l ≠ Some (Product.id p).
Proof.
  revert w. induction ps as [| q ps IH]; intros w; cbn [without_products].
  - intros H. split; [done |]. intros p Hp. by apply elem_of_nil in Hp.
  - intros H. apply IH in H as [H Hps].
    cbn [action_logs without_product with_products with_interests
         with_action_logs] in H.
    apply elem_of_List_filter in H as [H Hq]. split; [done |].
    intros p Hp Hl. apply elem_of_cons in Hp as [-> | Hp]; [| by apply (Hps p)].
    unfold log_refers_to in Hq. rewrite Hl in Hq.
    by rewrite bool_decide_eq_true_2 in Hq.
Qed.

Lemma elem_of_products_of sid w p :
  p ∈ products_of sid w ↔
  ∃ i, products w !! i = Some p ∧ Product.seller_id p = sid.
Proof.
  unfold products_of. rewrite elem_of_List_filter, list_elem_of_fmap. split.
  - intros [([i q] & -> & Hq) Hs]. apply elem_of_map_to_list in Hq.
    exists i. split; [done |]. by apply N.eqb_eq in Hs.
  - intros (i & Hp & Hs). split.
    + exists (i, p). split; [done |]. by apply elem_of_map_to_list.
    + by apply N.eqb_eq.
Qed.

(** X8.  [delete_seller] answers 404 for an id without a seller and then
    changes nothing.  Otherwise, in a store where every listing sits under
    its own id, it removes the seller and, by the ORM cascades, every
    listing of the seller (the listings of other sellers stay as they
    are), every interest in such a listing, and every audit row that names
    the seller or one of those listings.  The image files of the deleted
    listings stay on disk; nothing is sent and nothing is recorded. *)
Theorem delete_seller_cascades (w : World) (sid : N) :
  keyed w →
  match List.find (fun s => Seller.id s =? sid) (sellers w) with
  | None => delete_seller sid w = Raises seller_not_found w
  | Some _ =>
      ∃ w',
        delete_seller sid w
          = Returns (Success (py "Seller deleted successfully")) w'
        ∧ (∀ s, s ∈ sellers w' ↔ s ∈ sellers w ∧ Seller.id s ≠ sid)
        ∧ (∀ i p, products w' !! i = Some p ↔
             products w !! i = Some p ∧ Product.seller_id p ≠ sid)
        ∧ (∀ k it, interests w' !! k = Some it →
             interests w !! k = Some it
             ∧ ∀ p, products w !! Interest.product_id it = Some p →
                 Product.seller_id p ≠ sid)
        ∧ (∀ l, l ∈ action_logs w' →
             l ∈ action_logs w
             ∧ ActionLog.seller_id l ≠ Some sid
             ∧ ∀ i p, ActionLog.product_id l = Some i →
                 products w !! i = Some p → Product.seller_id p ≠ sid)
        ∧ uploads w' = uploads w
        ∧ outbox w' = outbox w ∧ log_writes w' = log_writes w
  end.
Proof.
  intros Hkey. unfold delete_seller, delete_seller_row. run.
  destruct (List.find _ (sellers w)) as [s |] eqn:Hfind; [| done].
  assert (Hsid : Seller.id s = sid).
  { apply find_some in Hfind as [_ H]. by apply N.eqb_eq in H. }
  cbn. rewrite Hsid, delete_all_runs. cbn.
  set (owned := products_of sid w).
  destruct (without_products_frame owned w) as (Hs & Hu & Ho & Hw).
  assert (Howned : ∀ i p, products w !! i = Some p →
            (i ∈ Product.id <$> owned ↔ Product.seller_id p = sid)).
  { intros i p Hp. rewrite list_elem_of_fmap. split.
    - intros (q & -> & Hq). apply elem_of_products_of in Hq as (j & Hq & Hqs).
      pose proof (Hkey _ _ Hq) as Hj. rewrite Hj in Hp. congruence.
    - intros Hps. exists p. split; [symmetry; by apply Hkey |].
      apply elem_of_products_of. by exists i. }
  eexists. split; [reflexivity |].
  cbn [sellers products interests action_logs uploads outbox log_writes
       with_sellers with_action_logs].
  rewrite Hs, Hu, Ho, Hw.
  split; [| split; [| split; [| split; [| done]]]].
  - intros s'. rewrite elem_of_List_filter, negb_true_iff, N.eqb_neq. tauto.
  - intros i p. rewrite products_without_products. split.
    + intros [Hp Hi]. split; [done |]. intros Hps. by apply Hi, (Howned i p).
    + intros [Hp Hps]. split; [done |]. intros Hi. by apply Hps, (Howned i p).
  - intros k it H. apply interests_without_products in H as [H Hi].
    split; [done |]. intros p Hp Hps. by apply Hi, (Howned _ p).
  - intros l Hl. apply elem_of_List_filter in Hl as [Hl Hsl].
    apply action_logs_without_products in Hl as [Hl Hps].
    split; [done |]. split.
    + intros Heq. rewrite Heq in Hsl. by rewrite bool_decide_eq_true_2 in Hsl.
    + intros i p Hli Hp Hsp. apply (Hps p).
      * apply elem_of_products_of. by exists i.
      * by rewrite (Hkey _ _ Hp).
Qed.

Lemma demo_world_keyed : keyed Demo.world.
Proof.
  apply (bool_decide_unpack
           (map_Forall (fun i p => Product.id p = i) (products Demo.world))).
  vm_compute. exact I.
Defined.

Lemma delete_seller_cascades_witness :
  keyed Demo.world
  ∧ ∃ w',
      delete_seller 1 Demo.world
        = Returns (Success (py "Seller deleted successfully")) w'
      ∧ (∀ i p, products w' !! i = Some p ↔
           products Demo.world !! i = Some p ∧ Product.seller_id p ≠ 1)
      ∧ uploads w' = uploads Demo.world.
Proof.
  split; [exact demo_world_keyed |].
  destruct (delete_seller_cascades Demo.world 1 demo_world_keyed)
    as (w' & Hrun & _ & Hp & _ & _ & Hu & _).
  exists w'. split; [exact Hrun |]. split; [exact Hp | exact Hu].
Defined.

(** ** The public catalog *)

Lemma deep_link_of_text phone message :
  message ≠ [] →
  match generate_whatsapp_deep_link phone (Some message) with
  | Return link => link_with_text phone link
  | Raise e => e = UnicodeEncodeError
  end.
Proof.
  intros Hne. unfold generate_whatsapp_deep_link.
  destruct message as [| c m]; [done |].
  unfold quote. destruct (utf8_encode (c :: m)) as [bs |] eqn:Henc; [| done].
  exists (quote_from_bytes bs). split; [done |].
  apply quote_from_bytes_url_chars. by eapply utf8_encode_bytes.
Qed.

Lemma interest_message_nonempty price_text p : interest_message price_text p ≠ [].
Proof.
  unfold interest_message.
  destruct (Product.price p) as [price |]; [destruct (price_truthy (Some price)) |];
    intros H; apply (f_equal length) in H; rewrite !length_app in H;
    cbn in H; lia.
Qed.

Lemma find_none_iff {A} (f : A -> bool) (l : list A) :
  List.find f l = None ↔ ∀ x, x ∈ l → f x = false.
Proof.
  split.
  - intros H x Hx. apply list_elem_of_In in Hx. by eapply find_none.
  - induction l as [| a l IH]; intros H; cbn; [done |].
    rewrite (H a) by by left. apply IH. intros x Hx. apply H. by right.
Qed.

Lemma find_some_elem {A} (f : A -> bool) (l : list A) x :
  List.find f l = Some x → x ∈ l ∧ f x = true.
Proof. intros H. apply find_some in H as [H ?]. by apply list_elem_of_In in H. Qed.

Lemma catalog_owner_found slug w s :
  catalog_owner slug w = Some s →
  s ∈ sellers w ∧ Seller.catalog_slug s = slug ∧ Seller.is_active s = true.
Proof.
  intros H. apply find_some_elem in H as [Hin H].
  apply andb_true_iff in H as [Hs Ha]. split; [done |]. split; [| done].
  by apply bool_decide_eq_true in Hs.
Qed.

(** X9.  [view_product_detail] answers only for a listing that is ACTIVE
    and belongs to the active seller whose catalog the slug opens: then it
    changes nothing, reports the row with [can_undo] false, and gives a
    deep link to the seller's number with a text.  A draft, a removed
    listing and a listing of another seller are all answered with the same
    404, and an unknown slug or a deactivated seller with the 404 of the
    catalog; neither changes anything. *)
Theorem product_detail_needs_owner_and_active (E : Env) (price_text : pystr -> pystr)
    (slug : pystr) (i : N) (w : World) :
  (∀ r w',
     view_product_detail E price_text slug i w = Returns r w' →
     w' = w
     ∧ ∃ s p,
         catalog_owner slug w = Some s
         ∧ products w !! i = Some p
         ∧ Product.seller_id p = Seller.id s
         ∧ state_of p = ACTIVE
         ∧ ProductDetail.product r = product_data E p false None
         ∧ ProductDetail.seller_phone_number r = Seller.phone_number s
         ∧ link_with_text (Seller.phone_number s) (ProductDetail.whatsapp_link r))
  ∧ (∀ s p,
       catalog_owner slug w = Some s →
       products w !! i = Some p →
       Product.seller_id p ≠ Seller.id s ∨ state_of p ≠ ACTIVE →
       view_product_detail E price_text slug i w = Raises product_unavailable w)
  ∧ (∀ s,
       catalog_owner slug w = Some s →
       products w !! i = None →
       view_product_detail E price_text slug i w = Raises product_unavailable w)
  ∧ (catalog_owner slug w = None →
     view_product_detail E price_text slug i w = Raises catalog_not_found w).
Proof.
  unfold view_product_detail, query_catalog_seller, query_catalog_product. run.
  fold (catalog_owner slug w).
  destruct (catalog_owner slug w) as [s |] eqn:Hown; cbn [andb].
  2: { split; [done |]. split; [done |]. split; done. }
  destruct (products w !! i) as [p |] eqn:Hp; cbn [andb].
  2: { split; [done |]. split; [done |]. split; done. }
  destruct (Product.seller_id p =? Seller.id s) eqn:Hs; cbn [andb].
  2: { split; [done |]. split; [| split; done]. intros ? ? [= <-] [= <-] _. reflexivity. }
  destruct (Product.is_active p) eqn:Ha; cbn [andb].
  2: { split; [done |]. split; [| split; done]. intros ? ? [= <-] [= <-] _. reflexivity. }
  apply N.eqb_eq in Hs.
  assert (Hst : state_of p = ACTIVE) by (unfold state_of; by rewrite Ha).
  split; [| split; [| split; done]].
  - intros r w'.
    pose proof (deep_link_of_text (Seller.phone_number s)
                  (interest_message price_text p)
                  (interest_message_nonempty price_text p)) as Hlink.
    unfold lift_outcome.
    destruct (generate_whatsapp_deep_link _ _) as [link | e]; run; [| done].
    rewrite Product_to_dict_runs, Ha. cbn [andb].
    intros [= <- <-]. split; [done |]. exists s, p. by repeat split.
  - intros s' p' [= <-] [= <-] [Hne | Hne]; congruence.
Qed.

Lemma catalog_entry_runs price_text s p w :
  catalog_entry price_text s p w =
    match generate_whatsapp_deep_link (Seller.phone_number s)
            (Some (interest_message price_text p)) with
    | Return link =>
        Returns (CatalogProductResponse.mk
                   (Product.id p) (Product.name p) (Product.description p)
                   (if price_truthy (Product.price p) then Product.price p else None)
                   (Product.currency p) (Product.image_url p) (Seller.name s) link)
                w
    | Raise e => Raises e w
    end.
Proof.
  unfold catalog_entry, lift_outcome. run.
  by destruct (generate_whatsapp_deep_link _ _).
Qed.

Lemma catalog_entries_run price_text s ps : ∀ w cs w',
  mapM (catalog_entry price_text s) ps w = Returns cs w' →
  w' = w ∧ Forall2 (shows s) ps cs.
Proof.
  induction ps as [| p ps IH]; intros w cs w'; cbn [mapM].
  - intros [= <- <-]. split; [done | constructor].
  - intros H. apply bind_returns_inv in H as (c & w1 & Hc & H).
    apply bind_returns_inv in H as (cs' & w2 & Hcs & H).
    injection H as <- <-. rewrite catalog_entry_runs in Hc.
    pose proof (deep_link_of_text (Seller.phone_number s)
                  (interest_message price_text p)
                  (interest_message_nonempty price_text p)) as Hlink.
    destruct (generate_whatsapp_deep_link _ _) as [link | e]; [| done].
    injection Hc as <- <-. apply IH in Hcs as [-> Hcs].
    split; [done |]. constructor; [by repeat split | done].
Qed.

(** X10.  When [view_catalog] answers, the slug belongs to an active
    seller, and the products listed are the ACTIVE listings of that seller
    and no others: every entry shows such a row, and every such row has an
    entry; drafts, removed listings and the listings of other sellers
    never appear.  Every entry carries a deep link to the seller's number
    with a text.  The view changes nothing but the audit trail, where one
    CATALOG_VIEWED record with the number of products shown is attempted.
    (The order of the entries, by [created_at], is a parameter.) *)
Theorem catalog_shows_active_listings_only (E : Env)
    (newest_first : list Product.t -> list Product.t) (price_text : pystr -> pystr)
    (slug : pystr) (w : World) (r : CatalogResponse.t) (w' : World) :
  (∀ l, newest_first l ≡ₚ l) →
  view_catalog E newest_first price_text slug w = Returns r w' →
  ∃ s,
    catalog_owner slug w = Some s
    ∧ Seller.catalog_slug s = slug ∧ Seller.is_active s = true
    ∧ CatalogResponse.seller_phone r = Seller.phone_number s
    ∧ CatalogResponse.total_products r = length (CatalogResponse.products r)
    ∧ (∀ c, c ∈ CatalogResponse.products r →
         ∃ i p, products w !! i = Some p
                ∧ Product.seller_id p = Seller.id s
                ∧ state_of p = ACTIVE
                ∧ shows s p c)
    ∧ (∀ i p, products w !! i = Some p →
         Product.seller_id p = Seller.id s →
         state_of p = ACTIVE →
         ∃ c, c ∈ CatalogResponse.products r ∧ shows s p c)
    ∧ business_eq w w'
    ∧ action_logs w'
      = action_logs w
        ++ accepted E (log_writes w)
             [viewed_record s slug (CatalogResponse.total_products r)].
Proof.
  intros Hperm. unfold view_catalog, query_catalog_seller. run.
  fold (catalog_owner slug w).
  destruct (catalog_owner slug w) as [s |] eqn:Hown; [| done].
  rewrite log_action_runs. cbn beta iota.
  set (ps := newest_first _).
  set (w1 := logged E _ w).
  destruct (mapM (catalog_entry price_text s) ps w1) as [cs w2 | |] eqn:Hcs;
    [| done | done].
  intros [= <- <-]. apply catalog_entries_run in Hcs as [-> Hcs].
  destruct (catalog_owner_found _ _ _ Hown) as (Hin & Hslug & Hact).
  pose proof (Forall2_length _ _ _ Hcs) as Hlen.
  assert (Hps : ∀ p, p ∈ ps ↔
            ∃ i, products w !! i = Some p ∧ Product.seller_id p = Seller.id s
                 ∧ state_of p = ACTIVE).
  { intros p. subst ps. rewrite (Hperm _), elem_of_List_filter, elem_of_products_of.
    unfold state_of. split.
    - intros [(i & Hp & Hs) Ha]. exists i. by rewrite Ha.
    - intros (i & Hp & Hs & Ha). split; [by exists i |].
      destruct (Product.is_active p); [done |].
      by destruct (Product.can_undo_until p). }
  exists s. cbn [CatalogResponse.seller_phone CatalogResponse.total_products
                 CatalogResponse.products].
  split; [done |]. split; [done |]. split; [done |]. split; [done |].
  split; [done |]. split; [| split; [| split]].
  - intros c Hc. apply list_elem_of_lookup in Hc as [k Hk].
    destruct (Forall2_lookup_r _ _ _ _ _ Hcs Hk) as (p & Hpk & Hshow).
    apply list_elem_of_lookup_2, Hps in Hpk as (i & Hp & Hs & Hst).
    by exists i, p.
  - intros i p Hp Hs Hst.
    assert (Hin' : p ∈ ps) by (apply Hps; by exists i).
    apply list_elem_of_lookup in Hin' as [k Hk].
    destruct (Forall2_lookup_l _ _ _ _ _ Hcs Hk) as (c & Hck & Hshow).
    exists c. split; [by eapply list_elem_of_lookup_2 | done].
  - subst w1. unfold logged. by destruct (audit_commit_ok E _).
  - subst w1. rewrite action_logs_logged. unfold viewed_record. by rewrite Hlen.
Qed.

Lemma catalog_shows_active_listings_only_witness :
  ∃ r w',
    view_catalog Demo.all_ok (fun l => l) (fun t => t) (py "abc12345") Demo.world
      = Returns r w'
    ∧ CatalogResponse.total_products r = 1%nat
    ∧ (∀ c, c ∈ CatalogResponse.products r →
         ∃ i p, products Demo.world !! i = Some p
                ∧ Product.seller_id p = Seller.id Demo.ana
                ∧ state_of p = ACTIVE
                ∧ shows Demo.ana p c)
    ∧ business_eq Demo.world w'.
Proof.
  set (res := view_catalog Demo.all_ok (fun l => l) (fun t => t) (py "abc12345")
                Demo.world).
  assert (Hres : ∃ r w', res = Returns r w'
                         ∧ CatalogResponse.total_products r = 1%nat).
  { vm_compute. eexists _, _. split; reflexivity. }
  destruct Hres as (r & w' & Hrun & Htotal). subst res.
  exists r, w'. split; [exact Hrun |]. split; [exact Htotal |].
  destruct (catalog_shows_active_listings_only Demo.all_ok (fun l => l) (fun t => t)
              (py "abc12345") Demo.world r w' (fun l => reflexivity l) Hrun)
    as (s & Hs & _ & _ & _ & _ & Hshown & _ & Hbus & _).
  injection Hs as <-. split; [exact Hshown | exact Hbus].
Defined.

(** ** Deactivating a seller *)

Lemma NoDup_fmap_eq {A B} (f : A -> B) (l : list A) x y :
  NoDup (f <$> l) → x ∈ l → y ∈ l → f x = f y → x = y.
Proof.
  induction l as [| a l IH]; intros Hnd Hx Hy Hf; [by apply elem_of_nil in Hx |].
  rewrite fmap_cons in Hnd. apply NoDup_cons in Hnd as [Ha Hnd].
  apply elem_of_cons in Hx as [-> | Hx]; apply elem_of_cons in Hy as [-> | Hy].
  - done.
  - exfalso. apply Ha. rewrite Hf. by apply list_elem_of_fmap_2.
  - exfalso. apply Ha. rewrite <- Hf. by apply list_elem_of_fmap_2.
  - by apply IH.
Qed.

Lemma Seller_to_dict_runs E s w :
  Seller_to_dict E s w =
    Returns (SellerData.mk (uuid_str E (Seller.id s)) (Seller.phone_number s)
               (Seller.name s) (Seller.catalog_slug s)
               (py "/catalog/" ++ Seller.catalog_slug s) (Seller.is_active s)
               (length (List.filter Product.is_active (products_of (Seller.id s) w))))
            w.
Proof. reflexivity. Qed.

(** X11.  Deactivating a seller with [update_seller] closes the catalog
    and nothing else.  Where slugs are unique, after the update the slug
    opens no catalog: [view_catalog] and [view_product_detail] answer 404
    for it and change nothing.  The listings are all still there, as they
    were, and the update leaves no audit record. *)
Theorem deactivated_seller_has_no_catalog (E : Env)
    (newest_first : list Product.t -> list Product.t) (price_text : pystr -> pystr)
    (w : World) (s : Seller.t) (name : option pystr) :
  List.find (fun x => Seller.id x =? Seller.id s) (sellers w) = Some s →
  NoDup (Seller.catalog_slug <$> sellers w) →
  ∃ d w',
    update_seller E (Seller.id s) (SellerUpdate.mk name (Some false)) w = Returns d w'
    ∧ SellerData.is_active d = false
    ∧ SellerData.catalog_slug d = Seller.catalog_slug s
    ∧ products w' = products w ∧ action_logs w' = action_logs w
    ∧ log_writes w' = log_writes w
    ∧ catalog_owner (Seller.catalog_slug s) w' = None
    ∧ view_catalog E newest_first price_text (Seller.catalog_slug s) w'
      = Raises catalog_unavailable w'
    ∧ (∀ i, view_product_detail E price_text (Seller.catalog_slug s) i w'
            = Raises catalog_not_found w').
Proof.
  intros Hfind Hnd. unfold update_seller, commit_seller. run. rewrite Hfind.
  cbn beta iota. rewrite Seller_to_dict_runs.
  set (s' := apply_seller_update _ s).
  set (w' := with_sellers _ w).
  assert (Hown : catalog_owner (Seller.catalog_slug s) w' = None).
  { apply find_none_iff. intros x Hx. subst w'. cbn [sellers with_sellers] in Hx.
    apply list_elem_of_fmap in Hx as (y & -> & Hy).
    apply find_some_elem in Hfind as [Hs _].
    destruct (Seller.id y =? Seller.id s') eqn:Hid.
    - subst s'. cbn. apply andb_false_r.
    - apply andb_false_iff. left. apply bool_decide_eq_false. intros Hslug.
      assert (y = s) as -> by by eapply (NoDup_fmap_eq Seller.catalog_slug).
      subst s'. cbn in Hid. by rewrite N.eqb_refl in Hid. }
  exists (SellerData.mk (uuid_str E (Seller.id s')) (Seller.phone_number s')
            (Seller.name s') (Seller.catalog_slug s')
            (py "/catalog/" ++ Seller.catalog_slug s') (Seller.is_active s')
            (length (List.filter Product.is_active (products_of (Seller.id s') w')))),
         w'.
  split; [reflexivity |]. split; [reflexivity |]. split; [reflexivity |].
  split; [reflexivity |]. split; [reflexivity |]. split; [reflexivity |].
  split; [exact Hown |]. split.
  - unfold view_catalog, query_catalog_seller. run.
    fold (catalog_owner (Seller.catalog_slug s) w'). by rewrite Hown.
  - intros i. unfold view_product_detail, query_catalog_seller. run.
    fold (catalog_owner (Seller.catalog_slug s) w'). by rewrite Hown.
Qed.

Lemma deactivated_seller_has_no_catalog_witness :
  ∃ d w',
    update_seller Demo.all_ok 1 (SellerUpdate.mk None (Some false)) Demo.crowded
      = Returns d w'
    ∧ products w' = products Demo.crowded
    ∧ view_catalog Demo.all_ok (fun l => l) (fun t => t) (py "abc12345") w'
      = Raises catalog_unavailable w'.
Proof.
  assert (Hnd : NoDup (Seller.catalog_slug <$> sellers Demo.crowded)).
  { apply (bool_decide_unpack (NoDup (Seller.catalog_slug <$> sellers Demo.crowded))).
    vm_compute. exact I. }
  destruct (deactivated_seller_has_no_catalog Demo.all_ok (fun l => l) (fun t => t)
              Demo.crowded Demo.ana None eq_refl Hnd)
    as (d & w' & Hrun & _ & _ & Hp & _ & _ & _ & Hview & _).
  exists d, w'. split; [exact Hrun |]. split; [exact Hp | exact Hview].
Defined.

(** ** The listings of a seller *)

Lemma filter_length_perm {A} (f : A -> bool) (l l' : list A) :
  l ≡ₚ l' → length (List.filter f l) = length (List.filter f l').
Proof.
  induction 1 as [| x l l' _ IH | x y l | l l1 l2 _ IH1 _ IH2]; cbn.
  - done.
  - destruct (f x); cbn; by rewrite IH.
  - by destruct (f x), (f y).
  - by rewrite IH1.
Qed.

Lemma filter_length_split {A} (f : A -> bool) (l : list A) :
  length l
  = (length (List.filter f l) + length (List.filter (fun x => negb (f x)) l))%nat.
Proof.
  induction l as [| a l IH]; cbn; [done |]. destruct (f a); cbn; lia.
Qed.

Lemma to_dicts_run E ps : ∀ w,
  (dialect E = PostgreSQL → Forall (fun p => state_of p ≠ REMOVED) ps) →
  ∃ ds w',
    mapM (fun p => Product_to_dict E p false) ps w = Returns ds w'
    ∧ Forall2 (fun p d => ∃ undoable, d = product_data E p undoable None) ps ds
    ∧ business_eq (with_ticks (ticks w') w) w'
    ∧ action_logs w' = action_logs w ∧ log_writes w' = log_writes w.
Proof.
  induction ps as [| p ps IH]; intros w Hok; cbn [mapM].
  - exists [], w. split; [done |]. split; [constructor |]. by repeat split.
  - pose proof (Product_to_dict_ends E p false w) as Hp.
    destruct (Product_to_dict E p false w) as [d w1 | e w1 |] eqn:Hrun; [| | done].
    2: { destruct Hp as (_ & Hpg & Hst & _). specialize (Hok Hpg).
         by apply Forall_cons in Hok as [Hok _]. }
    destruct Hp as (_ & (u & -> & _) & Hb1 & Hl1 & Hw1).
    destruct (IH w1) as (ds & w2 & Hrest & Hall & Hb2 & Hl2 & Hw2).
    { intros Hpg. specialize (Hok Hpg). by apply Forall_cons in Hok as [_ Hok]. }
    exists (product_data E p u None :: ds), w2.
    unfold mbind, M_bind. rewrite Hrun, Hrest. split; [done |].
    split; [constructor; [by exists u | done] |].
    split; [| split; congruence].
    destruct Hb1, Hb2. cbn in *. split; cbn; congruence.
Qed.

Lemma to_dicts_raise E ps : ∀ w,
  dialect E = PostgreSQL →
  Exists (fun p => state_of p = REMOVED) ps →
  ∃ w',
    mapM (fun p => Product_to_dict E p false) ps w = Raises TypeError w'
    ∧ business_eq (with_ticks (ticks w') w) w'
    ∧ action_logs w' = action_logs w ∧ log_writes w' = log_writes w.
Proof.
  induction ps as [| p ps IH]; intros w Hpg Hex; cbn [mapM].
  - by apply Exists_nil in Hex.
  - pose proof (Product_to_dict_ends E p false w) as Hp.
    unfold mbind, M_bind.
    destruct (Product_to_dict E p false w) as [d w1 | e w1 |] eqn:Hrun; [| | done].
    + destruct Hp as (Hst & _ & Hb1 & Hl1 & Hw1).
      apply Exists_cons in Hex as [Hex | Hex]; [by apply Hst in Hex |].
      destruct (IH w1 Hpg Hex) as (w2 & Hrest & Hb2 & Hl2 & Hw2).
      exists w2. rewrite Hrest. split; [done |]. split; [| split; congruence].
      destruct Hb1, Hb2. cbn in *. split; cbn; congruence.
    + destruct Hp as (-> & _ & _ & ->). eexists. split; [done |].
      by repeat split.
Qed.

(** X12.  [get_seller_products] answers 404 for an unknown seller.  For a
    known seller it answers with the listings, unless they are read from
    PostgreSQL, inactive listings were asked for and the seller has a
    REMOVED listing: then [to_dict] fails on that listing's deadline and
    the request ends in a [TypeError].  In an answer the total is the
    number of items, and it is the sum of the two counts.  [active_count]
    is the number of the seller's ACTIVE listings.  [removed_count] is zero
    unless inactive listings were asked for, and is then the number of the
    seller's listings that are not active, drafts awaiting confirmation
    included.  Without inactive listings every item is active.  Either
    way nothing changes but the clock, which [to_dict] reads for rows with
    an undo deadline. *)
Theorem seller_products_counts (E : Env)
    (newest_first : list Product.t -> list Product.t)
    (seller_id : N) (include_inactive : bool) (w : World) :
  (∀ l, newest_first l ≡ₚ l) →
  match List.find (fun s => Seller.id s =? seller_id) (sellers w) with
  | None =>
      get_seller_products E newest_first seller_id include_inactive w
        = Raises seller_not_found w
  | Some _ =>
      (compares_deadline E seller_id include_inactive w →
       ∃ w',
         get_seller_products E newest_first seller_id include_inactive w
           = Raises TypeError w'
         ∧ business_eq (with_ticks (ticks w') w) w'
         ∧ action_logs w' = action_logs w ∧ log_writes w' = log_writes w)
      ∧ (¬ compares_deadline E seller_id include_inactive w →
         ∃ r w',
           get_seller_products E newest_first seller_id include_inactive w
             = Returns r w'
           ∧ ProductListResponse.total r = length (ProductListResponse.items r)
           ∧ ProductListResponse.total r
             = (ProductListResponse.active_count r
                + ProductListResponse.removed_count r)%nat
           ∧ ProductListResponse.active_count r
             = length (List.filter Product.is_active (products_of seller_id w))
           ∧ ProductListResponse.removed_count r
             = (if include_inactive
                then length (List.filter (fun p => negb (Product.is_active p))
                               (products_of seller_id w))
                else 0%nat)
           ∧ (include_inactive = false →
              Forall (fun d => ProductData.is_active d = true)
                     (ProductListResponse.items r))
           ∧ business_eq (with_ticks (ticks w') w) w'
           ∧ action_logs w' = action_logs w ∧ log_writes w' = log_writes w)
  end.
Proof.
  intros Hperm. unfold get_seller_products. run.
  destruct (List.find _ (sellers w)) as [s |]; [| done]. cbn beta iota.
  set (q := products_of seller_id w).
  set (ps := newest_first _).
  assert (Hpsq : ps ≡ₚ (if include_inactive then q
                        else List.filter Product.is_active q))
    by (subst ps; apply Hperm).
  split.
  { intros (Hpg & -> & p & Hp & Hst).
    destruct (to_dicts_raise E ps w Hpg) as (w' & Hrun & Hb & Hl & Hw).
    { apply Exists_exists. exists p. split; [| done]. by rewrite Hpsq. }
    rewrite Hrun. by exists w'. }
  intros Hquiet.
  destruct (to_dicts_run E ps w) as (ds & w' & Hrun & Hall & Hb & Hl & Hw).
  { intros Hpg. apply Forall_forall. intros p Hp Hst. rewrite Hpsq in Hp.
    destruct include_inactive.
    - apply Hquiet. split; [done |]. split; [done |]. by exists p.
    - apply elem_of_List_filter in Hp as [_ Ha]. unfold state_of in Hst.
      by rewrite Ha in Hst. }
  rewrite Hrun. eexists _, w'. split; [reflexivity |].
  cbn [ProductListResponse.total ProductListResponse.items
       ProductListResponse.active_count ProductListResponse.removed_count].
  pose proof (Forall2_length _ _ _ Hall) as Hlen.
  pose proof (filter_length_split Product.is_active ps) as Hsplit.
  split; [done |]. split; [lia |].
  assert (Hact : length (List.filter Product.is_active ps)
                 = length (List.filter Product.is_active q)).
  { rewrite (filter_length_perm _ _ _ Hpsq). destruct include_inactive; [done |].
    by rewrite (filter_id_Forall _ _ (filter_all _ _)). }
  split; [exact Hact |]. split; [| split; [| done]].
  - rewrite Hact. destruct include_inactive.
    + rewrite (Permutation_length Hpsq).
      pose proof (filter_length_split Product.is_active q). lia.
    + rewrite (Permutation_length Hpsq). lia.
  - intros ->.
    assert (Hps : Forall (fun p => Product.is_active p = true) ps).
    { rewrite Hpsq. apply filter_all. }
    clear -Hall Hps. induction Hall as [| p d ps ds [u ->] _ IH]; [constructor |].
    apply Forall_cons in Hps as [Hp Hps]. constructor; [exact Hp | by apply IH].
Qed.

Lemma seller_products_counts_witness :
  (∃ r w',
     get_seller_products Demo.sqlite (fun l => l) 1 true Demo.world = Returns r w'
     ∧ ProductListResponse.total r = 3%nat
     ∧ ProductListResponse.active_count r = 1%nat
     ∧ ProductListResponse.removed_count r = 2%nat)
  ∧ (∃ w',
       get_seller_products Demo.all_ok (fun l => l) 1 true Demo.world
       = Raises TypeError w'
       ∧ action_logs w' = action_logs Demo.world).
Proof.
  split.
  - destruct (seller_products_counts Demo.sqlite (fun l => l) 1 true Demo.world
                (fun l => reflexivity l)) as [_ H].
    destruct H as (r & w' & Hrun & _ & Htotal & Hact & Hrem & _).
    { intros (Hpg & _). discriminate Hpg. }
    exists r, w'. split; [exact Hrun |].
    rewrite Htotal, Hact, Hrem. vm_compute. by repeat split.
  - destruct (seller_products_counts Demo.all_ok (fun l => l) 1 true Demo.world
                (fun l => reflexivity l)) as [H _].
    destruct H as (w' & Hrun & _ & Hl & _).
    { split; [reflexivity |]. split; [reflexivity |].
      exists Demo.removed. split; [| reflexivity].
      apply elem_of_products_of. exists 12. split; reflexivity. }
    exists w'. split; [exact Hrun | exact Hl].
Defined.

(** ** Registering and looking up *)

Lemma find_app_new {A} (f : A -> bool) (l : list A) (x : A) :
  List.find f l = None → f x = true → List.find f (l ++ [x]) = Some x.
Proof.
  intros Hl Hx. induction l as [| a l IH]; cbn in *; [by rewrite Hx |].
  destruct (f a); [done |]. by apply IH.
Qed.

(** X13.  Registration and lookup are a round trip.  When [register_seller]
    returns a seller, that seller carries the phone number, name and chat
    id of the request as their columns store them (a phone number of the
    length the request schema admits is stored as it is; a name or chat id
    is stored as it is when it has at most 100 characters, and PostgreSQL
    cuts the spaces off the end of a longer one that it accepts) and is
    active; the table of sellers has grown by exactly that row;
    [get_seller_by_phone] with the stored phone number and [get_seller]
    with the new id both answer with the new seller, the new slug opens its
    catalog, and registering the same phone number again is refused with
    409 without changing anything. *)
Theorem registered_seller_is_found (E : Env) (fuel : nat) (phone : pystr)
    (name chat : option pystr) (w : World) (s : Seller.t) (w' : World) :
  register_seller E fuel phone name chat w = Returns s w' →
  varchar (dialect E) 20 phone = Some (Seller.phone_number s)
  ∧ varchar_null (dialect E) 100 name = Some (Seller.name s)
  ∧ varchar_null (dialect E) 100 chat = Some (Seller.whatsapp_chat_id s)
  ∧ ((length phone ≤ 20)%nat → Seller.phone_number s = phone)
  ∧ (∀ n, name = Some n → (length n ≤ 100)%nat → Seller.name s = Some n)
  ∧ (∀ c, chat = Some c → (length c ≤ 100)%nat → Seller.whatsapp_chat_id s = Some c)
  ∧ (name = None → Seller.name s = None)
  ∧ (chat = None → Seller.whatsapp_chat_id s = None)
  ∧ Seller.is_active s = true
  ∧ sellers w' = sellers w ++ [s]
  ∧ (∃ d, get_seller_by_phone E (Seller.phone_number s) w' = Returns d w'
          ∧ get_seller E (Seller.id s) w' = Returns d w'
          ∧ SellerData.id d = uuid_str E (Seller.id s)
          ∧ SellerData.phone_number d = Seller.phone_number s
          ∧ SellerData.catalog_slug d = Seller.catalog_slug s
          ∧ SellerData.is_active d = true)
  ∧ catalog_owner (Seller.catalog_slug s) w' = Some s
  ∧ (∀ fuel' name' chat',
       register_seller E fuel' (Seller.phone_number s) name' chat' w'
       = Raises (HTTPException 409
                   (py "Seller already registered with this phone number")) w').
Proof.
  intros H. apply register_seller_returns in H
    as (_ & Hs & _ & Hp & Hn & Hc & Ha & Hconf & Hfree & _).
  assert (Hother : ∀ x, x ∈ sellers w → seller_conflicts s x = false).
  { intros x Hx. destruct (seller_conflicts s x) eqn:Hcx; [| done].
    assert (existsb (seller_conflicts s) (sellers w) = true); [| congruence].
    apply existsb_exists. exists x. split; [by apply list_elem_of_In | done]. }
  assert (Hbyphone :
    List.find (fun x => py_eqb (Seller.phone_number x) (Seller.phone_number s))
      (sellers w') = Some s).
  { rewrite Hs. apply find_app_new; [| by apply bool_decide_eq_true].
    apply find_none_iff. intros x Hx. apply Hother in Hx.
    unfold seller_conflicts in Hx.
    apply orb_false_iff in Hx as [Hx _]. apply orb_false_iff in Hx as [Hx _].
    apply orb_false_iff in Hx as [_ Hx]. unfold py_eqb.
    apply bool_decide_eq_false. apply bool_decide_eq_false in Hx. congruence. }
  assert (Hbyid :
    List.find (fun x => Seller.id x =? Seller.id s) (sellers w') = Some s).
  { rewrite Hs. apply find_app_new; [| apply N.eqb_refl].
    apply find_none_iff. intros x Hx. apply Hother in Hx.
    unfold seller_conflicts in Hx.
    by repeat (apply orb_false_iff in Hx as [Hx _]). }
  split; [done |]. split; [done |]. split; [done |].
  split. { intros Hl. rewrite varchar_fits in Hp by done. by injection Hp. }
  split. { intros n -> Hl. cbn in Hn. rewrite varchar_fits in Hn by done.
           by injection Hn. }
  split. { intros c -> Hl. cbn in Hc. rewrite varchar_fits in Hc by done.
           by injection Hc. }
  split. { intros ->. by injection Hn. }
  split. { intros ->. by injection Hc. }
  split; [done |]. split; [done |]. split; [| split].
  - eexists. unfold get_seller_by_phone, get_seller. run.
    rewrite Hbyphone, Hbyid. cbn beta iota. rewrite Seller_to_dict_runs.
    split; [reflexivity |]. split; [reflexivity |]. cbn. by repeat split.
  - unfold catalog_owner. rewrite Hs. apply find_app_new.
    + apply find_none_iff. intros x Hx. apply andb_false_iff. left.
      by eapply find_none_iff in Hfree.
    + rewrite Ha, andb_true_r. by apply bool_decide_eq_true.
  - intros fuel' name' chat'. unfold register_seller. run. by rewrite Hbyphone.
Qed.

Lemma registered_seller_is_found_witness :
  ∃ s w',
    register_seller Demo.all_ok 3 (py "15550001111") (Some (py "Cy")) None Demo.world
      = Returns s w'
    ∧ Seller.phone_number s = py "15550001111"
    ∧ Seller.name s = Some (py "Cy")
    ∧ sellers w' = sellers Demo.world ++ [s]
    ∧ catalog_owner (Seller.catalog_slug s) w' = Some s
    ∧ register_seller Demo.all_ok 3 (py "15550001111") None None w'
      = Raises (HTTPException 409
                  (py "Seller already registered with this phone number")) w'.
Proof.
  set (res := register_seller Demo.all_ok 3 (py "15550001111") (Some (py "Cy")) None
                Demo.world).
  assert (Hres : ∃ s w', res = Returns s w').
  { vm_compute. by eexists _, _. }
  destruct Hres as (s & w' & Hrun). subst res.
  destruct (registered_seller_is_found _ _ _ _ _ _ _ _ Hrun)
    as (_ & _ & _ & Hp & Hn & _ & _ & _ & _ & Hs & _ & Hown & Hagain).
  assert (Hphone : Seller.phone_number s = py "15550001111")
    by (apply Hp; vm_compute; lia).
  exists s, w'. split; [exact Hrun |]. split; [exact Hphone |].
  split; [apply Hn; [reflexivity | vm_compute; lia] |].
  split; [exact Hs |]. split; [exact Hown |].
  rewrite <- Hphone. apply Hagain.
Defined.

(** On PostgreSQL a name of more than 100 characters whose excess is
    spaces is accepted and stored without them: the seller that
    [register_seller] returns has not the name of the request. *)
Example register_seller_cuts_spaces :
  let name := replicate 100 0x61 ++ py "  " in
  ∃ s w',
    register_seller Demo.all_ok 3 (py "15550001111") (Some name) None Demo.world
    = Returns s w'
    ∧ Seller.name s = Some (replicate 100 0x61) ∧ Seller.name s ≠ Some name.
Proof. vm_compute. eexists _, _. by repeat split. Qed.

Lemma choices_only_draws E n : ∀ w,
  choices E n w = Returns (drawn E (draws w) n) (with_draws (draws w + n) w).
Proof.
  induction n as [| n IH]; intros w; cbn [choices drawn].
  - rewrite Nat.add_0_r. by destruct w.
  - unfold secrets_choice. run. rewrite IH. cbn [draws with_draws].
    f_equal. unfold with_draws. cbn. f_equal. lia.
Qed.

Lemma retry_slug_only_draws E fuel : ∀ slug w s w',
  retry_slug E fuel slug w = Returns s w' → w' = with_draws (draws w') w.
Proof.
  induction fuel as [| fuel IH]; intros slug w s w'; cbn [retry_slug]; [done |].
  unfold query_seller_by_slug. run.
  destruct (List.find _ (sellers w)).
  - unfold generate_catalog_slug. rewrite choices_only_draws.
    intros H. apply IH in H. rewrite H at 1. reflexivity.
  - intros [= <- <-]. by destruct w.
Qed.

Lemma unique_slug_only_draws E fuel w s w' :
  unique_slug E fuel w = Returns s w' → w' = with_draws (draws w') w.
Proof.
  unfold unique_slug, generate_catalog_slug, mbind, M_bind.
  rewrite choices_only_draws. intros H.
  apply retry_slug_only_draws in H. rewrite H at 1. reflexivity.
Qed.

Lemma varchar_refuses d n s :
  varchar d n s = None → d = PostgreSQL ∧ (n < length s)%nat.
Proof.
  unfold varchar. destruct d; [| done].
  destruct (length s <=? n)%nat eqn:Hl; [done |]. intros _.
  split; [done |]. by apply Nat.leb_gt.
Qed.

(** X14.  Given a phone number of at most 20 characters, as the request
    schema requires, [register_seller] raises nothing but the 409 of a
    phone number already registered, in which case nothing at all has
    changed, a [DataError] from the insert, and an [IntegrityError] from
    the insert.  A [DataError] comes from PostgreSQL alone, and means that
    the name or the chat id of the request has more than 100 characters.
    The check for the phone number and the retry loop for the slug rule
    out a clash on either: an [IntegrityError] means that the new UUID or
    the chat id, as stored, is already held by a seller.  When it raises,
    no seller has been added, nothing has been recorded and nothing
    sent. *)
Theorem register_seller_raises_only (E : Env) (fuel : nat) (phone : pystr)
    (name chat : option pystr) (w : World) (e : Exn) (w' : World) :
  (length phone ≤ 20)%nat →
  register_seller E fuel phone name chat w = Raises e w' →
  sellers w' = sellers w ∧ products w' = products w
  ∧ action_logs w' = action_logs w ∧ log_writes w' = log_writes w
  ∧ outbox w' = outbox w
  ∧ ((e = HTTPException 409 (py "Seller already registered with this phone number")
      ∧ w' = w
      ∧ ∃ old, old ∈ sellers w ∧ Seller.phone_number old = phone)
     ∨ (e = DataError
        ∧ dialect E = PostgreSQL
        ∧ (∀ old, old ∈ sellers w → Seller.phone_number old ≠ phone)
        ∧ ((∃ n, name = Some n ∧ (100 < length n)%nat)
           ∨ ∃ c, chat = Some c ∧ (100 < length c)%nat))
     ∨ (e = IntegrityError
        ∧ (∀ old, old ∈ sellers w → Seller.phone_number old ≠ phone)
        ∧ ∃ old, old ∈ sellers w
            ∧ (Seller.id old = uuid4_at E (uuids w)
               ∨ ∃ c, varchar_null (dialect E) 100 chat = Some (Some c)
                      ∧ Seller.whatsapp_chat_id old = Some c))).
Proof.
  unfold register_seller. intros Hlen H.
  apply bind_raises_cases in H as [H | (existing & w0 & Hq & H)]; [done |].
  unfold query_seller_by_phone, gets in Hq. injection Hq as <- <-.
  destruct (List.find _ (sellers w)) as [old |] eqn:Hphone.
  { injection H as <- <-. repeat (split; [done |]). left.
    split; [done |]. split; [done |].
    apply find_some_elem in Hphone as [Hin Hp]. exists old. split; [done |].
    by apply bool_decide_eq_true in Hp. }
  assert (Hnophone : ∀ old, old ∈ sellers w → Seller.phone_number old ≠ phone).
  { intros old Hin Hp. eapply find_none_iff in Hphone; [| exact Hin].
    unfold py_eqb in Hphone. cbn beta in Hphone.
    by apply bool_decide_eq_false in Hphone. }
  apply bind_raises_cases in H as [H | (slug & w1 & Hslug & H)];
    [by apply unique_slug_never_raises in H |].
  pose proof (unique_slug_only_draws _ _ _ _ _ Hslug) as Hw1.
  apply unique_slug_returns_free in Hslug as (_ & Hfree & k & ->).
  apply bind_raises_cases in H as [H | (sid & w2 & Hid & H)]; [done |].
  injection Hid as <- <-.
  apply bind_raises_cases in H as [H | (row & w3 & Hadd & H)].
  - rewrite add_seller_runs in H.
    destruct (stored_seller E _) as [row |] eqn:Hrow.
    + apply stored_seller_fields in Hrow as (Hid & _ & Hp & _ & Hc & Hsl).
      cbn [Seller.id Seller.phone_number Seller.name Seller.whatsapp_chat_id
           Seller.catalog_slug Seller.is_active] in Hid, Hp, Hc, Hsl.
      rewrite candidate_fits in Hsl. injection Hsl as Hsl.
      rewrite varchar_fits in Hp by done. injection Hp as Hp.
      cbn [sellers with_uuids] in H.
      destruct (existsb _ (sellers w1)) eqn:Hconf; [| done].
      injection H as <- <-. rewrite Hw1. cbn. repeat (split; [done |]).
      right. right. split; [done |]. split; [exact Hnophone |].
      apply existsb_exists in Hconf as (old & Hin & Hcf).
      apply list_elem_of_In in Hin. rewrite Hw1 in Hin. cbn in Hin.
      exists old. split; [done |].
      unfold seller_conflicts in Hcf. rewrite Hid, <- Hp, <- Hsl in Hcf.
      apply orb_true_iff in Hcf as [Hcf | Hcf];
        [apply orb_true_iff in Hcf as [Hcf | Hcf];
         [apply orb_true_iff in Hcf as [Hcf | Hcf] |] |].
      * left. apply N.eqb_eq in Hcf. rewrite Hcf, Hw1. reflexivity.
      * apply bool_decide_eq_true in Hcf. by apply Hnophone in Hin.
      * apply bool_decide_eq_true in Hcf.
        eapply find_none_iff in Hfree; [| exact Hin].
        unfold py_eqb in Hfree. cbn beta in Hfree.
        by apply bool_decide_eq_false in Hfree.
      * right. destruct (Seller.whatsapp_chat_id old) as [a |]; [| done].
        destruct (Seller.whatsapp_chat_id row) as [c |]; [| done].
        apply bool_decide_eq_true in Hcf as ->. by exists c.
    + injection H as <- <-. rewrite Hw1. cbn. repeat (split; [done |]).
      right. left. split; [done |].
      unfold stored_seller in Hrow.
      cbn [Seller.id Seller.phone_number Seller.name Seller.whatsapp_chat_id
           Seller.catalog_slug Seller.is_active] in Hrow.
      rewrite candidate_fits, (varchar_fits _ _ _ Hlen) in Hrow. cbn in Hrow.
      destruct name as [n |]; cbn in Hrow.
      * destruct (varchar (dialect E) 100 n) eqn:Hn; cbn in Hrow.
        -- destruct chat as [c |]; cbn in Hrow; [| done].
           destruct (varchar (dialect E) 100 c) eqn:Hc; [done |].
           apply varchar_refuses in Hc as [Hpg Hc].
           split; [done |]. split; [exact Hnophone |]. right. by exists c.
        -- apply varchar_refuses in Hn as [Hpg Hn].
           split; [done |]. split; [exact Hnophone |]. left. by exists n.
      * destruct chat as [c |]; cbn in Hrow; [| done].
        destruct (varchar (dialect E) 100 c) eqn:Hc; [done |].
        apply varchar_refuses in Hc as [Hpg Hc].
        split; [done |]. split; [exact Hnophone |]. right. by exists c.
  - apply bind_raises_cases in H as [H | (r & w4 & Hlog & H)]; [| done].
    by rewrite log_action_runs in H.
Qed.

Lemma register_seller_raises_only_witness :
  (∃ w',
     register_seller Demo.all_ok 3 (py "15550002222") None (Some (py "15551234567"))
       Demo.world
     = Raises IntegrityError w'
     ∧ sellers w' = sellers Demo.world
     ∧ action_logs w' = action_logs Demo.world)
  ∧ (∃ w',
       register_seller Demo.all_ok 3 (py "15550002222")
         (Some (replicate 101 0x61)) None Demo.world
       = Raises DataError w'
       ∧ sellers w' = sellers Demo.world
       ∧ action_logs w' = action_logs Demo.world).
Proof.
  assert (Hlen : (length (py "15550002222") ≤ 20)%nat) by (vm_compute; lia).
  split.
  - set (res := register_seller Demo.all_ok 3 (py "15550002222") None
                  (Some (py "15551234567")) Demo.world).
    assert (Hres : ∃ w', res = Raises IntegrityError w').
    { vm_compute. by eexists. }
    destruct Hres as (w' & Hrun). subst res.
    destruct (register_seller_raises_only _ _ _ _ _ _ _ _ Hlen Hrun)
      as (Hs & _ & Hl & _).
    exists w'. split; [exact Hrun |]. split; [exact Hs | exact Hl].
  - set (res := register_seller Demo.all_ok 3 (py "15550002222")
                  (Some (replicate 101 0x61)) None Demo.world).
    assert (Hres : ∃ w', res = Raises DataError w').
    { vm_compute. by eexists. }
    destruct Hres as (w' & Hrun). subst res.
    destruct (register_seller_raises_only _ _ _ _ _ _ _ _ Hlen Hrun)
      as (Hs & _ & Hl & _).
    exists w'. split; [exact Hrun |]. split; [exact Hs | exact Hl].
Defined.

(** ** Reading the audit trail *)

Lemma sublist_rev {A} (l1 l2 : list A) :
  l1 `sublist_of` l2 → rev l1 `sublist_of` rev l2.
Proof.
  induction 1 as [| x l1 l2 _ IH | x l1 l2 _ IH]; cbn.
  - done.
  - by apply sublist_app.
  - by apply sublist_inserts_r.
Qed.

Lemma sublist_elem {A} (l1 l2 : list A) x :
  l1 `sublist_of` l2 → x ∈ l1 → x ∈ l2.
Proof.
  induction 1 as [| y l1 l2 _ IH | y l1 l2 _ IH]; intros Hx.
  - done.
  - apply elem_of_cons in Hx as [-> | Hx]; [by left | right; by apply IH].
  - right. by apply IH.
Qed.

Lemma elem_of_rev {A} (l : list A) x : x ∈ rev l ↔ x ∈ l.
Proof. rewrite !list_elem_of_In. symmetry. apply in_rev. Qed.

Lemma sublist_List_filter {A} (f : A -> bool) (l : list A) :
  List.filter f l `sublist_of` l.
Proof.
  induction l as [| a l IH]; cbn; [done |].
  destruct (f a); [by apply sublist_skip | by apply sublist_cons].
Qed.

Lemma get_seller_logs_runs seller_id action_type limit offset w :
  get_seller_logs seller_id action_type limit offset w
  = Returns (take limit (drop offset (rev (seller_trail seller_id action_type w)))) w.
Proof. by destruct action_type as [[| c t] |]. Qed.

(** X15.  The pages of [get_seller_logs] tile the seller's trail: a page
    of [limit] records from [offset], followed by the page of [more]
    records from [offset + limit], is the page of [limit + more] records
    from [offset].  A page has at most [limit] records, all of them
    records of the audit trail that name the seller and, when a type is
    asked for, bear that type; they come newest first.  The empty string
    as type asks for every type, and a string that is no action type gets
    nothing.  Reading changes nothing. *)
Theorem seller_logs_pages_tile (seller_id : N) (action_type : option pystr)
    (limit more offset : nat) (w : World) :
  ∃ page next,
    get_seller_logs seller_id action_type limit offset w = Returns page w
    ∧ get_seller_logs seller_id action_type more (offset + limit) w
      = Returns next w
    ∧ get_seller_logs seller_id action_type (limit + more) offset w
      = Returns (page ++ next) w
    ∧ (length page ≤ limit)%nat
    ∧ Forall (fun l =>
                l ∈ action_logs w
                ∧ ActionLog.seller_id l = Some seller_id
                ∧ match action_type with
                  | Some (c :: t) => action_name (ActionLog.action_type l) = c :: t
                  | _ => True
                  end) page
    ∧ page `sublist_of` rev (action_logs w)
    ∧ get_seller_logs seller_id (Some []) limit offset w
      = get_seller_logs seller_id None limit offset w
    ∧ (∀ a, action_type = Some a → a ≠ [] → (∀ k, action_name k ≠ a) → page = []).
Proof.
  rewrite !get_seller_logs_runs.
  set (query := seller_trail seller_id action_type w).
  set (mine := List.filter
                 (fun l => bool_decide (ActionLog.seller_id l = Some seller_id))
                 (action_logs w)).
  assert (Hquery : Forall (fun l =>
                l ∈ action_logs w
                ∧ ActionLog.seller_id l = Some seller_id
                ∧ match action_type with
                  | Some (c :: t) => action_name (ActionLog.action_type l) = c :: t
                  | _ => True
                  end) query).
  { apply Forall_forall. intros l Hl.
    assert (Hmine : ∀ x, x ∈ mine →
              x ∈ action_logs w ∧ ActionLog.seller_id x = Some seller_id).
    { intros x Hx. apply elem_of_List_filter in Hx as [Hx Hs].
      split; [done | by apply bool_decide_eq_true in Hs]. }
    subst query. unfold seller_trail in Hl. fold mine in Hl.
    destruct action_type as [[| c t] |].
    - destruct (Hmine l Hl). by repeat split.
    - apply elem_of_List_filter in Hl as [Hl Ht]. destruct (Hmine l Hl).
      split; [done |]. split; [done |]. by apply bool_decide_eq_true in Ht.
    - destruct (Hmine l Hl). by repeat split. }
  assert (Hsub : query `sublist_of` action_logs w).
  { subst query. unfold seller_trail. destruct action_type as [[| c t] |];
      try apply sublist_List_filter.
    etrans; apply sublist_List_filter. }
  exists (take limit (drop offset (rev query))),
         (take more (drop (offset + limit) (rev query))).
  split; [reflexivity |]. split; [reflexivity |]. split; [| split; [| split; [| split; [| split]]]].
  - by rewrite <- drop_drop, take_take_drop.
  - rewrite length_take. lia.
  - apply Forall_forall. intros l Hl.
    assert (Hin : l ∈ rev query).
    { eapply sublist_elem; [| exact Hl].
      etrans; [apply sublist_take | apply sublist_drop]. }
    apply (proj1 (elem_of_rev _ _)) in Hin.
    rewrite Forall_forall in Hquery. by apply Hquery.
  - etrans; [apply sublist_take |]. etrans; [apply sublist_drop |].
    by apply sublist_rev.
  - reflexivity.
  - intros a -> Hne Hnone. subst query. unfold seller_trail. fold mine.
    destruct a as [| c t]; [done |].
    replace (List.filter _ mine) with (@nil ActionLog.t); [by destruct limit, offset |].
    symmetry. clear -Hnone. induction mine as [| l mine IH]; cbn; [done |].
    replace (py_eqb _ _) with false; [exact IH |].
    symmetry. apply bool_decide_eq_false. apply Hnone.
Qed.

Lemma List_filter_nil {A} (f : A -> bool) (l : list A) :
  (∀ x, x ∈ l → f x = false) → List.filter f l = [].
Proof.
  induction l as [| a l IH]; intros H; cbn; [done |].
  rewrite (H a) by by left. apply IH. intros x Hx. apply H. by right.
Qed.

Lemma action_logs_after_cancel E p w :
  action_logs (after_cancel E p w)
  = List.filter (unrelated_to p w) (action_logs w)
    ++ accepted E (log_writes w) [cancelled_record (owner_of w p) p].
Proof.
  unfold after_cancel. rewrite action_logs_logged.
  cbn [log_writes without_product with_products with_interests with_action_logs
       action_logs].
  rewrite log_writes_without_image, action_logs_without_image,
    interests_without_image.
  reflexivity.
Qed.

(** X16.  Cancelling an upload takes the listing's history with it.  After
    [confirm_product_upload] with [confirmed = False] on a listing that
    exists, [get_product_logs] for its id returns nothing, whatever was
    recorded of the listing before: the cascade has deleted those rows, and
    the PRODUCT_CANCELLED record does not name the listing.  That record
    names the owner: when the listing has one and the audit store accepts
    the write, it is the newest record of the seller's trail, with or
    without a filter on its type. *)
Theorem cancelled_listing_has_no_history (E : Env) (w : World) (i : N) (p : Product.t) :
  products w !! i = Some p →
  Product.id p = i →
  ∃ w',
    confirm_product_upload E i false w = Returns UploadCancelledOK w'
    ∧ products w' !! i = None
    ∧ (∀ limit, get_product_logs i limit w' = Returns [] w')
    ∧ (∀ s, owner_of w p = Some s →
         audit_commit_ok E (log_writes w) = true →
         get_seller_logs (Seller.id s) None 1 0 w'
           = Returns [cancelled_record (Some s) p] w'
         ∧ get_seller_logs (Seller.id s) (Some (py "product_cancelled")) 1 0 w'
           = Returns [cancelled_record (Some s) p] w').
Proof.
  intros Hi Hid. rewrite (confirm_product_upload_cancels E i p w Hi).
  eexists. split; [reflexivity |].
  split; [| split].
  - unfold after_cancel. rewrite products_logged. cbn. rewrite Hid.
    apply lookup_delete_eq.
  - intros limit. unfold get_product_logs, gets. rewrite action_logs_after_cancel.
    rewrite List_filter_nil; [by destruct limit |].
    intros l Hl. apply bool_decide_eq_false. intros Hp.
    apply elem_of_app in Hl as [Hl | Hl].
    + apply elem_of_List_filter in Hl as [_ Hl]. unfold unrelated_to, log_refers_to in Hl.
      rewrite Hp, Hid in Hl. by rewrite bool_decide_eq_true_2 in Hl.
    + cbn in Hl. destruct (audit_commit_ok E (log_writes w)); cbn in Hl.
      * apply list_elem_of_singleton in Hl as ->. done.
      * by apply elem_of_nil in Hl.
  - intros s Hs Hok.
    assert (Hlogs : action_logs (after_cancel E p w)
                    = List.filter (unrelated_to p w) (action_logs w)
                      ++ [cancelled_record (Some s) p]).
    { rewrite action_logs_after_cancel, Hs. cbn [accepted]. by rewrite Hok. }
    rewrite !get_seller_logs_runs. unfold seller_trail. rewrite Hlogs.
    rewrite List.filter_app. cbn [List.filter ActionLog.seller_id cancelled_record
      fmap option_fmap option_map].
    rewrite bool_decide_eq_true_2 by done.
    split; [by rewrite rev_unit |].
    change (py "product_cancelled") with (0x70 :: py "roduct_cancelled").
    cbn iota. rewrite List.filter_app.
    cbn [List.filter ActionLog.action_type cancelled_record action_name].
    change (py_eqb (py "product_cancelled") (0x70 :: py "roduct_cancelled"))
      with true.
    cbn iota. by rewrite rev_unit.
Qed.

Lemma cancelled_listing_has_no_history_witness :
  ∃ w',
    confirm_product_upload Demo.all_ok 10 false Demo.world
      = Returns UploadCancelledOK w'
    ∧ get_product_logs 10 50 Demo.world = Returns [Demo.upload_logged Demo.draft] Demo.world
    ∧ get_product_logs 10 50 w' = Returns [] w'
    ∧ get_seller_logs 1 None 1 0 w'
      = Returns [cancelled_record (Some Demo.ana) Demo.draft] w'.
Proof.
  destruct (cancelled_listing_has_no_history Demo.all_ok Demo.world 10 Demo.draft
              eq_refl eq_refl)
    as (w' & Hrun & _ & Hnone & Hseller).
  exists w'. split; [exact Hrun |]. split; [reflexivity |].
  split; [apply Hnone |]. by apply (Hseller Demo.ana).
Defined.

(** ** The direct upload *)

(** X17.  A direct upload that is accepted is on sale at once.  When
    [upload_product] returns, the seller exists, the content type is one
    of the four allowed and the file is not larger than the limit; one row
    has been added under a fresh id, ACTIVE and without undo timestamps,
    with the form's fields as their columns store them: the description as
    it is, the name and the currency as [String(200)] and [String(3)] take
    them, the price as [Numeric(12, 2)] rounds it.  Its image was saved
    under the upload directory as a fresh UUID followed by one of the four
    allowed extensions, whatever the name of the uploaded file; and the
    answer shows the row stored, not the form.  No message is sent to the
    seller.  Two audit writes are attempted, both PRODUCT_UPLOADED for the
    new listing: the listener's, which the store refuses, and the
    endpoint's own, which carries the form's fields and is what the trail
    gains when the audit store accepts it. *)
Theorem direct_upload_is_active_at_once (E : Env) (lower : pystr -> pystr)
    (MAX_UPLOAD_SIZE : N) (megabytes : pystr) (save : pystr -> saved)
    (seller_id : N) (name : pystr) (description price : option pystr)
    (currency : pystr) (content_type : option pystr) (file_size : N)
    (filename : pystr) (w : World) (d : ProductData.t) (w' : World) :
  upload_product E lower MAX_UPLOAD_SIZE megabytes save seller_id name description
    price currency content_type file_size filename w = Returns d w' →
  ∃ ext row,
    let unique_filename := uuid_str E (uuid4_at E (uuids w)) ++ ext in
    let p := Product.mk (uuid4_at E (S (uuids w))) seller_id name description price
               currency (py "/uploads/" ++ unique_filename)
               (path_join (UPLOAD_DIR E) unique_filename) true None None in
    ext ∈ allowed_extensions
    ∧ (∃ s, s ∈ sellers w ∧ Seller.id s = seller_id)
    ∧ (∃ t, content_type = Some t ∧ t ∈ allowed_types)
    ∧ file_size ≤ MAX_UPLOAD_SIZE
    ∧ products w !! Product.id p = None
    ∧ stored_product E p = Some row
    ∧ products w' = <[Product.id p := row]> (products w)
    ∧ Product.id row = Product.id p ∧ Product.seller_id row = seller_id
    ∧ Product.description row = description
    ∧ varchar (dialect E) 200 name = Some (Product.name row)
    ∧ varchar (dialect E) 3 currency = Some (Product.currency row)
    ∧ match price with
      | Some price => numeric_12_2 E price = Product.price row
                      ∧ Product.price row ≠ None
      | None => Product.price row = None
      end
    ∧ state_of row = ACTIVE ∧ undo_fields_consistent row
    ∧ d = product_data E row false None
    ∧ uploads w' = {[Product.image_path p]} ∪ uploads w
    ∧ sellers w' = sellers w ∧ outbox w' = outbox w
    ∧ log_writes w' = S (S (log_writes w))
    ∧ action_logs w'
      = action_logs w
        ++ accepted E (S (log_writes w)) [uploaded_record p unique_filename].
Proof.
  unfold upload_product. intros H.
  apply bind_returns_inv in H as (seller & w0 & Hq & H).
  unfold query_seller_by_id, gets in Hq. injection Hq as <- <-.
  destruct (List.find _ (sellers w)) as [s |] eqn:Hs; [| done].
  destruct content_type as [t |]; [| done].
  destruct (bool_decide (t ∈ allowed_types)) eqn:Ht; [| done]. cbn [negb] in H.
  destruct (MAX_UPLOAD_SIZE <? file_size) eqn:Hsize; [done |].
  set (ext := if bool_decide (lower (splitext_ext filename) ∈ allowed_extensions)
              then lower (splitext_ext filename) else py ".jpg") in H.
  assert (Hext : ext ∈ allowed_extensions).
  { subst ext.
    destruct (bool_decide (lower (splitext_ext filename) ∈ allowed_extensions))
      eqn:Hin.
    - by apply bool_decide_eq_true in Hin.
    - apply (bool_decide_unpack (py ".jpg" ∈ allowed_extensions)). vm_compute. exact I. }
  apply bind_returns_inv in H as (u & w1 & Hu & H).
  injection Hu as <- <-. cbn [uuids with_uuids] in H.
  destruct (save _); [| done |].
  2: { apply bind_returns_inv in H as (? & ? & _ & H). done. }
  apply bind_returns_inv in H as ([] & w2 & Hwr & H).
  injection Hwr as <-.
  apply bind_returns_inv in H as (pid & w3 & Hpid & H).
  injection Hpid as <- <-. cbn [uuids with_uuids with_uploads] in H.
  apply bind_returns_inv in H as (row & w4 & Hadd & H).
  rewrite add_product_runs in Hadd.
  match type of Hadd with context [stored_product E ?q] => set (p := q) in * end.
  destruct (stored_product E p) as [row' |] eqn:Hrow; [| done].
  cbn [products with_uploads with_uuids Product.id p] in Hadd.
  destruct (products w !! uuid4_at E (S (uuids w))) eqn:Hfresh; [done |].
  injection Hadd as -> <-.
  pose proof (stored_product_fields _ _ _ Hrow) as (Hid & Hsel & Hdesc & Hact & Hrem & Hundo).
  apply bind_returns_inv in H as (r & w5 & Hlog & H).
  rewrite log_action_runs in Hlog. injection Hlog as _ <-.
  rewrite Product_to_dict_runs, Hact in H. cbn [Product.is_active p] in H.
  injection H as <- <-.
  exists ext, row. cbn zeta. fold p.
  split; [exact Hext |].
  split; [exists s; apply find_some_elem in Hs as [? Hsid]; split; [done |];
          by apply N.eqb_eq in Hsid |].
  split; [exists t; split; [done |]; by apply bool_decide_eq_true in Ht |].
  split; [by apply N.ltb_ge in Hsize |].
  split; [exact Hfresh |].
  split; [exact Hrow |].
  rewrite !products_logged, !uploads_logged, !sellers_logged, !outbox_logged,
    !action_logs_logged, log_writes_logged.
  unfold refused.
  cbn [products uploads sellers outbox action_logs log_writes with_stdout
       with_log_writes with_products with_uploads with_uuids].
  rewrite Hid.
  split; [done |]. split; [done |]. split; [exact Hsel |]. split; [exact Hdesc |].
  pose proof (stored_product_columns _ _ _ Hrow) as (Hname & Hprice & Hcur & _).
  cbn [Product.name Product.price Product.currency p] in Hname, Hprice, Hcur.
  split; [exact Hname |]. split; [exact Hcur |]. split; [exact Hprice |].
  split; [unfold state_of; by rewrite Hact |].
  split.
  { unfold undo_fields_consistent, state_of. rewrite Hact, Hrem, Hundo. cbn.
    split; (split; [by intros [? ?] | done]). }
  split; [done |]. split; [done |]. split; [done |]. split; [done |].
  split; [done |]. done.
Qed.

Lemma direct_upload_is_active_at_once_witness :
  ∃ d w',
    upload_product Demo.all_ok Desk.lower Desk.MAX_UPLOAD_SIZE Desk.megabytes Desk.save
      1 (py "Mug") None (Some (py "4.005")) (py "USD") (Some (py "image/png")) 2048
      (py "IMG_1.PNG") Demo.world = Returns d w'
    ∧ state_of <$> products w' !! 101 = Some ACTIVE
    ∧ Product.price <$> products w' !! 101 = Some (Some (py "4.01"))
    ∧ Product.image_path <$> products w' !! 101 = Some (py "uploads/100.png")
    ∧ outbox w' = outbox Demo.world.
Proof.
  set (res := upload_product Demo.all_ok Desk.lower Desk.MAX_UPLOAD_SIZE
                Desk.megabytes Desk.save 1 (py "Mug") None (Some (py "4.005"))
                (py "USD") (Some (py "image/png")) 2048 (py "IMG_1.PNG") Demo.world).
  assert (Hres : ∃ d w', res = Returns d w'
                         ∧ Product.image_path <$> products w' !! 101
                           = Some (py "uploads/100.png")
                         ∧ Product.price <$> products w' !! 101
                           = Some (Some (py "4.01"))).
  { vm_compute. eexists _, _. split; [| split]; reflexivity. }
  destruct Hres as (d & w' & Hrun & Hpath & Hprice). subst res.
  destruct (direct_upload_is_active_at_once _ _ _ _ _ _ _ _ _ _ _ _ _ _ _ _ Hrun)
    as (ext & row & _ & _ & _ & _ & _ & _ & Hp & _ & _ & _ & _ & _ & _ & Hst & _ & _
        & _ & _ & Hout & _).
  cbn zeta in Hp.
  exists d, w'. split; [exact Hrun |].
  split; [| split; [exact Hprice | split; [exact Hpath | exact Hout]]].
  rewrite Hp.
  transitivity (state_of <$> Some row); [f_equal; apply lookup_insert_eq |].
  cbn. by rewrite Hst.
Defined.

(** In a form the price is a number of any size and precision: the answer
    shows what the column kept of it.  A price of 0.004 is stored as 0.00,
    and [to_dict] then leaves the price out of the answer. *)
Example direct_upload_rounds_price :
  ∃ d w',
    upload_product Demo.all_ok Desk.lower Desk.MAX_UPLOAD_SIZE Desk.megabytes Desk.save
      1 (py "Mug") None (Some (py "0.004")) (py "USD") (Some (py "image/png")) 2048
      (py "IMG_1.PNG") Demo.world = Returns d w'
    ∧ Product.price <$> products w' !! 101 = Some (Some (py "0.00"))
    ∧ ProductData.price d = None.
Proof. vm_compute. eexists _, _. by repeat split. Qed.

(** X18.  A direct upload that is refused leaves no listing.  When
    [upload_product] raises, no row has been added, nothing has been
    recorded or sent, and the exception is one of six: 404 for an unknown
    seller, whatever the file; else 400 for a content type that is absent
    or not among the four; else 413 for a file over the limit; these three
    change nothing at all.  Else 500 when the file could not be saved;
    else [DataError] when a field of the form does not fit its column, or
    [IntegrityError] when the new id is taken: then a file has been left
    in the upload directory, and it is not cleaned up. *)
Theorem direct_upload_refused_leaves_no_listing (E : Env) (lower : pystr -> pystr)
    (MAX_UPLOAD_SIZE : N) (megabytes : pystr) (save : pystr -> saved)
    (seller_id : N) (name : pystr) (description price : option pystr)
    (currency : pystr) (content_type : option pystr) (file_size : N)
    (filename : pystr) (w : World) (e : Exn) (w' : World) :
  upload_product E lower MAX_UPLOAD_SIZE megabytes save seller_id name description
    price currency content_type file_size filename w = Raises e w' →
  let found := List.find (fun s => Seller.id s =? seller_id) (sellers w) in
  let allowed := match content_type with
                 | Some t => bool_decide (t ∈ allowed_types)
                 | None => false
                 end in
  products w' = products w ∧ sellers w' = sellers w
  ∧ action_logs w' = action_logs w ∧ log_writes w' = log_writes w
  ∧ outbox w' = outbox w
  ∧ ((e = seller_not_found ∧ w' = w ∧ found = None)
     ∨ (e = invalid_file_type ∧ w' = w ∧ is_Some found ∧ allowed = false)
     ∨ (e = file_too_large megabytes ∧ w' = w ∧ is_Some found ∧ allowed = true
        ∧ MAX_UPLOAD_SIZE < file_size)
     ∨ ((∃ t, e = HTTPException 500 (py "Failed to save image: " ++ t))
        ∧ ∃ path, uploads w' = uploads w
                  ∨ (save path ≠ Saved ∧ uploads w' = {[path]} ∪ uploads w))
     ∨ (e = DataError
        ∧ (∃ url path,
             stored_product E
               (Product.mk (uuid4_at E (S (uuids w))) seller_id name description
                  price currency url path true None None) = None
             ∧ save path = Saved ∧ uploads w' = {[path]} ∪ uploads w))
     ∨ (e = IntegrityError
        ∧ is_Some (products w !! uuid4_at E (S (uuids w)))
        ∧ ∃ path, save path = Saved ∧ uploads w' = {[path]} ∪ uploads w)).
Proof.
  unfold upload_product. intros H. cbn zeta.
  apply bind_raises_cases in H as [H | (seller & w0 & Hq & H)]; [done |].
  unfold query_seller_by_id, gets in Hq. injection Hq as <- <-.
  destruct (List.find _ (sellers w)) as [s |] eqn:Hs.
  2: { injection H as <- <-. repeat (split; [done |]). by left. }
  set (allowed := match content_type with
                  | Some t => bool_decide (t ∈ allowed_types)
                  | None => false
                  end) in *.
  destruct allowed eqn:Hallowed; cbn [negb] in H.
  2: { injection H as <- <-. repeat (split; [done |]). right. left.
       by repeat split. }
  destruct (MAX_UPLOAD_SIZE <? file_size) eqn:Hsize.
  { injection H as <- <-. repeat (split; [done |]). right. right. left.
    apply N.ltb_lt in Hsize. by repeat split. }
  apply bind_raises_cases in H as [H | (u & w1 & Hu & H)]; [done |].
  injection Hu as <- <-. cbn [uuids with_uuids] in H.
  match type of H with context [save ?p] => set (path := p) in * end.
  destruct (save path) as [| t | t] eqn:Hsave.
  - apply bind_raises_cases in H as [H | ([] & w2 & Hwr & H)]; [done |].
    injection Hwr as <-.
    apply bind_raises_cases in H as [H | (pid & w3 & Hpid & H)]; [done |].
    injection Hpid as <- <-. cbn [uuids with_uuids with_uploads] in H.
    apply bind_raises_cases in H as [H | (row & w4 & Hadd & H)].
    + rewrite add_product_runs in H.
      match type of H with context [stored_product E ?q] => set (p := q) in * end.
      destruct (stored_product E p) as [row |] eqn:Hrow.
      * cbn [products with_uploads with_uuids Product.id p] in H.
        destruct (products w !! uuid4_at E (S (uuids w))) eqn:Hfresh; [| done].
        injection H as <- <-. repeat (split; [done |]). do 5 right.
        split; [done |]. split; [by eexists |]. by exists path.
      * injection H as <- <-. repeat (split; [done |]). do 4 right. left.
        split; [done |]. eexists _, path. split; [exact Hrow |]. by split.
    + rewrite add_product_runs in Hadd.
      match type of Hadd with context [stored_product E ?q] => set (p := q) in * end.
      destruct (stored_product E p) as [row' |] eqn:Hrow; [| done].
      cbn [products with_uploads with_uuids Product.id p] in Hadd.
      destruct (products w !! uuid4_at E (S (uuids w))); [done |].
      injection Hadd as -> <-.
      apply stored_product_fields in Hrow as (_ & _ & _ & Hact & _).
      apply bind_raises_cases in H as [H | (r & w5 & Hlog & H)].
      * by rewrite log_action_runs in H.
      * rewrite Product_to_dict_runs, Hact in H. by cbn [Product.is_active p] in H.
  - injection H as <- <-. repeat (split; [done |]). do 3 right. left.
    split; [by exists t |]. exists path. by left.
  - apply bind_raises_cases in H as [H | ([] & w2 & Hwr & H)]; [done |].
    injection Hwr as <-. injection H as <- <-. repeat (split; [done |]).
    do 3 right. left. split; [by exists t |]. exists path. right.
    split; [by rewrite Hsave | done].
Qed.

Lemma direct_upload_refused_leaves_no_listing_witness :
  upload_product Demo.all_ok Desk.lower Desk.MAX_UPLOAD_SIZE Desk.megabytes Desk.save
    1 (py "Mug") None None (py "USD") (Some (py "application/pdf")) 2048
    (py "mug.png") Demo.world = Raises invalid_file_type Demo.world
  ∧ upload_product Demo.all_ok Desk.lower Desk.MAX_UPLOAD_SIZE Desk.megabytes Desk.save
      7 (py "Mug") None None (py "USD") (Some (py "application/pdf")) 2048
      (py "mug.png") Demo.world = Raises seller_not_found Demo.world
  ∧ (∃ w', upload_product Demo.all_ok Desk.lower Desk.MAX_UPLOAD_SIZE Desk.megabytes
             Desk.save 1 (py "Mug") None None (py "EURO") (Some (py "image/png")) 2048
             (py "mug.png") Demo.world = Raises DataError w'
           ∧ products w' = products Demo.world
           ∧ action_logs w' = action_logs Demo.world
           ∧ uploads w' = {[py "uploads/100.png"]} ∪ uploads Demo.world).
Proof.
  split; [reflexivity |]. split; [reflexivity |].
  set (res := upload_product Demo.all_ok Desk.lower Desk.MAX_UPLOAD_SIZE
                Desk.megabytes Desk.save 1 (py "Mug") None None (py "EURO")
                (Some (py "image/png")) 2048 (py "mug.png") Demo.world).
  assert (Hres : ∃ w', res = Raises DataError w'
                       ∧ uploads w' = {[py "uploads/100.png"]} ∪ uploads Demo.world).
  { vm_compute. eexists. split; reflexivity. }
  destruct Hres as (w' & Hrun & Hup). subst res.
  destruct (direct_upload_refused_leaves_no_listing _ _ _ _ _ _ _ _ _ _ _ _ _ _ _ _ Hrun)
    as (Hp & _ & Hl & _).
  exists w'. split; [exact Hrun |]. split; [exact Hp |]. split; [exact Hl | exact Hup].
Defined.

(** ** What a listing says of itself *)

(** X19.  The [can_undo] flag of [get_product] tells what [restore] would
    do.  For a REMOVED listing read from PostgreSQL neither has an answer:
    both compare the listing's deadline with the clock and end in the same
    [TypeError].  In every other case [get_product] answers with the row
    as [to_dict] shows it, and the flag is true exactly when
    [restore_product] called in the same world would succeed, which takes
    a REMOVED listing and a clock reading before its deadline; for an
    ACTIVE listing and for a draft it is false.  Only the clock moves.  For
    an id without a row both answer 404. *)
Theorem can_undo_flag_predicts_restore (E : Env) (w : World) (i : N) :
  match products w !! i with
  | None =>
      get_product E i w = Raises product_not_found w
      ∧ restore_product E i w = Raises not_found_or_active w
  | Some p =>
      match dialect E, state_of p with
      | PostgreSQL, REMOVED =>
          ∃ w1,
            get_product E i w = Raises TypeError w1
            ∧ restore_product E i w = Raises TypeError w1
            ∧ products w1 = products w ∧ sellers w1 = sellers w
            ∧ action_logs w1 = action_logs w ∧ uploads w1 = uploads w
      | _, _ =>
          ∃ undoable w1,
            get_product E i w = Returns (product_data E p undoable None) w1
            ∧ (undoable = true ↔ ∃ r w2, restore_product E i w = Returns r w2)
            ∧ (undoable = true ↔
               state_of p = REMOVED
               ∧ ∃ deadline, Product.can_undo_until p = Some deadline
                             ∧ (utcnow_at E (ticks w) < deadline)%Z)
            ∧ products w1 = products w ∧ sellers w1 = sellers w
            ∧ action_logs w1 = action_logs w ∧ uploads w1 = uploads w
      end
  end.
Proof.
  unfold get_product. run. rewrite restore_product_runs.
  destruct (products w !! i) as [p |]; [| done].
  rewrite Product_to_dict_runs. cbn zeta. unfold state_of.
  destruct (Product.is_active p) eqn:Ha.
  { destruct (dialect E); exists false, w;
      (split; [done |]);
      (split; [split; [done | by intros (? & ? & ?)] |]);
      (split; [split; [done | by intros [? _]] | done]). }
  destruct (Product.can_undo_until p) as [deadline |] eqn:Hd.
  2: { destruct (dialect E); exists false, w;
         (split; [done |]);
         (split; [split; [done | by intros (? & ? & ?)] |]);
         (split; [split; [done | by intros [? _]] | done]). }
  destruct (dialect E); [by eexists |].
  eexists _, _. split; [reflexivity |].
  destruct (bool_decide (utcnow_at E (ticks w) < deadline)%Z) eqn:Hnow.
  - apply bool_decide_eq_true in Hnow.
    split; [split; [by eexists _, _ | done] |].
    split; [| done]. split; [| done]. intros _. split; [done |]. by exists deadline.
  - apply bool_decide_eq_false in Hnow.
    split; [split; [done | by intros (? & ? & ?)] |].
    split; [| done]. split; [done |]. intros (_ & dl & [= <-] & Hlt). done.
Qed.

(** ** Errors that nobody caught *)

Lemma dict_update_head k v0 d extra :
  Forall (fun kv => kv.1 ≠ k) extra →
  dict_update ((k, v0) :: d) extra = (k, v0) :: dict_update d extra.
Proof.
  unfold dict_update. revert d. induction extra as [| [k1 v1] extra IH]; intros d H.
  - done.
  - apply Forall_cons in H as [Hk H]. cbn [fold_left fst snd dict_set].
    cbn in Hk. apply String.eqb_neq in Hk. rewrite Hk. by apply IH.
Qed.

(** X20.  The handler of uncaught exceptions always answers, with status
    500 and the same two texts, whatever the audit store does; it changes
    nothing but the audit trail, where it attempts one ERROR_OCCURRED
    record holding the text of the exception, the path, the method and the
    client.  In [log_error] itself the details are merged over the message:
    with details that have no entry named [error] the record begins with
    the message, and an entry named [error] in the details takes the place
    of the message, which is then not recorded. *)
Theorem uncaught_exception_is_answered (E : Env) (path method : pystr)
    (client : option pystr) (exc : pystr) (w : World) :
  let record data := ActionLog.mk ActionLog.ERROR_OCCURRED None None None data None in
  (∃ w',
     global_exception_handler E path method client exc w
       = Returns (500%nat, py "Internal Server Error",
                  py "An unexpected error occurred. Please try again later.") w'
     ∧ business_eq w w'
     ∧ action_logs w'
       = action_logs w
         ++ accepted E (log_writes w)
              [record [("error"%string, VStr exc); ("path"%string, VStr path);
                       ("method"%string, VStr method);
                       ("client"%string, opt_str client)]])
  ∧ (∀ details,
       Forall (fun kv => kv.1 ≠ "error"%string) details →
       ∃ r, log_error E exc None None (Some details) w
            = Returns r (logged E (record (("error"%string, VStr exc)
                                             :: dict_update [] details)) w))
  ∧ (∀ v details,
       Forall (fun kv => kv.1 ≠ "error"%string) details →
       ∃ r, log_error E exc None None (Some (("error"%string, v) :: details)) w
            = Returns r (logged E (record (("error"%string, v)
                                             :: dict_update [] details)) w)).
Proof.
  cbn zeta. split; [| split].
  - unfold global_exception_handler, log_error. run. rewrite log_action_runs.
    cbn [dict_update fold_left dict_set fst snd String.eqb Ascii.eqb Bool.eqb].
    eexists. split; [reflexivity |]. split.
    + unfold logged. by destruct (audit_commit_ok E _).
    + by rewrite action_logs_logged.
  - intros details Hd. unfold log_error. rewrite log_action_runs.
    destruct details as [| kv details]; [by eexists |].
    rewrite dict_update_head by done. by eexists.
  - intros v details Hd. unfold log_error. rewrite log_action_runs.
    unfold dict_update. cbn [fold_left fst snd dict_set]. rewrite String.eqb_refl.
    fold (dict_update [("error"%string, v)] details).
    rewrite dict_update_head by done. by eexists.
Qed.

(** ** Intake, seen from the catalog *)

Lemma drafts_added_same_active w w' : drafts_added w w' → same_active w w'.
Proof.
  intros [Hsub Hnew] i p Ha. split.
  - intros Hp. destruct (products w !! i) as [q |] eqn:Hq.
    + assert (products w' !! i = Some q) by by eapply lookup_weaken. congruence.
    + destruct (Hnew i p Hp Hq) as (Hna & _). congruence.
  - intros Hp. by eapply lookup_weaken.
Qed.

Lemma drafts_added_new_is_draft w w' i p :
  drafts_added w w' → products w' !! i = Some p → products w !! i = None →
  state_of p = DRAFT.
Proof.
  intros [_ Hnew] Hp Hq. destruct (Hnew i p Hp Hq) as (Ha & _ & Hu).
  unfold state_of. by rewrite Ha, Hu.
Qed.

(** X21.  An upload over WhatsApp is not on sale until it is confirmed.
    Whenever the webhook intake or the HTTP intake comes to an end,
    returning or raising, every row that was there is still there
    unchanged, every row added is a DRAFT, and the ACTIVE rows, which are
    all that the catalog endpoints show, are exactly those of before. *)
Theorem intake_is_invisible_until_confirmed (E : Env) (w : World) :
  let unseen w' :=
    products w ⊆ products w'
    ∧ (∀ i p, products w' !! i = Some p → products w !! i = None →
         state_of p = DRAFT)
    ∧ same_active w w' in
  (∀ fuel phone image_id caption,
     sat (handle_image_message E fuel phone image_id caption w) unseen)
  ∧ (∀ phone image_url caption,
       sat (upload_product_via_whatsapp E phone image_url caption w) unseen).
Proof.
  cbn zeta.
  assert (H : ∀ w', drafts_added w w' →
            products w ⊆ products w'
            ∧ (∀ i p, products w' !! i = Some p → products w !! i = None →
                 state_of p = DRAFT)
            ∧ same_active w w').
  { intros w' Hd. split; [apply Hd |]. split.
    - intros i p. by apply drafts_added_new_is_draft.
    - by apply drafts_added_same_active. }
  split; intros.
  - eapply sat_keeps; [apply handle_image_message_drafts_added | exact H].
  - eapply sat_keeps; [apply upload_product_via_whatsapp_drafts_added | exact H].
Qed.

(** ** An image that cannot be read *)

Lemma same_stock_refl w : same_stock w w.
Proof. by split. Qed.

Lemma same_stock_trans a b c : same_stock a b → same_stock b c → same_stock a c.
Proof. intros [? ?] [? ?]. split; congruence. Qed.

Lemma delivery_same_stock w w' : delivery_only w w' → same_stock w w'.
Proof. intros H. split; [apply (dl_products _ _ H) | apply (dl_uploads _ _ H)]. Qed.

Lemma send_text_message_same_stock E to n : keeps same_stock (send_text_message E to n).
Proof.
  intros w. eapply delivers_sat; [apply send_text_message_delivers |].
  apply delivery_same_stock.
Qed.

Lemma log_action_same_stock E a s p i d m : keeps same_stock (log_action E a s p i d m).
Proof.
  intros w. rewrite log_action_runs. cbn. split; [apply products_logged | apply uploads_logged].
Qed.

Lemma unique_slug_same_stock E fuel : keeps same_stock (unique_slug E fuel).
Proof.
  intros w. destruct (unique_slug E fuel w) as [s w' | e w' |] eqn:H; cbn; [| | done].
  - apply unique_slug_only_draws in H. rewrite H. by split.
  - by apply unique_slug_never_raises in H.
Qed.

Lemma auto_register_seller_same_stock E fuel phone :
  keeps same_stock (auto_register_seller E fuel phone).
Proof.
  unfold auto_register_seller, send_welcome_message.
  apply keeps_bind; [apply same_stock_trans | apply unique_slug_same_stock |].
  intros slug.
  apply keeps_bind; [apply same_stock_trans | by intros w |]. intros sid.
  apply keeps_bind; [apply same_stock_trans | |].
  { intros w. rewrite add_seller_runs.
    destruct (stored_seller E _) as [row |]; [| done].
    by destruct (existsb _ _). }
  intros seller.
  apply keeps_bind; [apply same_stock_trans | apply log_action_same_stock |].
  intros _.
  apply keeps_bind; [apply same_stock_trans | apply send_text_message_same_stock |].
  intros _. apply keeps_ret, same_stock_refl.
Qed.

(** X22.  An image that cannot be read makes no listing, but it does make
    a seller.  When the message carries no image id, or the media URL or
    the download fails, [handle_image_message] adds no row and writes no
    file, however it ends.  If the sender is registered it ends having
    done nothing but message delivery.  If the sender is not, registration
    has come first: when the handler returns, the sender is a new active
    seller with a catalog of their own, under the phone number as its
    column stores it (a number of at most 20 characters as it is). *)
Theorem unreadable_image_makes_no_listing (E : Env) (fuel : nat) (phone : pystr)
    (image_id : option pystr) (caption : pystr) (w : World) :
  match image_id with
  | None | Some [] => True
  | Some id =>
      media_url_of E id = []
      ∨ http_get E (media_url_of E id) = None
  end →
  sat (handle_image_message E fuel phone image_id caption w) (same_stock w)
  ∧ match List.find (fun s => py_eqb (Seller.phone_number s) phone) (sellers w) with
    | Some _ => delivers (handle_image_message E fuel phone image_id caption w) w
    | None =>
        ∀ w', handle_image_message E fuel phone image_id caption w = Returns tt w' →
              ∃ s, sellers w' = sellers w ++ [s]
                   ∧ varchar (dialect E) 20 phone = Some (Seller.phone_number s)
                   ∧ ((length phone ≤ 20)%nat → Seller.phone_number s = phone)
                   ∧ Seller.is_active s = true
                   ∧ slug_free w (Seller.catalog_slug s)
    end.
Proof.
  intros Hbad.
  pose (rest := fun s : Seller.t =>
    (match image_id with
     | None | Some [] => send_text_message E phone ImageUnreadable;; mret tt
     | Some image_id =>
         match media_url_of E image_id with
         | [] => send_text_message E phone ImageNotDownloaded;; mret tt
         | image_url =>
             let '(name, price) := parse_caption (Some caption) in
             match http_get E image_url with
             | None => send_text_message E phone ImageFailed;; mret tt
             | Some content_type =>
                 let file_ext := file_ext_of content_type in
                 u ← uuid4 E;
                 let unique_filename := uuid_str E u ++ file_ext in
                 let file_path := path_join (UPLOAD_DIR E) unique_filename in
                 write_image file_path;;
                 let local_image_url := py "/uploads/" ++ unique_filename in
                 product_id ← uuid4 E;
                 let product :=
                   Product.mk product_id (Seller.id s) name (Some caption)
                     price (py "USD") local_image_url file_path false None None in
                 product ← add_product E product;
                 log_action E ActionLog.PRODUCT_UPLOADED
                   (Some (Seller.id s)) (Some (Product.id product)) None
                   [("product_name"%string, VStr name);
                    ("price"%string, opt_float price)]
                   None;;
                 let price_str := if price_truthy price then price else None in
                 send_upload_confirmation E phone name (Product.id product)
                   local_image_url price_str;;
                 mret tt
             end
         end
     end : M unit)).
  assert (Hrest : ∀ s, ∃ notice,
            rest s = (send_text_message E phone notice;; mret tt)).
  { intros s. unfold rest.
    destruct image_id as [[| c id] |]; [by eexists | | by eexists].
    destruct Hbad as [Hbad | Hbad].
    - rewrite Hbad. by eexists.
    - destruct (media_url_of E (c :: id)) as [| a url]; [by eexists |].
      destruct (parse_caption (Some caption)) as [name price].
      rewrite Hbad. by eexists. }
  assert (Hsend : ∀ notice w0,
            delivers ((send_text_message E phone notice;; mret tt) w0) w0).
  { intros notice w0. unfold mbind, M_bind.
    pose proof (send_text_message_delivers E phone notice w0) as Hd.
    by destruct (send_text_message E phone notice w0). }
  change (handle_image_message E fuel phone image_id caption w)
    with ((seller ← query_seller_by_phone phone;
           seller ← match seller with
                    | Some s => mret s
                    | None => auto_register_seller E fuel phone
                    end;
           rest seller) w).
  clearbody rest.
  unfold query_seller_by_phone, gets, mbind, M_bind, mret, M_ret. cbn beta iota.
  destruct (List.find _ (sellers w)) as [s |] eqn:Hfind; cbn beta iota.
  - destruct (Hrest s) as [notice ->].
    split; [| apply Hsend].
    eapply delivers_sat; [apply Hsend | apply delivery_same_stock].
  - pose proof (auto_register_seller_same_stock E fuel phone w) as Hstock.
    destruct (auto_register_seller E fuel phone w) as [s w1 | e w1 |] eqn:Hreg;
      [| done | done].
    destruct (Hrest s) as [notice ->]. cbn in Hstock.
    pose proof (Hsend notice w1) as Hd.
    destruct ((send_text_message E phone notice;; mret tt) w1) as [[] w2 | e w2 |];
      cbn in Hd |- *; [| | done].
    + split; [eapply same_stock_trans; [exact Hstock | by apply delivery_same_stock] |].
      intros w' [= <-].
      apply auto_register_seller_returns in Hreg
        as (Hs & Hp & _ & _ & Ha & _ & Hfree & _).
      exists s. rewrite (dl_sellers _ _ Hd).
      split; [done |]. split; [done |]. split; [| done].
      intros Hl. rewrite varchar_fits in Hp by done. by injection Hp.
    + split; [eapply same_stock_trans; [exact Hstock | by apply delivery_same_stock] |].
      done.
Qed.

Lemma unreadable_image_makes_no_listing_witness :
  sat (handle_image_message Demo.all_ok 3 (py "15559990000") None (py "Mug $4") Demo.world)
      (same_stock Demo.world)
  ∧ ∃ w' s, handle_image_message Demo.all_ok 3 (py "15559990000") None (py "Mug $4")
              Demo.world = Returns tt w'
            ∧ sellers w' = sellers Demo.world ++ [s]
            ∧ Seller.phone_number s = py "15559990000".
Proof.
  destruct (unreadable_image_makes_no_listing Demo.all_ok 3 (py "15559990000") None
              (py "Mug $4") Demo.world I) as [Hsat Hnew].
  split; [exact Hsat |].
  set (res := handle_image_message Demo.all_ok 3 (py "15559990000") None (py "Mug $4")
                Demo.world) in *.
  assert (Hres : ∃ w', res = Returns tt w') by (vm_compute; by eexists).
  destruct Hres as (w' & Hrun).
  destruct (Hnew w' Hrun) as (s & Hs & _ & Hp & _).
  exists w', s. split; [exact Hrun |]. split; [exact Hs |].
  apply Hp. vm_compute. lia.
Defined.

(** ** The catalog link *)

Lemma find_by_id_elem (i : N) (l : list Seller.t) s :
  List.find (fun x => Seller.id x =? i) l = Some s → s ∈ l ∧ Seller.id s = i.
Proof.
  intros H. apply find_some in H as [Hin Hi].
  split; [by apply list_elem_of_In | by apply N.eqb_eq].
Qed.

Lemma find_unique {A B} (f : A -> B) (P : A -> bool) (l : list A) (s : A) :
  NoDup (f <$> l) → s ∈ l →
  (∀ x, x ∈ l → P x = true → f x = f s) →
  List.find P l = if P s then Some s else None.
Proof.
  intros Hnd Hs Hkey. destruct (List.find P l) as [x |] eqn:Hfind.
  - apply find_some_elem in Hfind as [Hx HP].
    assert (x = s) as -> by (eapply (NoDup_fmap_eq f); eauto).
    by rewrite HP.
  - rewrite find_none_iff in Hfind. by rewrite (Hfind s Hs).
Qed.

(** X24.  The link [get_catalog_link] hands out is the base URL, a slash
    and the seller's slug, and the call changes nothing; an unknown id is
    answered with 404.  The link is handed out whether or not the seller is
    active: where slugs are unique, its slug opens the catalog of that very
    seller if the seller is active, and opens no catalog at all if the
    seller has been deactivated. *)
Theorem catalog_link_opens_own_catalog (E : Env) (seller_id : N) (w : World) :
  NoDup (Seller.catalog_slug <$> sellers w) →
  match List.find (fun s => Seller.id s =? seller_id) (sellers w) with
  | None => get_catalog_link E seller_id w = Raises seller_not_found w
  | Some s =>
      ∃ link,
        get_catalog_link E seller_id w = Returns link w
        ∧ CatalogLink.catalog_slug link = Seller.catalog_slug s
        ∧ CatalogLink.catalog_url link
          = CATALOG_BASE_URL E ++ py "/" ++ Seller.catalog_slug s
        ∧ catalog_owner (CatalogLink.catalog_slug link) w
          = if Seller.is_active s then Some s else None
  end.
Proof.
  intros Hnd. unfold get_catalog_link. run.
  destruct (List.find _ (sellers w)) as [s |] eqn:Hfind; [| done].
  eexists. split; [reflexivity |]. cbn. split; [done |]. split; [done |].
  apply find_by_id_elem in Hfind as [Hin _].
  unfold catalog_owner.
  rewrite (find_unique Seller.catalog_slug _ _ s Hnd Hin).
  - unfold py_eqb. by rewrite bool_decide_eq_true_2.
  - intros x _ Hx. apply andb_true_iff in Hx as [Hx _].
    by apply bool_decide_eq_true in Hx.
Qed.

Lemma catalog_link_opens_own_catalog_witness :
  ∃ link,
    get_catalog_link Demo.all_ok 2 Demo.crowded = Returns link Demo.crowded
    ∧ catalog_owner (CatalogLink.catalog_slug link) Demo.crowded = Some Demo.bob.
Proof.
  assert (Hnd : NoDup (Seller.catalog_slug <$> sellers Demo.crowded)).
  { apply (bool_decide_unpack (NoDup (Seller.catalog_slug <$> sellers Demo.crowded))).
    vm_compute. exact I. }
  pose proof (catalog_link_opens_own_catalog Demo.all_ok 2 Demo.crowded Hnd) as H.
  change (List.find (fun s => Seller.id s =? 2) (sellers Demo.crowded))
    with (Some Demo.bob) in H.
  destruct H as (link & Hrun & _ & _ & Hown).
  exists link. split; [exact Hrun | exact Hown].
Defined.
